(** * AP_InertialSensor_Backend: the sample-processing core

    A shallow embedding of
    [libraries/AP_InertialSensor/AP_InertialSensor_Backend.cpp]:
    the rate estimator, the delta-angle / delta-velocity integrators, the
    gyro and accel filter chains, the publish functions and the primary
    heartbeat, followed by the properties the specification states about
    them.

    Conventions.
    - [float] is IEEE-754 binary32, computed by the Standard Library's
      [SpecFloat] at precision 24 and maximal exponent 128, so every
      definition below evaluates on concrete inputs.
    - Fixed-width unsigned integers are [Z] with the wrap-around written
      out ([uint16], [uint32], [uint64]).
    - The front end's per-instance arrays ([_imu._gyro[instance]], ...)
      are a store indexed by the array's name and the instance number.
    - What the HAL and the front end hand to one call (clock readings,
      configuration, the answers of collaborators) is an [Env]. *)

From Stdlib Require Import ZArith List Bool Lia.
From Stdlib Require Import Floats.SpecFloat.
From stdpp Require Import base decidable numbers functions.
Import ListNotations.
Local Open Scope Z_scope.

(** ** Machine integers *)

Definition uint8 (n : Z) : Z := n mod 2 ^ 8.
Definition uint16 (n : Z) : Z := n mod 2 ^ 16.
Definition uint32 (n : Z) : Z := n mod 2 ^ 32.
Definition uint64 (n : Z) : Z := n mod 2 ^ 64.

(** ** binary32 arithmetic *)

Definition float : Type := spec_float.

Definition fadd : float -> float -> float := SFadd 24 128.
Definition fsub : float -> float -> float := SFsub 24 128.
Definition fmul : float -> float -> float := SFmul 24 128.
Definition fdiv : float -> float -> float := SFdiv 24 128.
Definition fltb : float -> float -> bool := SFltb.

(** Conversion of an integer to [float], round to nearest even. *)
Definition of_int (n : Z) : float := binary_normalize 24 128 n 0 false.

(** The decimal literal [n/d], for [n] and [d] that are exact in binary32:
    the correctly rounded quotient is the literal's value. *)
Definition lit (n d : Z) : float := fdiv (of_int n) (of_int d).

Definition isnan (a : float) : bool :=
  match a with S754_nan => true | _ => false end.
Definition isinf (a : float) : bool :=
  match a with S754_infinity _ => true | _ => false end.

Declare Scope f32_scope.
Delimit Scope f32_scope with f32.
Bind Scope f32_scope with float.
Infix "+" := fadd : f32_scope.
Infix "-" := fsub : f32_scope.
Infix "*" := fmul : f32_scope.
Infix "/" := fdiv : f32_scope.
Infix "<?" := fltb : f32_scope.

Definition f_0 : float := S754_zero false.
Definition f_1 : float := Eval vm_compute in of_int 1.
Definition f_0_5 : float := Eval vm_compute in lit 1 2.
Definition f_2_0 : float := Eval vm_compute in of_int 2.
Definition f_0_8 : float := Eval vm_compute in lit 8 10.
Definition f_0_95 : float := Eval vm_compute in lit 95 100.
Definition f_0_98 : float := Eval vm_compute in lit 98 100.
Definition f_1_05 : float := Eval vm_compute in lit 105 100.
Definition f_1e6 : float := Eval vm_compute in of_int 1000000.
Definition f_1em6 : float := Eval vm_compute in lit 1 1000000.
Definition f_40 : float := Eval vm_compute in of_int 40.
(** [1.0f / 6.0f], folded in binary32. *)
Definition f_sixth : float := Eval vm_compute in (f_1 / of_int 6)%f32.

#[global] Opaque fadd fsub fmul fdiv fltb of_int.

(** ** Vector3f *)

Module Vector3.
Record t : Type := mk { x : float; y : float; z : float }.
End Vector3.
Abbreviation Vector3f := Vector3.t.
Import Vector3.

(** Modelled from the spec: [Vector3f] and its operators are declared in
    AP_Math, not under src/; they are the componentwise operations and the
    cross product the spec names, in binary32. *)
Definition vzero : Vector3f := mk f_0 f_0 f_0.

(** Modelled from the spec: [Vector3f::operator+] (AP_Math). *)
Definition vadd (a b : Vector3f) : Vector3f :=
  mk (x a + x b)%f32 (y a + y b)%f32 (z a + z b)%f32.

(** Modelled from the spec: [Vector3f::operator-] (AP_Math). *)
Definition vsub (a b : Vector3f) : Vector3f :=
  mk (x a - x b)%f32 (y a - y b)%f32 (z a - z b)%f32.

(** Modelled from the spec: [Vector3f::operator*(float)] (AP_Math). *)
Definition vscale (a : Vector3f) (k : float) : Vector3f :=
  mk (x a * k)%f32 (y a * k)%f32 (z a * k)%f32.

(** Modelled from the spec: [Vector3f::operator/(float)] (AP_Math). *)
Definition vdiv (a : Vector3f) (k : float) : Vector3f :=
  mk (x a / k)%f32 (y a / k)%f32 (z a / k)%f32.

(** Modelled from the spec: [Vector3f::operator%], the cross product
    (AP_Math). *)
Definition vcross (a b : Vector3f) : Vector3f :=
  mk (y a * z b - z a * y b)%f32
     (z a * x b - x a * z b)%f32
     (x a * y b - y a * x b)%f32.

(** Modelled from the spec: [Vector3f::is_nan] (AP_Math). *)
Definition is_nan (a : Vector3f) : bool :=
  isnan (x a) || isnan (y a) || isnan (z a).

(** Modelled from the spec: [Vector3f::is_inf] (AP_Math). *)
Definition is_inf (a : Vector3f) : bool :=
  isinf (x a) || isinf (y a) || isinf (z a).

Definition vfinite (a : Vector3f) : bool := negb (is_nan a || is_inf a).

Declare Scope v3_scope.
Delimit Scope v3_scope with v3.
Bind Scope v3_scope with Vector3.t.
Infix "+" := vadd : v3_scope.
Infix "-" := vsub : v3_scope.
Infix "*" := vscale : v3_scope.
Infix "/" := vdiv : v3_scope.

(** Modelled from the spec: [constrain_float] is a helper of AP_Math, not
    under src/; the spec says the observed rate is clamped to
    [[low, high]]. *)
Definition constrain_float (amt low high : float) : float :=
  if (amt <? low)%f32 then low
  else if (high <? amt)%f32 then high
  else amt.

(** Modelled from the spec: [AP_HAL::timeout_expired] is a helper of
    AP_HAL, not under src/; the spec says the timeout has expired when more
    than [timeout] has elapsed since [past_time].  The difference is taken
    in [uint32_t], the type of both time stamps. *)
Definition timeout_expired (past_time now timeout : Z) : bool :=
  timeout <? uint32 (now - past_time).

Definition PRIMARY_UPDATE_TIMEOUT_US : Z := 200000.

(** ** The front end's per-instance arrays

    Every array of [AP_InertialSensor] that this file reads or writes is a
    field name; [vecs s _gyro i] is [_imu._gyro[i]].  The instance number is
    a [uint8_t] that the callers keep below [INS_MAX_INSTANCES]. *)

Inductive vfield : Set :=
  | _gyro | _gyro_filtered | _delta_angle | _delta_angle_acc
  | _last_delta_angle | _last_raw_gyro | _last_gyro_for_fft | _gyro_for_fft
  | _accel | _accel_filtered | _delta_velocity | _delta_velocity_acc.

Inductive ffield : Set :=
  | _gyro_raw_sample_rates | _accel_raw_sample_rates
  | _delta_angle_acc_dt | _delta_angle_dt
  | _delta_velocity_acc_dt | _delta_velocity_dt
  | _temperature.

Inductive bfield : Set :=
  | _gyro_healthy | _accel_healthy
  | _delta_angle_valid | _delta_velocity_valid
  | _new_gyro_data | _new_accel_data.

Inductive ifield : Set :=
  | _sample_gyro_count | _sample_gyro_start_us
  | _sample_accel_count | _sample_accel_start_us
  | _gyro_last_sample_us | _accel_last_sample_us
  | _gyro_over_sampling | _accel_over_sampling
  | _gyro_error_count | _accel_error_count.

Inductive lfield : Set :=
  | _gyro_filter | _accel_filter | _post_filter_gyro_filter.

#[global] Instance vfield_eq_dec : EqDecision vfield.
Proof. solve_decision. Defined.
#[global] Instance ffield_eq_dec : EqDecision ffield.
Proof. solve_decision. Defined.
#[global] Instance bfield_eq_dec : EqDecision bfield.
Proof. solve_decision. Defined.
#[global] Instance ifield_eq_dec : EqDecision ifield.
Proof. solve_decision. Defined.
#[global] Instance lfield_eq_dec : EqDecision lfield.
Proof. solve_decision. Defined.

(** The two operations this file uses of [LowPassFilter2pVector3f] and of
    [HarmonicNotchFilterVector3f] (both declared in the Filter library):
    [apply] returns the filter's new state and its output. *)
Class Filter (F : Type) : Type := {
  apply : F -> Vector3f -> F * Vector3f;
  reset : F -> F
}.

(** One entry of [_imu.harmonic_notches]: what [params.enabled()],
    [params.hasOption(EnableOnAllIMUs)] and [is_inactive()] answer, and the
    per-instance filters [filter[instance]]. *)
Record HarmonicNotch (NF : Type) : Type := {
  params_enabled : bool;
  params_EnableOnAllIMUs : bool;
  is_inactive : bool;
  notch_filter : Z -> NF
}.
Arguments params_enabled {NF}.
Arguments params_EnableOnAllIMUs {NF}.
Arguments is_inactive {NF}.
Arguments notch_filter {NF}.

(** The front end's arrays, the kill flags and the backend object's own
    members.  [set_primary_calls] records the calls of the virtual
    [set_primary], the newest first. *)
Record State {LPF NF : Type} : Type := {
  vecs : vfield -> Z -> Vector3f;
  floats : ffield -> Z -> float;
  flags : bfield -> Z -> bool;
  ints : ifield -> Z -> Z;
  filters : lfield -> Z -> LPF;
  harmonic_notches : list (HarmonicNotch NF);
  killed : Z -> bool;
  is_primary : bool;
  last_primary_update_us : Z;
  gyro_instance : Z;
  _last_gyro_filter_hz : Z;
  _last_accel_filter_hz : Z;
  set_primary_calls : list bool
}.
Arguments State : clear implicits.

Section Setters.
Context {LPF NF : Type}.
Implicit Type s : State LPF NF.

Definition with_vecs v s : State LPF NF :=
  {| vecs := v; floats := floats s; flags := flags s; ints := ints s;
     filters := filters s; harmonic_notches := harmonic_notches s;
     killed := killed s; is_primary := is_primary s;
     last_primary_update_us := last_primary_update_us s;
     gyro_instance := gyro_instance s;
     _last_gyro_filter_hz := _last_gyro_filter_hz s;
     _last_accel_filter_hz := _last_accel_filter_hz s;
     set_primary_calls := set_primary_calls s |}.

Definition with_floats v s : State LPF NF :=
  {| vecs := vecs s; floats := v; flags := flags s; ints := ints s;
     filters := filters s; harmonic_notches := harmonic_notches s;
     killed := killed s; is_primary := is_primary s;
     last_primary_update_us := last_primary_update_us s;
     gyro_instance := gyro_instance s;
     _last_gyro_filter_hz := _last_gyro_filter_hz s;
     _last_accel_filter_hz := _last_accel_filter_hz s;
     set_primary_calls := set_primary_calls s |}.

Definition with_flags v s : State LPF NF :=
  {| vecs := vecs s; floats := floats s; flags := v; ints := ints s;
     filters := filters s; harmonic_notches := harmonic_notches s;
     killed := killed s; is_primary := is_primary s;
     last_primary_update_us := last_primary_update_us s;
     gyro_instance := gyro_instance s;
     _last_gyro_filter_hz := _last_gyro_filter_hz s;
     _last_accel_filter_hz := _last_accel_filter_hz s;
     set_primary_calls := set_primary_calls s |}.

Definition with_ints v s : State LPF NF :=
  {| vecs := vecs s; floats := floats s; flags := flags s; ints := v;
     filters := filters s; harmonic_notches := harmonic_notches s;
     killed := killed s; is_primary := is_primary s;
     last_primary_update_us := last_primary_update_us s;
     gyro_instance := gyro_instance s;
     _last_gyro_filter_hz := _last_gyro_filter_hz s;
     _last_accel_filter_hz := _last_accel_filter_hz s;
     set_primary_calls := set_primary_calls s |}.

Definition with_filters v s : State LPF NF :=
  {| vecs := vecs s; floats := floats s; flags := flags s; ints := ints s;
     filters := v; harmonic_notches := harmonic_notches s;
     killed := killed s; is_primary := is_primary s;
     last_primary_update_us := last_primary_update_us s;
     gyro_instance := gyro_instance s;
     _last_gyro_filter_hz := _last_gyro_filter_hz s;
     _last_accel_filter_hz := _last_accel_filter_hz s;
     set_primary_calls := set_primary_calls s |}.

Definition with_harmonic_notches v s : State LPF NF :=
  {| vecs := vecs s; floats := floats s; flags := flags s; ints := ints s;
     filters := filters s; harmonic_notches := v;
     killed := killed s; is_primary := is_primary s;
     last_primary_update_us := last_primary_update_us s;
     gyro_instance := gyro_instance s;
     _last_gyro_filter_hz := _last_gyro_filter_hz s;
     _last_accel_filter_hz := _last_accel_filter_hz s;
     set_primary_calls := set_primary_calls s |}.

(** [set_primary(p); is_primary = p; last_primary_update_us = now_us] *)
Definition with_primary (p : bool) (now_us : Z) s : State LPF NF :=
  {| vecs := vecs s; floats := floats s; flags := flags s; ints := ints s;
     filters := filters s; harmonic_notches := harmonic_notches s;
     killed := killed s; is_primary := p;
     last_primary_update_us := now_us;
     gyro_instance := gyro_instance s;
     _last_gyro_filter_hz := _last_gyro_filter_hz s;
     _last_accel_filter_hz := _last_accel_filter_hz s;
     set_primary_calls := p :: set_primary_calls s |}.

Definition with_last_gyro_filter_hz v s : State LPF NF :=
  {| vecs := vecs s; floats := floats s; flags := flags s; ints := ints s;
     filters := filters s; harmonic_notches := harmonic_notches s;
     killed := killed s; is_primary := is_primary s;
     last_primary_update_us := last_primary_update_us s;
     gyro_instance := gyro_instance s;
     _last_gyro_filter_hz := v;
     _last_accel_filter_hz := _last_accel_filter_hz s;
     set_primary_calls := set_primary_calls s |}.

Definition with_last_accel_filter_hz v s : State LPF NF :=
  {| vecs := vecs s; floats := floats s; flags := flags s; ints := ints s;
     filters := filters s; harmonic_notches := harmonic_notches s;
     killed := killed s; is_primary := is_primary s;
     last_primary_update_us := last_primary_update_us s;
     gyro_instance := gyro_instance s;
     _last_gyro_filter_hz := _last_gyro_filter_hz s;
     _last_accel_filter_hz := v;
     set_primary_calls := set_primary_calls s |}.

(** [_imu.f[i] = v] for each kind of array. *)
Definition set_vec (f : vfield) (i : Z) (v : Vector3f) s :=
  with_vecs (<[f := <[i := v]> (vecs s f)]> (vecs s)) s.
Definition set_float (f : ffield) (i : Z) (v : float) s :=
  with_floats (<[f := <[i := v]> (floats s f)]> (floats s)) s.
Definition set_flag (f : bfield) (i : Z) (v : bool) s :=
  with_flags (<[f := <[i := v]> (flags s f)]> (flags s)) s.
Definition set_int (f : ifield) (i : Z) (v : Z) s :=
  with_ints (<[f := <[i := v]> (ints s f)]> (ints s)) s.
Definition set_filter (f : lfield) (i : Z) (v : LPF) s :=
  with_filters (<[f := <[i := v]> (filters s f)]> (filters s)) s.

(** [notch.filter[i] = v] *)
Definition set_notch_filter (i : Z) (v : NF) (notch : HarmonicNotch NF)
  : HarmonicNotch NF :=
  {| params_enabled := params_enabled notch;
     params_EnableOnAllIMUs := params_EnableOnAllIMUs notch;
     is_inactive := is_inactive notch;
     notch_filter := <[i := v]> (notch_filter notch) |}.
End Setters.

(** ** What one call reads from outside

    The clock readings of [AP_HAL::micros], [micros64] and [millis64] at the
    places the source reads them, the arming state, and the members of the
    front end that this file reads and never writes. *)
Record Env {Rotation : Type} : Type := {
  micros : Z;                (* micros() in _update_sensor_rate, uint32 *)
  micros64_sample : Z;       (* micros64() stamping a FIFO sample *)
  micros64_lock : Z;         (* micros64() under the semaphore *)
  micros_primary : Z;        (* micros() in update_primary, uint32 *)
  millis64 : Z;              (* millis64() in sensors_converging *)
  soft_armed : bool;         (* hal.util->get_soft_armed() *)
  _primary : Z;
  _fft_window_phase : Z;
  _gyro_window_size : Z;
  _post_filter_fft : bool;
  _gyro_raw_sampling_multiplier : Z -> Z;
  is_rate_loop_gyro_enabled : Z -> bool;
  push_next_gyro_sample : Vector3f -> bool;
  _gyro_filter_cutoff : Z;
  _accel_filter_cutoff : Z;
  _accel_orientation : Z -> Rotation;
  _gyro_orientation : Z -> Rotation;
  _board_orientation : Rotation;
  _calibrating_accel : bool;
  _calibrating_gyro : bool;
  acal_running : bool;       (* _acal != nullptr && _acal->running() *)
  _accel_offset : Z -> Vector3f;
  _accel_scale : Z -> Vector3f;
  _gyro_offset : Z -> Vector3f;
  caltemp_accel : Z -> float;
  caltemp_gyro : Z -> float
}.
Arguments Env : clear implicits.

(** What the backend calls in the libraries around it:
    [LowPassFilter2p::set_cutoff_frequency(sample_freq, cutoff_freq)],
    [HarmonicNotch::update_params(instance, converging, gyro_rate)],
    [Vector3f::rotate(enum Rotation)], the temperature calibration's
    [correct_accel] and [correct_gyro] (instance, temperature, calibration
    temperature, value), and the length of the start-up convergence
    window, a constant of the build's configuration header. *)
Class Collaborators (LPF NF Rotation : Type) : Type := {
  set_cutoff_frequency : float -> float -> LPF -> LPF;
  update_params : HarmonicNotch NF -> Z -> bool -> float -> HarmonicNotch NF;
  rotate : Rotation -> Vector3f -> Vector3f;
  tcal_correct_accel : Z -> float -> float -> Vector3f -> Vector3f;
  tcal_correct_gyro : Z -> float -> float -> Vector3f -> Vector3f;
  HAL_INS_CONVERGANCE_MS : Z
}.

(** ** An accepted sample

    What the first half of a notification has worked out when it reaches
    the block under the semaphore: the sample, its time step [dt], the
    delta angle and the coning correction (gyro only), and the time of the
    previous sample that was read before it was overwritten. *)
Record GyroSample : Type := {
  gs_gyro : Vector3f;
  gs_dt : float;
  gs_delta_angle : Vector3f;
  gs_delta_coning : Vector3f;
  gs_last_sample_us : Z
}.

Record AccelSample : Type := {
  as_accel : Vector3f;
  as_dt : float;
  as_last_sample_us : Z
}.

(** ** Log records

    What the raw-logging functions hand to the logger ([Write_GYR],
    [Write_ACC]) and to the batch sampler ([batchsampler.sample]), with the
    argument values as the source passes them, and what they read from the
    logger, the front end's logging options and the batch sampler. *)
Inductive IMU_SENSOR_TYPE : Set :=
  | IMU_SENSOR_TYPE_ACCEL
  | IMU_SENSOR_TYPE_GYRO.

Inductive RAW_LOGGING_OPTION : Set :=
  | PRIMARY_GYRO_ONLY
  | ALL_GYROS
  | PRE_AND_POST_FILTER
  | POST_FILTER.

Inductive LogEvent : Type :=
  | Write_GYR (instance : Z) (sample_us : Z) (gyro : Vector3f)
  | Write_ACC (instance : Z) (sample_us : Z) (accel : Vector3f)
  | Batch_sample (instance : Z) (sensor : IMU_SENSOR_TYPE) (sample_us : Z)
      (sample : Vector3f).

Record LogEnv : Type := {
  logger_present : bool;     (* AP_Logger::get_singleton() != nullptr *)
  _log_raw_bit : Z;          (* uint32 *)
  should_log : Z -> bool;    (* logger->should_log(bit) *)
  raw_logging_option_set : RAW_LOGGING_OPTION -> bool;
  _gyro_count : Z;
  doing_sensor_rate_logging : bool;
  doing_post_filter_logging : bool;
  micros64_batch : Z         (* micros64() at lines 708 and 723 *)
}.

(** Which sensor an array belongs to. *)
Inductive Sensor : Set := Gyro | Accel.

(** ** Concrete collaborators and states

    Data for the closed examples further down: a filter that hands its
    input through unchanged and keeps no state, one orientation, and a
    backend whose arrays are all zero. *)

#[global] Instance passthrough : Filter unit :=
  {| apply f v := (f, v); reset f := f |}.

Definition sample_notch : HarmonicNotch unit :=
  {| params_enabled := true; params_EnableOnAllIMUs := false;
     is_inactive := false; notch_filter := fun _ => tt |}.

(** Retuning leaves the stateless filter and the notch as they are, the
    one orientation is the identity, the temperature calibration corrects
    nothing, and the convergence window is the thirty seconds the comment
    at line 91 names. *)
#[global] Instance sample_collaborators : Collaborators unit unit unit :=
  {| set_cutoff_frequency _ _ f := f;
     update_params notch _ _ _ := notch;
     rotate _ v := v;
     tcal_correct_accel _ _ _ v := v;
     tcal_correct_gyro _ _ _ v := v;
     HAL_INS_CONVERGANCE_MS := 30000 |}.

(** The clock reads [now] microseconds at every place of the call; the
    vehicle is disarmed, ten seconds after boot, and instance 0 is the
    primary. *)
Definition sample_env (now : Z) : Env unit :=
  {| micros := uint32 now; micros64_sample := now; micros64_lock := now;
     micros_primary := uint32 now; millis64 := 10000; soft_armed := false;
     _primary := 0; _fft_window_phase := 0; _gyro_window_size := 0;
     _post_filter_fft := false;
     _gyro_raw_sampling_multiplier := fun _ => 1;
     is_rate_loop_gyro_enabled := fun _ => false;
     push_next_gyro_sample := fun _ => true;
     _gyro_filter_cutoff := 20; _accel_filter_cutoff := 20;
     _accel_orientation := fun _ => tt; _gyro_orientation := fun _ => tt;
     _board_orientation := tt;
     _calibrating_accel := false; _calibrating_gyro := false;
     acal_running := false;
     _accel_offset := fun _ => vzero;
     _accel_scale := fun _ => mk f_1 f_1 f_1;
     _gyro_offset := fun _ => vzero;
     caltemp_accel := fun _ => f_0; caltemp_gyro := fun _ => f_0 |}.

Definition sample_zero : State unit unit :=
  {| vecs := fun _ _ => vzero; floats := fun _ _ => f_0;
     flags := fun _ _ => false; ints := fun _ _ => 0;
     filters := fun _ _ => tt; harmonic_notches := [sample_notch];
     killed := fun _ => false; is_primary := false;
     last_primary_update_us := 0; gyro_instance := 0;
     _last_gyro_filter_hz := 0; _last_accel_filter_hz := 0;
     set_primary_calls := [] |}.

(** Instance 0 of both sensors runs at 1000 Hz, its last sample was taken
    one second after boot, and 5 ms of samples are in each accumulator. *)
Definition sample_running : State unit unit :=
  let s := sample_zero in
  let s := set_float _gyro_raw_sample_rates 0 (of_int 1000) s in
  let s := set_float _accel_raw_sample_rates 0 (of_int 1000) s in
  let s := set_int _gyro_last_sample_us 0 1000000 s in
  let s := set_int _accel_last_sample_us 0 1000000 s in
  let s := set_int _sample_gyro_start_us 0 900000 s in
  let s := set_int _sample_accel_start_us 0 900000 s in
  let s := set_vec _last_raw_gyro 0 (mk f_1 f_0 f_0) s in
  let s := set_vec _last_delta_angle 0 (mk (lit 1 1000) f_0 f_0) s in
  let s := set_vec _delta_angle_acc 0 (mk (lit 5 1000) f_0 (lit 1 1000)) s in
  let s := set_float _delta_angle_acc_dt 0 (lit 5 1000) s in
  let s := set_vec _delta_velocity_acc 0 (mk f_0 f_0 (lit 5 100)) s in
  set_float _delta_velocity_acc_dt 0 (lit 5 1000) s.

(** Instance 0 of both sensors is estimated at 39 Hz; the rate window
    was opened 0.9 s after boot and has counted 999 samples, and the last
    sample was taken 1.99 s after boot. *)
Definition sample_slow : State unit unit :=
  let s := sample_zero in
  let s := set_float _gyro_raw_sample_rates 0 (of_int 39) s in
  let s := set_float _accel_raw_sample_rates 0 (of_int 39) s in
  let s := set_int _sample_gyro_count 0 999 s in
  let s := set_int _sample_accel_count 0 999 s in
  let s := set_int _sample_gyro_start_us 0 900000 s in
  let s := set_int _sample_accel_start_us 0 900000 s in
  let s := set_int _gyro_last_sample_us 0 1990000 s in
  set_int _accel_last_sample_us 0 1990000 s.

(** [sample_running] with instance 0 killed. *)
Definition sample_killed : State unit unit :=
  {| vecs := vecs sample_running; floats := floats sample_running;
     flags := flags sample_running; ints := ints sample_running;
     filters := filters sample_running;
     harmonic_notches := harmonic_notches sample_running;
     killed := fun i => i =? 0; is_primary := false;
     last_primary_update_us := 0; gyro_instance := 0;
     _last_gyro_filter_hz := 0; _last_accel_filter_hz := 0;
     set_primary_calls := [] |}.

(** A logger whose raw-IMU bit is on, no logging option, and a batch
    sampler that takes pre-filter samples at the filter rate. *)
Definition sample_log_env : LogEnv :=
  {| logger_present := true; _log_raw_bit := 19;
     should_log := fun _ => true;
     raw_logging_option_set := fun _ => false;
     _gyro_count := 3;
     doing_sensor_rate_logging := false;
     doing_post_filter_logging := false;
     micros64_batch := 0 |}.

(** The same front end without a logger. *)
Definition sample_no_logger : LogEnv :=
  {| logger_present := false; _log_raw_bit := 19;
     should_log := fun _ => true;
     raw_logging_option_set := fun _ => false;
     _gyro_count := 3;
     doing_sensor_rate_logging := false;
     doing_post_filter_logging := false;
     micros64_batch := 0 |}.

(** Two notches: one runs on every IMU, one only on the primary. *)
Definition sample_notch_all : HarmonicNotch unit :=
  {| params_enabled := true; params_EnableOnAllIMUs := true;
     is_inactive := false; notch_filter := fun _ => tt |}.

(** A front end whose raw-IMU log bit is unset, with the batch sampler
    logging at sensor rate. *)
Definition sample_batch_env : LogEnv :=
  {| logger_present := true; _log_raw_bit := 2 ^ 32 - 1;
     should_log := fun _ => true;
     raw_logging_option_set := fun _ => false;
     _gyro_count := 3;
     doing_sensor_rate_logging := true;
     doing_post_filter_logging := false;
     micros64_batch := 0 |}.

(** [sample_env] once the vehicle is armed: the sensors no longer count
    as converging. *)
Definition sample_env_armed (now : Z) : Env unit :=
  {| micros := uint32 now; micros64_sample := now; micros64_lock := now;
     micros_primary := uint32 now; millis64 := 10000; soft_armed := true;
     _primary := 0; _fft_window_phase := 0; _gyro_window_size := 0;
     _post_filter_fft := false;
     _gyro_raw_sampling_multiplier := fun _ => 1;
     is_rate_loop_gyro_enabled := fun _ => false;
     push_next_gyro_sample := fun _ => true;
     _gyro_filter_cutoff := 20; _accel_filter_cutoff := 20;
     _accel_orientation := fun _ => tt; _gyro_orientation := fun _ => tt;
     _board_orientation := tt;
     _calibrating_accel := false; _calibrating_gyro := false;
     acal_running := false;
     _accel_offset := fun _ => vzero;
     _accel_scale := fun _ => mk f_1 f_1 f_1;
     _gyro_offset := fun _ => vzero;
     caltemp_accel := fun _ => f_0; caltemp_gyro := fun _ => f_0 |}.

(** A low-pass filter that hands its input through and only remembers
    the cutoff frequency it was last tuned to, and a backend whose
    filters have not been tuned yet. *)
#[global] Instance cutoff_holder : Filter float :=
  {| apply f v := (f, v); reset f := f |}.

#[global] Instance tunable_collaborators : Collaborators float unit unit :=
  {| set_cutoff_frequency _ cutoff _ := cutoff;
     update_params notch _ _ _ := notch;
     rotate _ v := v;
     tcal_correct_accel _ _ _ v := v;
     tcal_correct_gyro _ _ _ v := v;
     HAL_INS_CONVERGANCE_MS := 30000 |}.

Definition sample_untuned : State float unit :=
  {| vecs := fun _ _ => vzero; floats := fun _ _ => f_0;
     flags := fun _ _ => false; ints := fun _ _ => 0;
     filters := fun _ _ => f_0; harmonic_notches := [];
     killed := fun _ => false; is_primary := false;
     last_primary_update_us := 0; gyro_instance := 0;
     _last_gyro_filter_hz := 0; _last_accel_filter_hz := 0;
     set_primary_calls := [] |}.

(** ** The backend's functions *)

Section Backend.
Context {LPF NF Rotation : Type} `{!Filter LPF} `{!Filter NF}
        `{!Collaborators LPF NF Rotation}.
Set Default Proof Using "Type".

Implicit Type s : State LPF NF.
Implicit Type e : Env Rotation.
Implicit Types instance : Z.

(** Modelled from the spec: [has_been_killed] is an inline member of the
    header, not under src/; the spec's killed flag is one marker per
    instance. *)
Definition has_been_killed instance s : bool := killed s instance.

(** Lines 31-35. *)
Definition notify_accel_fifo_reset instance s :=
  let s := set_int _sample_accel_count instance 0 s in
  set_int _sample_accel_start_us instance 0 s.

(** Lines 40-44. *)
Definition notify_gyro_fifo_reset instance s :=
  let s := set_int _sample_gyro_count instance 0 s in
  set_int _sample_gyro_start_us instance 0 s.

(** Lines 47-56. *)
Definition _set_accel_oversampling instance (n : Z) s :=
  set_int _accel_over_sampling instance n s.
Definition _set_gyro_oversampling instance (n : Z) s :=
  set_int _gyro_over_sampling instance n s.

(** Lines 62-65. *)
Definition sensors_converging e : bool :=
  (millis64 e <? HAL_INS_CONVERGANCE_MS) && negb (soft_armed e).

(** Lines 74-102.  The three reference parameters are returned as a
    triple [(count, start_us, rate_hz)]. *)
Definition _update_sensor_rate e (count start_us : Z) (rate_hz : float)
  : Z * Z * float :=
  let now := micros e in
  if start_us =? 0 then
    (0, now, rate_hz)
  else
    let count := uint16 (count + 1) in
    if 1000000 <? uint32 (now - start_us) then
      let observed_rate_hz :=
        (of_int count * f_1e6 / of_int (uint32 (now - start_us)))%f32 in
      let '(filter_constant, upper_limit, lower_limit) :=
        if sensors_converging e
        then (f_0_8, f_2_0, f_0_5)
        else (f_0_98, f_1_05, f_0_95) in
      let observed_rate_hz :=
        constrain_float observed_rate_hz
          (rate_hz * lower_limit)%f32 (rate_hz * upper_limit)%f32 in
      let rate_hz :=
        (filter_constant * rate_hz
         + (of_int 1 - filter_constant) * observed_rate_hz)%f32 in
      (0, now, rate_hz)
    else
      (count, start_us, rate_hz).

(** The call of lines 290-291 and 388-389, on the gyro's three arrays. *)
Definition update_gyro_sensor_rate e instance s :=
  let '(count, start_us, rate_hz) :=
    _update_sensor_rate e (ints s _sample_gyro_count instance)
      (ints s _sample_gyro_start_us instance)
      (floats s _gyro_raw_sample_rates instance) in
  let s := set_int _sample_gyro_count instance count s in
  let s := set_int _sample_gyro_start_us instance start_us s in
  set_float _gyro_raw_sample_rates instance rate_hz s.

(** The call of lines 546-547 and 633-634, on the accel's three arrays. *)
Definition update_accel_sensor_rate e instance s :=
  let '(count, start_us, rate_hz) :=
    _update_sensor_rate e (ints s _sample_accel_count instance)
      (ints s _sample_accel_start_us instance)
      (floats s _accel_raw_sample_rates instance) in
  let s := set_int _sample_accel_count instance count s in
  let s := set_int _sample_accel_start_us instance start_us s in
  set_float _accel_raw_sample_rates instance rate_hz s.

(** Lines 104-145.  The learning hook of the temperature calibration only
    records the value. *)
Definition _rotate_and_correct_accel e instance s (accel : Vector3f)
  : Vector3f :=
  let accel := rotate (_accel_orientation e instance) accel in
  let accel :=
    if negb (_calibrating_accel e) && negb (acal_running e) then
      let accel :=
        tcal_correct_accel instance (floats s _temperature instance)
          (caltemp_accel e instance) accel in
      let accel := (accel - _accel_offset e instance)%v3 in
      let accel_scale := _accel_scale e instance in
      mk (x accel * x accel_scale)%f32
         (y accel * y accel_scale)%f32
         (z accel * z accel_scale)%f32
    else accel in
  rotate (_board_orientation e) accel.

(** Lines 147-170. *)
Definition _rotate_and_correct_gyro e instance s (gyro : Vector3f)
  : Vector3f :=
  let gyro := rotate (_gyro_orientation e instance) gyro in
  let gyro :=
    if negb (_calibrating_gyro e) then
      let gyro :=
        tcal_correct_gyro instance (floats s _temperature instance)
          (caltemp_gyro e instance) gyro in
      (gyro - _gyro_offset e instance)%v3
    else gyro in
  rotate (_board_orientation e) gyro.

(** Lines 175-190. *)
Definition _publish_gyro instance (gyro : Vector3f) s :=
  if has_been_killed instance s then s
  else
    let s := set_vec _gyro instance gyro s in
    let s := set_flag _gyro_healthy instance true s in
    let s := set_vec _delta_angle instance
               (vecs s _delta_angle_acc instance) s in
    let s := set_float _delta_angle_dt instance
               (floats s _delta_angle_acc_dt instance) s in
    let s := set_flag _delta_angle_valid instance true s in
    let s := set_vec _delta_angle_acc instance vzero s in
    set_float _delta_angle_acc_dt instance f_0 s.

(** Lines 193-214.  The pushes into the FFT sample window feed the
    spectral analysis and are not read back here. *)
Definition save_gyro_window e instance (gyro : Vector3f) (phase : Z) s :=
  if _fft_window_phase e =? phase then
    let multiplier := of_int (_gyro_raw_sampling_multiplier e instance) in
    if 0 <? _gyro_window_size e then
      let scaled_gyro := (gyro * multiplier)%v3 in
      let '(s, scaled_gyro) :=
        if _post_filter_fft e then
          let '(f, v) :=
            apply (filters s _post_filter_gyro_filter instance)
              scaled_gyro in
          (set_filter _post_filter_gyro_filter instance f s, v)
        else (s, scaled_gyro) in
      set_vec _last_gyro_for_fft instance scaled_gyro s
    else
      set_vec _last_gyro_for_fft instance (gyro * multiplier)%v3 s
  else s.

(** [notch.filter[instance].reset()] *)
Definition reset_notch instance (notch : HarmonicNotch NF) :=
  set_notch_filter instance (reset (notch_filter notch instance)) notch.

(** The loop of lines 227-247 over [_imu.harmonic_notches]: the notches
    as the loop leaves them, the filtered value, the next phase and the
    state [save_gyro_window] has written to. *)
Fixpoint apply_harmonic_notches e instance
    (notches : list (HarmonicNotch NF)) (gyro_filtered : Vector3f)
    (filter_phase : Z) s
  : list (HarmonicNotch NF) * Vector3f * Z * State LPF NF :=
  match notches with
  | [] => ([], gyro_filtered, filter_phase, s)
  | notch :: rest =>
    if negb (params_enabled notch) then
      let '(rest, g, p, s) :=
        apply_harmonic_notches e instance rest gyro_filtered
          filter_phase s in
      (notch :: rest, g, p, s)
    else
      let inactive :=
        is_inactive notch
        || (negb (params_EnableOnAllIMUs notch)
            && negb (instance =? _primary e)) in
      let '(notch, gyro_filtered) :=
        if inactive then (reset_notch instance notch, gyro_filtered)
        else
          let '(f, v) := apply (notch_filter notch instance)
                           gyro_filtered in
          (set_notch_filter instance f notch, v) in
      let s := save_gyro_window e instance gyro_filtered filter_phase s in
      let '(rest, g, p, s) :=
        apply_harmonic_notches e instance rest gyro_filtered
          (uint8 (filter_phase + 1)) s in
      (notch :: rest, g, p, s)
  end.

(** Lines 255-263: every filter of the instance is reset. *)
Definition reset_gyro_filters instance s :=
  let s := set_filter _gyro_filter instance
             (reset (filters s _gyro_filter instance)) s in
  let s := set_filter _post_filter_gyro_filter instance
             (reset (filters s _post_filter_gyro_filter instance)) s in
  with_harmonic_notches
    (map (reset_notch instance) (harmonic_notches s)) s.

(** Lines 267-278: the value is recorded for the front end, unless the
    rate loop takes the samples and had no room for this one. *)
Definition record_gyro_filtered e instance (gyro_filtered : Vector3f) s :=
  if is_rate_loop_gyro_enabled e instance then
    if push_next_gyro_sample e gyro_filtered then
      set_vec _gyro_filtered instance gyro_filtered s
    else s
  else
    set_vec _gyro_filtered instance gyro_filtered s.

(** Lines 219-279. *)
Definition apply_gyro_filters e instance (gyro : Vector3f) s :=
  let filter_phase := 0 in
  let s := save_gyro_window e instance gyro filter_phase s in
  let filter_phase := uint8 (filter_phase + 1) in
  let gyro_filtered := gyro in
  let '(notches, gyro_filtered, _, s) :=
    apply_harmonic_notches e instance (harmonic_notches s)
      gyro_filtered filter_phase s in
  let s := with_harmonic_notches notches s in
  let '(f, gyro_filtered) :=
    apply (filters s _gyro_filter instance) gyro_filtered in
  let s := set_filter _gyro_filter instance f s in
  let '(s, gyro_filtered) :=
    if is_nan gyro_filtered || is_inf gyro_filtered then
      let s := reset_gyro_filters instance s in
      (s, vecs s _gyro_filtered instance)
    else (s, gyro_filtered) in
  record_gyro_filtered e instance gyro_filtered s.

(** Lines 803-816. *)
Definition update_primary e s :=
  let is_new_primary := gyro_instance s =? _primary e in
  let now_us := micros_primary e in
  if negb (eqb (is_primary s) is_new_primary)
     || timeout_expired (last_primary_update_us s) now_us
          PRIMARY_UPDATE_TIMEOUT_US
  then with_primary is_new_primary now_us s
  else s.

(** The test of lines 344, 433, 585 and 663:
    [now - last_sample_us > 100000U] in [uint64_t]. *)
Definition stale_gap (now last_sample_us : Z) : bool :=
  100000 <? uint64 (now - last_sample_us).

(** Lines 303-315: the sample's time step.  [None] is the early return of
    line 309; otherwise the state with the new last-sample time, [dt] and
    the sample's time stamp. *)
Definition gyro_sample_dt e instance (sample_us : Z) s
  : option (State LPF NF * float * Z) :=
  if negb (sample_us =? 0)
     && negb (ints s _gyro_last_sample_us instance =? 0) then
    let dt :=
      (of_int (uint64 (sample_us - ints s _gyro_last_sample_us instance))
       * f_1em6)%f32 in
    Some (set_int _gyro_last_sample_us instance sample_us s, dt, sample_us)
  else if (floats s _gyro_raw_sample_rates instance <? f_40)%f32 then
    None
  else
    let dt := (f_1 / floats s _gyro_raw_sample_rates instance)%f32 in
    let s := set_int _gyro_last_sample_us instance (micros64_sample e) s in
    Some (s, dt, ints s _gyro_last_sample_us instance).

(** Lines 328 and 417: the delta angle of a raw sample (trapezoidal) and
    of a sample that arrived as a delta angle. *)
Definition trapezoidal_delta_angle (gyro last_raw_gyro : Vector3f)
    (dt : float) : Vector3f :=
  ((gyro + last_raw_gyro) * f_0_5 * dt)%v3.

(** Lines 335-338 and 424-427: the coning correction. *)
Definition coning_correction (delta_angle_acc last_delta_angle
    delta_angle : Vector3f) : Vector3f :=
  let delta_coning := (delta_angle_acc + last_delta_angle * f_sixth)%v3 in
  let delta_coning := vcross delta_coning delta_angle in
  (delta_coning * f_0_5)%v3.

(** Lines 340-367 and 429-456, the block under the semaphore. *)
Definition integrate_delta_angle e instance (g : GyroSample) s :=
  let gyro := gs_gyro g in
  let dt := gs_dt g in
  let delta_angle := gs_delta_angle g in
  let delta_coning := gs_delta_coning g in
  let now := micros64_lock e in
  let stale := stale_gap now (gs_last_sample_us g) in
  let s :=
    if stale then
      let s := set_vec _delta_angle_acc instance vzero s in
      set_float _delta_angle_acc_dt instance f_0 s
    else s in
  let dt := if stale then f_0 else dt in
  let delta_angle := if stale then vzero else delta_angle in
  let s := set_vec _delta_angle_acc instance
             (vecs s _delta_angle_acc instance
              + (delta_angle + delta_coning))%v3 s in
  let s := set_float _delta_angle_acc_dt instance
             (floats s _delta_angle_acc_dt instance + dt)%f32 s in
  let s := set_vec _last_delta_angle instance delta_angle s in
  let s := set_vec _last_raw_gyro instance gyro s in
  let s := apply_gyro_filters e instance gyro s in
  set_flag _new_gyro_data instance true s.

(** Lines 290-338: the rate estimator, the time step and the two deltas
    of a raw gyro sample.  The state is the one the function has reached;
    [None] is the early return of line 309. *)
Definition gyro_raw_sample e instance (gyro : Vector3f) (sample_us : Z) s
  : State LPF NF * option GyroSample :=
  let s := update_gyro_sensor_rate e instance s in
  let last_sample_us := ints s _gyro_last_sample_us instance in
  match gyro_sample_dt e instance sample_us s with
  | None => (s, None)
  | Some (s, dt, sample_us) =>
    let delta_angle :=
      trapezoidal_delta_angle gyro (vecs s _last_raw_gyro instance) dt in
    let delta_coning :=
      coning_correction (vecs s _delta_angle_acc instance)
        (vecs s _last_delta_angle instance) delta_angle in
    (s, Some {| gs_gyro := gyro; gs_dt := dt;
                gs_delta_angle := delta_angle;
                gs_delta_coning := delta_coning;
                gs_last_sample_us := last_sample_us |})
  end.

(** Lines 281-372.  The module hook, the optical-flow push and the raw
    logging receive values and hand nothing back. *)
Definition _notify_new_gyro_raw_sample e instance (gyro : Vector3f)
    (sample_us : Z) s :=
  if has_been_killed instance s then s
  else
    match gyro_raw_sample e instance gyro sample_us s with
    | (s, None) => s
    | (s, Some g) =>
      let s := integrate_delta_angle e instance g s in
      update_primary e s
    end.

(** Lines 388-427: the same for a sample that arrives as a delta angle;
    [None] is the early return of line 395. *)
Definition delta_angle_sample e instance (dangle : Vector3f) s
  : State LPF NF * option GyroSample :=
  let s := update_gyro_sensor_rate e instance s in
  let last_sample_us := ints s _gyro_last_sample_us instance in
  if (floats s _gyro_raw_sample_rates instance <? f_40)%f32 then
    (s, None)
  else
    let dt := (f_1 / floats s _gyro_raw_sample_rates instance)%f32 in
    let s := set_int _gyro_last_sample_us instance
               (micros64_sample e) s in
    let gyro := (dangle / dt)%v3 in
    let gyro := _rotate_and_correct_gyro e instance s gyro in
    let delta_angle := (gyro * dt)%v3 in
    let delta_coning :=
      coning_correction (vecs s _delta_angle_acc instance)
        (vecs s _last_delta_angle instance) delta_angle in
    (s, Some {| gs_gyro := gyro; gs_dt := dt;
                gs_delta_angle := delta_angle;
                gs_delta_coning := delta_coning;
                gs_last_sample_us := last_sample_us |}).

(** Lines 381-460. *)
Definition _notify_new_delta_angle e instance (dangle : Vector3f) s :=
  if has_been_killed instance s then s
  else
    match delta_angle_sample e instance dangle s with
    | (s, None) => s
    | (s, Some g) =>
      let s := integrate_delta_angle e instance g s in
      update_primary e s
    end.

(** Lines 509-534.  The sample handed to a collecting accel calibrator is
    read from the published fields and not kept here. *)
Definition _publish_accel instance (accel : Vector3f) s :=
  if has_been_killed instance s then s
  else
    let s := set_vec _accel instance accel s in
    let s := set_flag _accel_healthy instance true s in
    let s := set_vec _delta_velocity instance
               (vecs s _delta_velocity_acc instance) s in
    let s := set_float _delta_velocity_dt instance
               (floats s _delta_velocity_acc_dt instance) s in
    let s := set_flag _delta_velocity_valid instance true s in
    let s := set_vec _delta_velocity_acc instance vzero s in
    set_float _delta_velocity_acc_dt instance f_0 s.

(** Lines 559-571, as [gyro_sample_dt]. *)
Definition accel_sample_dt e instance (sample_us : Z) s
  : option (State LPF NF * float * Z) :=
  if negb (sample_us =? 0)
     && negb (ints s _accel_last_sample_us instance =? 0) then
    let dt :=
      (of_int (uint64 (sample_us - ints s _accel_last_sample_us instance))
       * f_1em6)%f32 in
    Some (set_int _accel_last_sample_us instance sample_us s, dt,
          sample_us)
  else if (floats s _accel_raw_sample_rates instance <? f_40)%f32 then
    None
  else
    let dt := (f_1 / floats s _accel_raw_sample_rates instance)%f32 in
    let s := set_int _accel_last_sample_us instance
               (micros64_sample e) s in
    Some (s, dt, ints s _accel_last_sample_us instance).

(** Lines 580-604 and 658-682, the block under the semaphore.  The
    peak-hold bookkeeping of the front end only receives the value. *)
Definition integrate_delta_velocity e instance (a : AccelSample) s :=
  let accel := as_accel a in
  let dt := as_dt a in
  let now := micros64_lock e in
  let stale := stale_gap now (as_last_sample_us a) in
  let s :=
    if stale then
      let s := set_vec _delta_velocity_acc instance vzero s in
      set_float _delta_velocity_acc_dt instance f_0 s
    else s in
  let dt := if stale then f_0 else dt in
  let s := set_vec _delta_velocity_acc instance
             (vecs s _delta_velocity_acc instance + accel * dt)%v3 s in
  let s := set_float _delta_velocity_acc_dt instance
             (floats s _delta_velocity_acc_dt instance + dt)%f32 s in
  let '(f, filtered) := apply (filters s _accel_filter instance) accel in
  let s := set_filter _accel_filter instance f s in
  let s := set_vec _accel_filtered instance filtered s in
  let s :=
    if is_nan (vecs s _accel_filtered instance)
       || is_inf (vecs s _accel_filtered instance) then
      set_filter _accel_filter instance
        (reset (filters s _accel_filter instance)) s
    else s in
  set_flag _new_accel_data instance true s.

(** Lines 546-571: the rate estimator and the time step of a raw accel
    sample; [None] is the early return of line 565. *)
Definition accel_raw_sample e instance (accel : Vector3f) (sample_us : Z)
    s : State LPF NF * option AccelSample :=
  let s := update_accel_sensor_rate e instance s in
  let last_sample_us := ints s _accel_last_sample_us instance in
  match accel_sample_dt e instance sample_us s with
  | None => (s, None)
  | Some (s, dt, sample_us) =>
    (s, Some {| as_accel := accel; as_dt := dt;
                as_last_sample_us := last_sample_us |})
  end.

(** Lines 536-617.  The module hook, the vibration and clipping
    statistics and the raw logging receive values and hand nothing
    back. *)
Definition _notify_new_accel_raw_sample e instance (accel : Vector3f)
    (sample_us : Z) (fsync_set : bool) s :=
  if has_been_killed instance s then s
  else
    match accel_raw_sample e instance accel sample_us s with
    | (s, None) => s
    | (s, Some a) => integrate_delta_velocity e instance a s
    end.

(** Lines 633-649: the same for a sample that arrives as a delta
    velocity; [None] is the early return of line 640. *)
Definition delta_velocity_sample e instance (dvel : Vector3f) s
  : State LPF NF * option AccelSample :=
  let s := update_accel_sensor_rate e instance s in
  let last_sample_us := ints s _accel_last_sample_us instance in
  if (floats s _accel_raw_sample_rates instance <? f_40)%f32 then
    (s, None)
  else
    let dt := (f_1 / floats s _accel_raw_sample_rates instance)%f32 in
    let s := set_int _accel_last_sample_us instance
               (micros64_sample e) s in
    let accel := (dvel / dt)%v3 in
    let accel := _rotate_and_correct_accel e instance s accel in
    (s, Some {| as_accel := accel; as_dt := dt;
                as_last_sample_us := last_sample_us |}).

(** Lines 626-694. *)
Definition _notify_new_delta_velocity e instance (dvel : Vector3f) s :=
  if has_been_killed instance s then s
  else
    match delta_velocity_sample e instance dvel s with
    | (s, None) => s
    | (s, Some a) => integrate_delta_velocity e instance a s
    end.

(** Lines 748-757, [uint32_t] counters. *)
Definition _inc_accel_error_count instance s :=
  set_int _accel_error_count instance
    (uint32 (ints s _accel_error_count instance + 1)) s.
Definition _inc_gyro_error_count instance s :=
  set_int _gyro_error_count instance
    (uint32 (ints s _gyro_error_count instance + 1)) s.

(** Lines 762-778.  The heater control only receives the value. *)
Definition _publish_temperature instance (temperature : float) s :=
  if has_been_killed instance s then s
  else set_float _temperature instance temperature s.

(** Lines 821-841. *)
Definition update_gyro_filters e instance s :=
  let gyro_rate := floats s _gyro_raw_sample_rates instance in
  let s :=
    if negb (_last_gyro_filter_hz s =? _gyro_filter_cutoff e)
       || sensors_converging e then
      let cutoff := of_int (_gyro_filter_cutoff e) in
      let s := set_filter _gyro_filter instance
                 (set_cutoff_frequency gyro_rate cutoff
                    (filters s _gyro_filter instance)) s in
      let s := set_filter _post_filter_gyro_filter instance
                 (set_cutoff_frequency gyro_rate cutoff
                    (filters s _post_filter_gyro_filter instance)) s in
      with_last_gyro_filter_hz (_gyro_filter_cutoff e) s
    else s in
  with_harmonic_notches
    (map (fun notch =>
            if params_enabled notch
            then update_params notch instance (sensors_converging e)
                   gyro_rate
            else notch)
         (harmonic_notches s)) s.

(** Lines 783-801. *)
Definition update_gyro e instance s :=
  if has_been_killed instance s then s
  else
    let s :=
      if flags s _new_gyro_data instance then
        let s := _publish_gyro instance
                   (vecs s _gyro_filtered instance) s in
        let s := set_vec _gyro_for_fft instance
                   (vecs s _last_gyro_for_fft instance) s in
        set_flag _new_gyro_data instance false s
      else s in
    update_gyro_filters e instance s.

(** Lines 864-871. *)
Definition update_accel_filters e instance s :=
  if negb (_last_accel_filter_hz s =? _accel_filter_cutoff e) then
    let s := set_filter _accel_filter instance
               (set_cutoff_frequency
                  (floats s _accel_raw_sample_rates instance)
                  (of_int (_accel_filter_cutoff e))
                  (filters s _accel_filter instance)) s in
    with_last_accel_filter_hz (_accel_filter_cutoff e) s
  else s.

(** Lines 846-859. *)
Definition update_accel e instance s :=
  if has_been_killed instance s then s
  else
    let s :=
      if flags s _new_accel_data instance then
        let s := _publish_accel instance
                   (vecs s _accel_filtered instance) s in
        set_flag _new_accel_data instance false s
      else s in
    update_accel_filters e instance s.

(** [_notify_new_accel_sensor_rate_sample],
    [_notify_new_gyro_sensor_rate_sample], [log_gyro_raw], [log_accel_raw],
    [should_log_imu_raw] and [log_register_change] (lines 462-504,
    697-745 and 873-909) only hand values to the logger and to the batch
    sampler; they read the arrays above and write none of them.  The
    records they hand over are modelled in the section on raw logging below. *)

(** ** Calls and runs

    One call of the backend, with what it reads from outside; a run is a
    sequence of calls, the first call first. *)
Inductive Call : Type :=
| Notify_accel_fifo_reset (instance : Z)
| Notify_gyro_fifo_reset (instance : Z)
| Set_accel_oversampling (instance n : Z)
| Set_gyro_oversampling (instance n : Z)
| Publish_gyro (instance : Z) (gyro : Vector3f)
| Publish_accel (instance : Z) (accel : Vector3f)
| Publish_temperature (instance : Z) (temperature : float)
| Notify_new_gyro_raw_sample (e : Env Rotation) (instance : Z)
    (gyro : Vector3f) (sample_us : Z)
| Notify_new_delta_angle (e : Env Rotation) (instance : Z)
    (dangle : Vector3f)
| Notify_new_accel_raw_sample (e : Env Rotation) (instance : Z)
    (accel : Vector3f) (sample_us : Z) (fsync_set : bool)
| Notify_new_delta_velocity (e : Env Rotation) (instance : Z)
    (dvel : Vector3f)
| Inc_accel_error_count (instance : Z)
| Inc_gyro_error_count (instance : Z)
| Update_gyro (e : Env Rotation) (instance : Z)
| Update_accel (e : Env Rotation) (instance : Z)
| Update_primary (e : Env Rotation).

Definition step (c : Call) s : State LPF NF :=
  match c with
  | Notify_accel_fifo_reset i => notify_accel_fifo_reset i s
  | Notify_gyro_fifo_reset i => notify_gyro_fifo_reset i s
  | Set_accel_oversampling i n => _set_accel_oversampling i n s
  | Set_gyro_oversampling i n => _set_gyro_oversampling i n s
  | Publish_gyro i gyro => _publish_gyro i gyro s
  | Publish_accel i accel => _publish_accel i accel s
  | Publish_temperature i t => _publish_temperature i t s
  | Notify_new_gyro_raw_sample e i gyro sample_us =>
      _notify_new_gyro_raw_sample e i gyro sample_us s
  | Notify_new_delta_angle e i dangle => _notify_new_delta_angle e i dangle s
  | Notify_new_accel_raw_sample e i accel sample_us fsync_set =>
      _notify_new_accel_raw_sample e i accel sample_us fsync_set s
  | Notify_new_delta_velocity e i dvel =>
      _notify_new_delta_velocity e i dvel s
  | Inc_accel_error_count i => _inc_accel_error_count i s
  | Inc_gyro_error_count i => _inc_gyro_error_count i s
  | Update_gyro e i => update_gyro e i s
  | Update_accel e i => update_accel e i s
  | Update_primary e => update_primary e s
  end.

Definition run (calls : list Call) s : State LPF NF :=
  fold_left (fun s c => step c s) calls s.

(** ** Footprints

    What a call may write: arrays at the call's own instance, the notch
    filters, the primary heartbeat of the backend object and its cached
    cutoff frequencies.  The kill flags and [gyro_instance] are outside
    every footprint. *)
Record Footprint : Type := {
  w_vecs : list vfield;
  w_floats : list ffield;
  w_flags : list bfield;
  w_ints : list ifield;
  w_filters : list lfield;
  w_notches : bool;
  w_primary : bool;
  w_cutoff : bool
}.

Definition writes_only (W : Footprint) instance s s' : Prop :=
  (forall f j, ~ (In f (w_vecs W) /\ j = instance) ->
     vecs s' f j = vecs s f j)
  /\ (forall f j, ~ (In f (w_floats W) /\ j = instance) ->
     floats s' f j = floats s f j)
  /\ (forall f j, ~ (In f (w_flags W) /\ j = instance) ->
     flags s' f j = flags s f j)
  /\ (forall f j, ~ (In f (w_ints W) /\ j = instance) ->
     ints s' f j = ints s f j)
  /\ (forall f j, ~ (In f (w_filters W) /\ j = instance) ->
     filters s' f j = filters s f j)
  /\ (w_notches W = false -> harmonic_notches s' = harmonic_notches s)
  /\ (w_primary W = false ->
      is_primary s' = is_primary s
      /\ last_primary_update_us s' = last_primary_update_us s
      /\ set_primary_calls s' = set_primary_calls s)
  /\ (w_cutoff W = false ->
      _last_gyro_filter_hz s' = _last_gyro_filter_hz s
      /\ _last_accel_filter_hz s' = _last_accel_filter_hz s)
  /\ killed s' = killed s
  /\ gyro_instance s' = gyro_instance s.

Definition fp_incl (W W' : Footprint) : Prop :=
  incl (w_vecs W) (w_vecs W') /\ incl (w_floats W) (w_floats W')
  /\ incl (w_flags W) (w_flags W') /\ incl (w_ints W) (w_ints W')
  /\ incl (w_filters W) (w_filters W')
  /\ (w_notches W = true -> w_notches W' = true)
  /\ (w_primary W = true -> w_primary W' = true)
  /\ (w_cutoff W = true -> w_cutoff W' = true).

Definition fp (vs : list vfield) (fs : list ffield) (bs : list bfield)
    (ns : list ifield) (ls : list lfield) : Footprint :=
  {| w_vecs := vs; w_floats := fs; w_flags := bs; w_ints := ns;
     w_filters := ls; w_notches := false; w_primary := false;
     w_cutoff := false |}.

Definition fp_accel_fifo_reset : Footprint :=
  fp [] [] [] [_sample_accel_count; _sample_accel_start_us] [].
Definition fp_gyro_fifo_reset : Footprint :=
  fp [] [] [] [_sample_gyro_count; _sample_gyro_start_us] [].
Definition fp_accel_rate : Footprint :=
  fp [] [_accel_raw_sample_rates] []
     [_sample_accel_count; _sample_accel_start_us] [].
Definition fp_gyro_rate : Footprint :=
  fp [] [_gyro_raw_sample_rates] []
     [_sample_gyro_count; _sample_gyro_start_us] [].
Definition fp_publish_gyro : Footprint :=
  fp [_gyro; _delta_angle; _delta_angle_acc]
     [_delta_angle_dt; _delta_angle_acc_dt]
     [_gyro_healthy; _delta_angle_valid] [] [].
Definition fp_publish_accel : Footprint :=
  fp [_accel; _delta_velocity; _delta_velocity_acc]
     [_delta_velocity_dt; _delta_velocity_acc_dt]
     [_accel_healthy; _delta_velocity_valid] [] [].
Definition fp_save_gyro_window : Footprint :=
  fp [_last_gyro_for_fft] [] [] [] [_post_filter_gyro_filter].
Definition fp_gyro_filters : Footprint :=
  {| w_vecs := [_last_gyro_for_fft; _gyro_filtered]; w_floats := [];
     w_flags := []; w_ints := [];
     w_filters := [_gyro_filter; _post_filter_gyro_filter];
     w_notches := true; w_primary := false; w_cutoff := false |}.
Definition fp_primary : Footprint :=
  {| w_vecs := []; w_floats := []; w_flags := []; w_ints := [];
     w_filters := []; w_notches := false; w_primary := true;
     w_cutoff := false |}.
Definition fp_gyro_sample : Footprint :=
  {| w_vecs := [_delta_angle_acc; _last_delta_angle; _last_raw_gyro;
                _last_gyro_for_fft; _gyro_filtered];
     w_floats := [_gyro_raw_sample_rates; _delta_angle_acc_dt];
     w_flags := [_new_gyro_data];
     w_ints := [_sample_gyro_count; _sample_gyro_start_us;
                _gyro_last_sample_us];
     w_filters := [_gyro_filter; _post_filter_gyro_filter];
     w_notches := true; w_primary := true; w_cutoff := false |}.
Definition fp_accel_sample : Footprint :=
  fp [_delta_velocity_acc; _accel_filtered]
     [_accel_raw_sample_rates; _delta_velocity_acc_dt]
     [_new_accel_data]
     [_sample_accel_count; _sample_accel_start_us; _accel_last_sample_us]
     [_accel_filter].
Definition fp_gyro_prepare : Footprint :=
  fp [] [_gyro_raw_sample_rates] []
     [_sample_gyro_count; _sample_gyro_start_us; _gyro_last_sample_us] [].
Definition fp_accel_prepare : Footprint :=
  fp [] [_accel_raw_sample_rates] []
     [_sample_accel_count; _sample_accel_start_us; _accel_last_sample_us]
     [].
Definition fp_gyro_retune : Footprint :=
  {| w_vecs := []; w_floats := []; w_flags := []; w_ints := [];
     w_filters := [_gyro_filter; _post_filter_gyro_filter];
     w_notches := true; w_primary := false; w_cutoff := true |}.
Definition fp_accel_retune : Footprint :=
  {| w_vecs := []; w_floats := []; w_flags := []; w_ints := [];
     w_filters := [_accel_filter];
     w_notches := false; w_primary := false; w_cutoff := true |}.
Definition fp_gyro_filter_chain : Footprint :=
  {| w_vecs := [_last_gyro_for_fft]; w_floats := [];
     w_flags := []; w_ints := [];
     w_filters := [_gyro_filter; _post_filter_gyro_filter];
     w_notches := true; w_primary := false; w_cutoff := false |}.
Definition fp_update_gyro : Footprint :=
  {| w_vecs := [_gyro; _delta_angle; _delta_angle_acc; _gyro_for_fft];
     w_floats := [_delta_angle_dt; _delta_angle_acc_dt];
     w_flags := [_gyro_healthy; _delta_angle_valid; _new_gyro_data];
     w_ints := [];
     w_filters := [_gyro_filter; _post_filter_gyro_filter];
     w_notches := true; w_primary := false; w_cutoff := true |}.
Definition fp_update_accel : Footprint :=
  {| w_vecs := [_accel; _delta_velocity; _delta_velocity_acc];
     w_floats := [_delta_velocity_dt; _delta_velocity_acc_dt];
     w_flags := [_accel_healthy; _delta_velocity_valid; _new_accel_data];
     w_ints := [];
     w_filters := [_accel_filter];
     w_notches := false; w_primary := false; w_cutoff := true |}.

(** The footprint of each call, and the instance it is made for. *)
Definition footprint (c : Call) : Footprint :=
  match c with
  | Notify_accel_fifo_reset _ => fp_accel_fifo_reset
  | Notify_gyro_fifo_reset _ => fp_gyro_fifo_reset
  | Set_accel_oversampling _ _ => fp [] [] [] [_accel_over_sampling] []
  | Set_gyro_oversampling _ _ => fp [] [] [] [_gyro_over_sampling] []
  | Publish_gyro _ _ => fp_publish_gyro
  | Publish_accel _ _ => fp_publish_accel
  | Publish_temperature _ _ => fp [] [_temperature] [] [] []
  | Notify_new_gyro_raw_sample _ _ _ _ => fp_gyro_sample
  | Notify_new_delta_angle _ _ _ => fp_gyro_sample
  | Notify_new_accel_raw_sample _ _ _ _ _ => fp_accel_sample
  | Notify_new_delta_velocity _ _ _ => fp_accel_sample
  | Inc_accel_error_count _ => fp [] [] [] [_accel_error_count] []
  | Inc_gyro_error_count _ => fp [] [] [] [_gyro_error_count] []
  | Update_gyro _ _ => fp_update_gyro
  | Update_accel _ _ => fp_update_accel
  | Update_primary _ => fp_primary
  end.

Definition call_instance (c : Call) : Z :=
  match c with
  | Notify_accel_fifo_reset i | Notify_gyro_fifo_reset i
  | Set_accel_oversampling i _ | Set_gyro_oversampling i _
  | Publish_gyro i _ | Publish_accel i _ | Publish_temperature i _
  | Notify_new_gyro_raw_sample _ i _ _ | Notify_new_delta_angle _ i _
  | Notify_new_accel_raw_sample _ i _ _ _
  | Notify_new_delta_velocity _ i _
  | Inc_accel_error_count i | Inc_gyro_error_count i
  | Update_gyro _ i | Update_accel _ i => i
  | Update_primary _ => 0
  end.

(** ** What a call folds into an accumulator

    [Keep]: the accumulator and its [dt] are left alone.  [Drain]: both
    are zeroed (publish).  [Fold restart increment dt]: [increment] is
    added to the value and [dt] to the time, after both have been zeroed
    when [restart] holds (the 100 ms staleness reset). *)
Inductive Folding : Type :=
| Keep
| Drain
| Fold (restart : bool) (increment : Vector3f) (dt : float).

(** Accumulator [acc] and accumulated time [t] become [acc'] and [t']
    as folding [f] says. *)
Definition folds_as (f : Folding) (acc : Vector3f) (t : float)
    (acc' : Vector3f) (t' : float) : Prop :=
  match f with
  | Keep => acc' = acc /\ t' = t
  | Drain => acc' = vzero /\ t' = f_0
  | Fold restart increment dt =>
      acc' = ((if restart then vzero else acc) + increment)%v3
      /\ t' = ((if restart then f_0 else t) + dt)%f32
  end.

Definition gyro_folded e (g : GyroSample) : Folding :=
  let stale := stale_gap (micros64_lock e) (gs_last_sample_us g) in
  Fold stale
    ((if stale then vzero else gs_delta_angle g) + gs_delta_coning g)%v3
    (if stale then f_0 else gs_dt g).

Definition accel_folded e (a : AccelSample) : Folding :=
  let stale := stale_gap (micros64_lock e) (as_last_sample_us a) in
  let dt := if stale then f_0 else as_dt a in
  Fold stale (as_accel a * dt)%v3 dt.

Definition of_sample {A} (fold : A -> Folding) (a : option A) : Folding :=
  match a with Some a => fold a | None => Keep end.

(** What call [c], made in state [s], folds into the delta-angle
    accumulator of instance [i]. *)
Definition delta_angle_folding (c : Call) (i : Z) s : Folding :=
  match c with
  | Publish_gyro j _ =>
      if (j =? i) && negb (has_been_killed j s) then Drain else Keep
  | Update_gyro _ j =>
      if (j =? i) && negb (has_been_killed j s)
         && flags s _new_gyro_data j then Drain else Keep
  | Notify_new_gyro_raw_sample e j gyro sample_us =>
      if (j =? i) && negb (has_been_killed j s)
      then of_sample (gyro_folded e)
             (snd (gyro_raw_sample e j gyro sample_us s))
      else Keep
  | Notify_new_delta_angle e j dangle =>
      if (j =? i) && negb (has_been_killed j s)
      then of_sample (gyro_folded e) (snd (delta_angle_sample e j dangle s))
      else Keep
  | _ => Keep
  end.

(** The same for the delta-velocity accumulator. *)
Definition delta_velocity_folding (c : Call) (i : Z) s : Folding :=
  match c with
  | Publish_accel j _ =>
      if (j =? i) && negb (has_been_killed j s) then Drain else Keep
  | Update_accel _ j =>
      if (j =? i) && negb (has_been_killed j s)
         && flags s _new_accel_data j then Drain else Keep
  | Notify_new_accel_raw_sample e j accel sample_us _ =>
      if (j =? i) && negb (has_been_killed j s)
      then of_sample (accel_folded e)
             (snd (accel_raw_sample e j accel sample_us s))
      else Keep
  | Notify_new_delta_velocity e j dvel =>
      if (j =? i) && negb (has_been_killed j s)
      then of_sample (accel_folded e)
             (snd (delta_velocity_sample e j dvel s))
      else Keep
  | _ => Keep
  end.

(** The contributions [(increment, dt)] folded since the last drain, the
    oldest first. *)
Definition Contributions : Type := list (Vector3f * float).

Definition record (f : Folding) (h : Contributions) : Contributions :=
  match f with
  | Keep => h
  | Drain => []
  | Fold true increment dt => [(increment, dt)]
  | Fold false increment dt => h ++ [(increment, dt)]
  end.

Fixpoint contributions (folding : Call -> Z -> State LPF NF -> Folding)
    (calls : list Call) (i : Z) s (h : Contributions) : Contributions :=
  match calls with
  | [] => h
  | c :: calls =>
      contributions folding calls i (step c s) (record (folding c i s) h)
  end.

(** The sums as the code forms them: from zero, in the order of arrival,
    in binary32. *)
Definition sum_value (h : Contributions) : Vector3f :=
  fold_left (fun acc p => (acc + fst p)%v3) h vzero.
Definition sum_dt (h : Contributions) : float :=
  fold_left (fun acc p => (acc + snd p)%f32) h f_0.

(** ** Conditions the properties speak of *)

(** The primary heartbeat is due: the computed primary differs from the
    stored one, or more than 200 ms have passed since the stored time. *)
Definition primary_update_due e s : Prop :=
  is_primary s <> (gyro_instance s =? _primary e)
  \/ 200000 < uint32 (micros_primary e - last_primary_update_us s).

(** The calls that begin with the [has_been_killed] guard, made for
    instance [i]. *)
Definition guarded_on (i : Z) (c : Call) : bool :=
  match c with
  | Publish_gyro j _ | Publish_accel j _ | Publish_temperature j _
  | Notify_new_gyro_raw_sample _ j _ _ | Notify_new_delta_angle _ j _
  | Notify_new_accel_raw_sample _ j _ _ _
  | Notify_new_delta_velocity _ j _
  | Update_gyro _ j | Update_accel _ j => j =? i
  | _ => false
  end.

(** A direct [_publish_gyro] or [_publish_accel] hands over a finite
    value; the calls made by [update_gyro] and [update_accel] hand over
    the stored filtered value. *)
Definition publishes_finite (c : Call) : bool :=
  match c with
  | Publish_gyro _ gyro => vfinite gyro
  | Publish_accel _ accel => vfinite accel
  | _ => true
  end.

(** ** Raw logging

    The build is the one with logging, the AHRS and the batch sampler
    ([HAL_LOGGING_ENABLED], [AP_AHRS_ENABLED],
    [AP_INERTIALSENSOR_BATCHSAMPLER_ENABLED]).  Each function returns the
    records it hands over, in the order of the calls.

    Lines 874-888. *)
Definition should_log_imu_raw (le : LogEnv) : bool :=
  if _log_raw_bit le =? 2 ^ 32 - 1 then false
  else if negb (logger_present le) then false
  else if negb (should_log le (_log_raw_bit le)) then false
  else true.

(** Lines 462-504.  The instance of the second record of the
    pre-and-post case is the sum as the source writes it, before the
    conversion to the parameter type of [Write_GYR]. *)
Definition log_gyro_raw (le : LogEnv) e instance (sample_us : Z)
    (raw_gyro filtered_gyro : Vector3f) : list LogEvent :=
  if negb (logger_present le) then []
  else
    let log_because_primary_gyro :=
      raw_logging_option_set le PRIMARY_GYRO_ONLY
      && (instance =? _primary e) in
    if raw_logging_option_set le ALL_GYROS
       || log_because_primary_gyro
       || should_log_imu_raw le then
      if raw_logging_option_set le PRE_AND_POST_FILTER then
        [Write_GYR instance sample_us raw_gyro;
         Write_GYR (instance + _gyro_count le) sample_us filtered_gyro]
      else if raw_logging_option_set le POST_FILTER then
        [Write_GYR instance sample_us filtered_gyro]
      else
        [Write_GYR instance sample_us raw_gyro]
    else if negb (doing_sensor_rate_logging le) then
      [Batch_sample instance IMU_SENSOR_TYPE_GYRO sample_us
         (if negb (doing_post_filter_logging le)
          then raw_gyro else filtered_gyro)]
    else [].

(** Lines 727-745. *)
Definition log_accel_raw (le : LogEnv) instance (sample_us : Z)
    (accel : Vector3f) : list LogEvent :=
  if negb (logger_present le) then []
  else if should_log_imu_raw le then
    [Write_ACC instance sample_us accel]
  else if negb (doing_sensor_rate_logging le) then
    [Batch_sample instance IMU_SENSOR_TYPE_ACCEL sample_us accel]
  else [].

(** Lines 697-710. *)
Definition _notify_new_accel_sensor_rate_sample (le : LogEnv) e instance
    (_accel : Vector3f) : list LogEvent :=
  if negb (doing_sensor_rate_logging le) then []
  else
    let accel := rotate (_accel_orientation e instance) _accel in
    [Batch_sample instance IMU_SENSOR_TYPE_ACCEL (micros64_batch le) accel].

(** Lines 712-725. *)
Definition _notify_new_gyro_sensor_rate_sample (le : LogEnv) e instance
    (_gyro : Vector3f) : list LogEvent :=
  if negb (doing_sensor_rate_logging le) then []
  else
    let gyro := rotate (_gyro_orientation e instance) _gyro in
    [Batch_sample instance IMU_SENSOR_TYPE_GYRO (micros64_batch le) gyro].

(** Lines 369-370 and 458: what [_notify_new_gyro_raw_sample] and
    [_notify_new_delta_angle] log.  The time stamp they pass is the one
    they have just stored as the last-sample time. *)
Definition gyro_sample_log (le : LogEnv) e instance
    (prepared : State LPF NF * option GyroSample) s : list LogEvent :=
  if has_been_killed instance s then []
  else
    match prepared with
    | (_, None) => []
    | (s1, Some g) =>
      let s2 := integrate_delta_angle e instance g s1 in
      log_gyro_raw le e instance (ints s1 _gyro_last_sample_us instance)
        (gs_gyro g) (vecs s2 _gyro_filtered instance)
    end.

(** Lines 606-616 and 684-693: what [_notify_new_accel_raw_sample] and
    [_notify_new_delta_velocity] log. *)
Definition accel_sample_log (le : LogEnv) e instance
    (prepared : State LPF NF * option AccelSample) s : list LogEvent :=
  if has_been_killed instance s then []
  else
    match prepared with
    | (_, None) => []
    | (s1, Some a) =>
      let s2 := integrate_delta_velocity e instance a s1 in
      let sample_us := ints s1 _accel_last_sample_us instance in
      if negb (doing_post_filter_logging le) then
        log_accel_raw le instance sample_us (as_accel a)
      else
        log_accel_raw le instance sample_us
          (vecs s2 _accel_filtered instance)
    end.

(** The time stamp of a record. *)
Definition event_time (ev : LogEvent) : Z :=
  match ev with
  | Write_GYR _ sample_us _ | Write_ACC _ sample_us _
  | Batch_sample _ _ sample_us _ => sample_us
  end.

(** A record for the logger, as opposed to one for the batch sampler. *)
Definition is_logger_write (ev : LogEvent) : bool :=
  match ev with
  | Write_GYR _ _ _ | Write_ACC _ _ _ => true
  | Batch_sample _ _ _ _ => false
  end.

(** A record for the batch sampler. *)
Definition is_batch_sample (ev : LogEvent) : bool :=
  negb (is_logger_write ev).

(** ** Which sensor and which instance a call is for *)

Definition vfield_sensor (f : vfield) : Sensor :=
  match f with
  | _gyro | _gyro_filtered | _delta_angle | _delta_angle_acc
  | _last_delta_angle | _last_raw_gyro | _last_gyro_for_fft
  | _gyro_for_fft => Gyro
  | _accel | _accel_filtered | _delta_velocity | _delta_velocity_acc => Accel
  end.

Definition ffield_sensor (f : ffield) : option Sensor :=
  match f with
  | _gyro_raw_sample_rates | _delta_angle_acc_dt | _delta_angle_dt =>
      Some Gyro
  | _accel_raw_sample_rates | _delta_velocity_acc_dt | _delta_velocity_dt =>
      Some Accel
  | _temperature => None
  end.

Definition bfield_sensor (f : bfield) : Sensor :=
  match f with
  | _gyro_healthy | _delta_angle_valid | _new_gyro_data => Gyro
  | _accel_healthy | _delta_velocity_valid | _new_accel_data => Accel
  end.

Definition ifield_sensor (f : ifield) : Sensor :=
  match f with
  | _sample_gyro_count | _sample_gyro_start_us | _gyro_last_sample_us
  | _gyro_over_sampling | _gyro_error_count => Gyro
  | _sample_accel_count | _sample_accel_start_us | _accel_last_sample_us
  | _accel_over_sampling | _accel_error_count => Accel
  end.

Definition lfield_sensor (f : lfield) : Sensor :=
  match f with
  | _gyro_filter | _post_filter_gyro_filter => Gyro
  | _accel_filter => Accel
  end.

(** The sensor a call belongs to; the temperature and the heartbeat belong
    to neither. *)
Definition call_sensor (c : Call) : option Sensor :=
  match c with
  | Notify_gyro_fifo_reset _ | Set_gyro_oversampling _ _ | Publish_gyro _ _
  | Notify_new_gyro_raw_sample _ _ _ _ | Notify_new_delta_angle _ _ _
  | Inc_gyro_error_count _ | Update_gyro _ _ => Some Gyro
  | Notify_accel_fifo_reset _ | Set_accel_oversampling _ _
  | Publish_accel _ _ | Notify_new_accel_raw_sample _ _ _ _ _
  | Notify_new_delta_velocity _ _ _ | Inc_accel_error_count _
  | Update_accel _ _ => Some Accel
  | Publish_temperature _ _ | Update_primary _ => None
  end.

(** The instance a call is made for; [update_primary] takes none. *)
Definition call_target (c : Call) : option Z :=
  match c with
  | Update_primary _ => None
  | _ => Some (call_instance c)
  end.

Definition targets (i : Z) (c : Call) : bool :=
  match call_target c with
  | Some j => j =? i
  | None => false
  end.

Definition call_for (sensor : Sensor) (c : Call) : bool :=
  match call_sensor c, sensor with
  | Some Gyro, Gyro | Some Accel, Accel => true
  | _, _ => false
  end.

(** The call is behind the kill guard of instance [i], or is not for
    instance [i] at all. *)
Definition spares (i : Z) (c : Call) : bool :=
  guarded_on i c || negb (targets i c).

(** How often a run reports an error of instance [i]. *)
Fixpoint gyro_errors_reported (i : Z) (calls : list Call) : Z :=
  match calls with
  | [] => 0
  | Inc_gyro_error_count j :: calls =>
      (if j =? i then 1 else 0) + gyro_errors_reported i calls
  | _ :: calls => gyro_errors_reported i calls
  end.

Fixpoint accel_errors_reported (i : Z) (calls : list Call) : Z :=
  match calls with
  | [] => 0
  | Inc_accel_error_count j :: calls =>
      (if j =? i then 1 else 0) + accel_errors_reported i calls
  | _ :: calls => accel_errors_reported i calls
  end.

(** The call, made in state [s], reaches [update_primary]: it is
    [update_primary] itself, or a gyro sample that passes the kill guard
    and is not dropped, so that it gets to line 371 or 459. *)
Definition reaches_update_primary (c : Call) s : bool :=
  match c with
  | Update_primary _ => true
  | Notify_new_gyro_raw_sample e i gyro sample_us =>
      negb (has_been_killed i s)
      && match snd (gyro_raw_sample e i gyro sample_us s) with
         | Some _ => true
         | None => false
         end
  | Notify_new_delta_angle e i dangle =>
      negb (has_been_killed i s)
      && match snd (delta_angle_sample e i dangle s) with
         | Some _ => true
         | None => false
         end
  | _ => false
  end.

(** How many calls of a run from state [s] reach [update_primary]. *)
Fixpoint heartbeat_calls (calls : list Call) s : nat :=
  match calls with
  | [] => 0
  | c :: calls =>
      (if reaches_update_primary c s then 1 else 0)
      + heartbeat_calls calls (step c s)
  end.

(** ** Invariants *)

(** The rate window of instance [i]: the sample counts are 16-bit values,
    and a window that has not been started has counted nothing. *)
Definition rate_window_ok s (i : Z) : Prop :=
  (0 <= ints s _sample_gyro_count i < 2 ^ 16
   /\ (ints s _sample_gyro_start_us i = 0 ->
       ints s _sample_gyro_count i = 0))
  /\ (0 <= ints s _sample_accel_count i < 2 ^ 16
      /\ (ints s _sample_accel_start_us i = 0 ->
          ints s _sample_accel_count i = 0)).

(** The stored primary state is the one last handed to [set_primary]. *)
Definition primary_ok s : Prop :=
  match set_primary_calls s with
  | [] => True
  | p :: _ => is_primary s = p
  end.

(** Notch [n'] is notch [n] except for its filter of instance [i]. *)
Definition notch_kept_except (i : Z) (n n' : HarmonicNotch NF) : Prop :=
  params_enabled n' = params_enabled n
  /\ params_EnableOnAllIMUs n' = params_EnableOnAllIMUs n
  /\ is_inactive n' = is_inactive n
  /\ forall j, j <> i -> notch_filter n' j = notch_filter n j.

(** Notch [n'] has the parameters of notch [n] and its filter of instance
    [i]. *)
Definition notch_kept_at (i : Z) (n n' : HarmonicNotch NF) : Prop :=
  params_enabled n' = params_enabled n
  /\ params_EnableOnAllIMUs n' = params_EnableOnAllIMUs n
  /\ is_inactive n' = is_inactive n
  /\ notch_filter n' i = notch_filter n i.

(** The one call that hands the notches to [update_params]. *)
Definition retunes_notches (c : Call) : bool :=
  match c with
  | Update_gyro _ _ => true
  | _ => false
  end.

(** Lines 228-242 for a notch that does not run on instance [i]: a disabled
    notch is skipped, an enabled one has its filter of [i] reset. *)
Definition bypassed instance (notch : HarmonicNotch NF) : HarmonicNotch NF :=
  if params_enabled notch then reset_notch instance notch else notch.

(** Lines 222-250: what the notch loop hands to the low-pass filter for a
    gyro sample, and what the low-pass filter answers: its new state and
    its output. *)
Definition gyro_notch_output e instance (gyro : Vector3f) s : Vector3f :=
  snd (fst (fst (apply_harmonic_notches e instance (harmonic_notches s)
                   gyro (uint8 (0 + 1))
                   (save_gyro_window e instance gyro 0 s)))).

Definition gyro_low_pass e instance (gyro : Vector3f) s : LPF * Vector3f :=
  apply (filters s _gyro_filter instance)
    (gyro_notch_output e instance gyro s).

(** ** Reading the store after a write *)

Ltac store :=
  cbn; unfold insert, fn_insert;
  repeat (case_decide; try congruence); try reflexivity.

Ltac frame_setters :=
  unfold writes_only;
  cbn [w_vecs w_floats w_flags w_ints w_filters w_notches w_primary
       w_cutoff fp];
  repeat split; try discriminate; intros;
  store; subst; exfalso; cbn in *; intuition congruence.

Ltac fp_incl_tac :=
  unfold fp_incl, incl; cbn; repeat split; intros; intuition congruence.

Lemma writes_only_refl W instance s : writes_only W instance s s.
Proof. unfold writes_only. repeat split; intros; reflexivity. Qed.

Lemma writes_only_trans W instance s s' s'' :
  writes_only W instance s s' -> writes_only W instance s' s'' ->
  writes_only W instance s s''.
Proof.
  unfold writes_only.
  intros (V1 & F1 & B1 & I1 & L1 & N1 & P1 & U1 & K1 & G1)
         (V2 & F2 & B2 & I2 & L2 & N2 & P2 & U2 & K2 & G2).
  split; [intros; rewrite V2, V1 by assumption; reflexivity|].
  split; [intros; rewrite F2, F1 by assumption; reflexivity|].
  split; [intros; rewrite B2, B1 by assumption; reflexivity|].
  split; [intros; rewrite I2, I1 by assumption; reflexivity|].
  split; [intros; rewrite L2, L1 by assumption; reflexivity|].
  split; [intros; rewrite N2, N1 by assumption; reflexivity|].
  split; [intros Hp; specialize (P1 Hp); specialize (P2 Hp);
          intuition congruence|].
  split; [intros Hc; specialize (U1 Hc); specialize (U2 Hc);
          intuition congruence|].
  split; congruence.
Qed.

Lemma writes_only_mono W W' instance s s' :
  fp_incl W W' -> writes_only W instance s s' ->
  writes_only W' instance s s'.
Proof.
  unfold writes_only, fp_incl, incl.
  intros (IV & IF & IB & II & IL & IN & IP & IC)
         (V & F & B & I & L & N & P & U & K & G).
  split; [intros f j Hn; apply V; intros [Hin Hj]; apply Hn; auto|].
  split; [intros f j Hn; apply F; intros [Hin Hj]; apply Hn; auto|].
  split; [intros f j Hn; apply B; intros [Hin Hj]; apply Hn; auto|].
  split; [intros f j Hn; apply I; intros [Hin Hj]; apply Hn; auto|].
  split; [intros f j Hn; apply L; intros [Hin Hj]; apply Hn; auto|].
  split; [intros Hn; apply N; destruct (w_notches W); auto;
          rewrite IN in Hn by reflexivity; discriminate|].
  split; [intros Hp; apply P; destruct (w_primary W); auto;
          rewrite IP in Hp by reflexivity; discriminate|].
  split; [intros Hc; apply U; destruct (w_cutoff W); auto;
          rewrite IC in Hc by reflexivity; discriminate|].
  split; assumption.
Qed.

(** Two steps inside one footprint. *)
Lemma writes_only_seq W1 W2 W instance s s' s'' :
  fp_incl W1 W -> fp_incl W2 W ->
  writes_only W1 instance s s' -> writes_only W2 instance s' s'' ->
  writes_only W instance s s''.
Proof.
  intros I1 I2 H1 H2.
  eapply writes_only_trans;
    [apply (writes_only_mono W1) | apply (writes_only_mono W2)];
    eassumption.
Qed.

Lemma set_vec_writes W f i v s :
  In f (w_vecs W) -> writes_only W i s (set_vec f i v s).
Proof.
  intros Hf. unfold writes_only. repeat split; intros; store.
  subst. tauto.
Qed.

Lemma set_float_writes W f i v s :
  In f (w_floats W) -> writes_only W i s (set_float f i v s).
Proof.
  intros Hf. unfold writes_only. repeat split; intros; store.
  subst. tauto.
Qed.

Lemma set_flag_writes W f i v s :
  In f (w_flags W) -> writes_only W i s (set_flag f i v s).
Proof.
  intros Hf. unfold writes_only. repeat split; intros; store.
  subst. tauto.
Qed.

Lemma set_int_writes W f i v s :
  In f (w_ints W) -> writes_only W i s (set_int f i v s).
Proof.
  intros Hf. unfold writes_only. repeat split; intros; store.
  subst. tauto.
Qed.

Lemma set_filter_writes W f i v s :
  In f (w_filters W) -> writes_only W i s (set_filter f i v s).
Proof.
  intros Hf. unfold writes_only. repeat split; intros; store.
  subst. tauto.
Qed.

Lemma with_harmonic_notches_writes W i v s :
  w_notches W = true -> writes_only W i s (with_harmonic_notches v s).
Proof.
  intros Hf. unfold writes_only. repeat split; intros; try congruence.
Qed.

Lemma with_last_gyro_filter_hz_writes W i v s :
  w_cutoff W = true -> writes_only W i s (with_last_gyro_filter_hz v s).
Proof.
  intros Hf. unfold writes_only. repeat split; intros; try congruence.
Qed.

Lemma with_last_accel_filter_hz_writes W i v s :
  w_cutoff W = true -> writes_only W i s (with_last_accel_filter_hz v s).
Proof.
  intros Hf. unfold writes_only. repeat split; intros; try congruence.
Qed.

(** ** The footprint of every function *)

Lemma notify_accel_fifo_reset_writes i s :
  writes_only fp_accel_fifo_reset i s (notify_accel_fifo_reset i s).
Proof. unfold notify_accel_fifo_reset. frame_setters. Qed.

Lemma notify_gyro_fifo_reset_writes i s :
  writes_only fp_gyro_fifo_reset i s (notify_gyro_fifo_reset i s).
Proof. unfold notify_gyro_fifo_reset. frame_setters. Qed.

Lemma update_gyro_sensor_rate_writes e i s :
  writes_only fp_gyro_rate i s (update_gyro_sensor_rate e i s).
Proof.
  unfold update_gyro_sensor_rate.
  destruct (_update_sensor_rate _ _ _ _) as [[c st] r]. frame_setters.
Qed.

Lemma update_accel_sensor_rate_writes e i s :
  writes_only fp_accel_rate i s (update_accel_sensor_rate e i s).
Proof.
  unfold update_accel_sensor_rate.
  destruct (_update_sensor_rate _ _ _ _) as [[c st] r]. frame_setters.
Qed.

Lemma _publish_gyro_writes i gyro s :
  writes_only fp_publish_gyro i s (_publish_gyro i gyro s).
Proof.
  unfold _publish_gyro. destruct (has_been_killed i s).
  - apply writes_only_refl.
  - frame_setters.
Qed.

Lemma _publish_accel_writes i accel s :
  writes_only fp_publish_accel i s (_publish_accel i accel s).
Proof.
  unfold _publish_accel. destruct (has_been_killed i s).
  - apply writes_only_refl.
  - frame_setters.
Qed.

Lemma _publish_temperature_writes i t s :
  writes_only (fp [] [_temperature] [] [] []) i s
    (_publish_temperature i t s).
Proof.
  unfold _publish_temperature. destruct (has_been_killed i s).
  - apply writes_only_refl.
  - frame_setters.
Qed.

Lemma save_gyro_window_writes e i gyro phase s :
  writes_only fp_save_gyro_window i s (save_gyro_window e i gyro phase s).
Proof.
  unfold save_gyro_window.
  destruct (_fft_window_phase e =? phase); [|apply writes_only_refl].
  destruct (0 <? _gyro_window_size e); [|frame_setters].
  destruct (_post_filter_fft e); [|frame_setters].
  destruct (apply _ _) as [f v]. frame_setters.
Qed.

Lemma apply_harmonic_notches_writes e i notches gyro phase s :
  writes_only fp_save_gyro_window i s
    (snd (apply_harmonic_notches e i notches gyro phase s)).
Proof.
  revert gyro phase s.
  induction notches as [|notch rest IH]; intros gyro phase s; cbn.
  - apply writes_only_refl.
  - destruct (negb (params_enabled notch)).
    + specialize (IH gyro phase s).
      destruct (apply_harmonic_notches e i rest gyro phase s)
        as [[[r g] p] s']. exact IH.
    + destruct (is_inactive notch
                || negb (params_EnableOnAllIMUs notch)
                   && negb (i =? _primary e)).
      * specialize (IH gyro (uint8 (phase + 1))
                      (save_gyro_window e i gyro phase s)).
        destruct (apply_harmonic_notches e i rest gyro
                    (uint8 (phase + 1)) _) as [[[r g] p] s'].
        eapply writes_only_trans; [apply save_gyro_window_writes|].
        exact IH.
      * destruct (apply (notch_filter notch i) gyro) as [f v].
        specialize (IH v (uint8 (phase + 1))
                      (save_gyro_window e i v phase s)).
        destruct (apply_harmonic_notches e i rest v
                    (uint8 (phase + 1)) _) as [[[r g] p] s'].
        eapply writes_only_trans; [apply save_gyro_window_writes|].
        exact IH.
Qed.

Lemma reset_gyro_filters_writes i s :
  writes_only fp_gyro_filter_chain i s (reset_gyro_filters i s).
Proof.
  unfold reset_gyro_filters.
  eapply writes_only_trans;
    [|apply with_harmonic_notches_writes; reflexivity].
  eapply writes_only_trans; apply set_filter_writes; cbn; tauto.
Qed.

Lemma record_gyro_filtered_writes e i v s :
  writes_only fp_gyro_filters i s (record_gyro_filtered e i v s).
Proof.
  unfold record_gyro_filtered.
  destruct (is_rate_loop_gyro_enabled e i);
    [destruct (push_next_gyro_sample e v)|];
    try apply writes_only_refl; apply set_vec_writes; cbn; tauto.
Qed.

(** [apply_gyro_filters] is a filter chain that leaves the stored
    filtered value alone, followed by the recording of a value that is
    the old stored one when the chain's output is not finite. *)
Lemma apply_gyro_filters_chain e i gyro s :
  exists s1 v,
    apply_gyro_filters e i gyro s = record_gyro_filtered e i v s1
    /\ writes_only fp_gyro_filter_chain i s s1
    /\ (vfinite v = true \/ v = vecs s _gyro_filtered i).
Proof.
  unfold apply_gyro_filters.
  pose proof (save_gyro_window_writes e i gyro 0 s) as H0.
  set (s0 := save_gyro_window e i gyro 0 s) in *.
  pose proof (apply_harmonic_notches_writes e i (harmonic_notches s0)
                gyro (uint8 (0 + 1)) s0) as H1.
  destruct (apply_harmonic_notches e i (harmonic_notches s0) gyro
              (uint8 (0 + 1)) s0) as [[[notches g] p] s1].
  cbn [snd] in H1.
  destruct (apply (filters (with_harmonic_notches notches s1)
                     _gyro_filter i) g) as [f v].
  assert (H2 : writes_only fp_gyro_filter_chain i s
                 (set_filter _gyro_filter i f
                    (with_harmonic_notches notches s1))).
  { eapply writes_only_trans;
      [apply (writes_only_mono fp_save_gyro_window); [fp_incl_tac|];
       exact H0|].
    eapply writes_only_trans;
      [apply (writes_only_mono fp_save_gyro_window); [fp_incl_tac|];
       exact H1|].
    eapply writes_only_trans;
      [apply with_harmonic_notches_writes; reflexivity|].
    apply set_filter_writes. cbn. tauto. }
  destruct (is_nan v || is_inf v) eqn:Hv.
  - eexists _, _. split; [reflexivity|].
    assert (H3 : writes_only fp_gyro_filter_chain i s
                   (reset_gyro_filters i
                      (set_filter _gyro_filter i f
                         (with_harmonic_notches notches s1)))).
    { eapply writes_only_trans; [exact H2|].
      apply reset_gyro_filters_writes. }
    split; [exact H3|]. right.
    apply H3. cbn. intuition congruence.
  - eexists _, _. split; [reflexivity|]. split; [exact H2|].
    left. unfold vfinite. rewrite Hv. reflexivity.
Qed.

Lemma apply_gyro_filters_writes e i gyro s :
  writes_only fp_gyro_filters i s (apply_gyro_filters e i gyro s).
Proof.
  destruct (apply_gyro_filters_chain e i gyro s) as (s1 & v & -> & H1 & _).
  eapply writes_only_trans;
    [apply (writes_only_mono fp_gyro_filter_chain); [fp_incl_tac|];
     exact H1|].
  apply record_gyro_filtered_writes.
Qed.

Lemma apply_gyro_filters_finite e i gyro s :
  vfinite (vecs s _gyro_filtered i) = true ->
  vfinite (vecs (apply_gyro_filters e i gyro s) _gyro_filtered i) = true.
Proof.
  intros Hfin.
  destruct (apply_gyro_filters_chain e i gyro s) as (s1 & v & -> & H1 & Hv).
  assert (Hold : vecs s1 _gyro_filtered i = vecs s _gyro_filtered i).
  { apply H1. cbn. intuition congruence. }
  assert (Hvf : vfinite v = true) by (destruct Hv; congruence).
  unfold record_gyro_filtered.
  destruct (is_rate_loop_gyro_enabled e i);
    [destruct (push_next_gyro_sample e v)|];
    try (rewrite Hold; exact Hfin); store.
Qed.

Lemma update_primary_writes e i s :
  writes_only fp_primary i s (update_primary e s).
Proof.
  unfold update_primary.
  destruct (_ || _); [|apply writes_only_refl].
  unfold writes_only. repeat split; intros; try discriminate.
Qed.

Lemma integrate_delta_angle_writes e i g s :
  writes_only fp_gyro_sample i s (integrate_delta_angle e i g s).
Proof.
  unfold integrate_delta_angle.
  eapply writes_only_trans; [|apply set_flag_writes; cbn; tauto].
  eapply writes_only_trans;
    [|apply (writes_only_mono fp_gyro_filters); [fp_incl_tac|];
      apply apply_gyro_filters_writes].
  destruct (stale_gap _ _);
    repeat first
      [ apply writes_only_refl
      | eapply writes_only_trans;
          [|first [ apply set_vec_writes | apply set_float_writes ];
            cbn; tauto] ].
Qed.

Lemma gyro_sample_dt_writes e i sample_us s s' dt su :
  gyro_sample_dt e i sample_us s = Some (s', dt, su) ->
  writes_only (fp [] [] [] [_gyro_last_sample_us] []) i s s'.
Proof.
  unfold gyro_sample_dt.
  destruct (_ && _).
  - intros [= <- _ _]. apply set_int_writes. cbn. tauto.
  - destruct (_ <? _)%f32; [discriminate|].
    intros [= <- _ _]. apply set_int_writes. cbn. tauto.
Qed.

Lemma gyro_raw_sample_writes e i gyro sample_us s :
  writes_only fp_gyro_prepare i s
    (fst (gyro_raw_sample e i gyro sample_us s)).
Proof.
  unfold gyro_raw_sample.
  pose proof (update_gyro_sensor_rate_writes e i s) as H0.
  destruct (gyro_sample_dt e i sample_us _) as [[[s' dt] su]|] eqn:E; cbn.
  - eapply writes_only_seq; [| |exact H0|eapply gyro_sample_dt_writes, E];
      fp_incl_tac.
  - eapply writes_only_mono; [|exact H0]. fp_incl_tac.
Qed.

Lemma delta_angle_sample_writes e i dangle s :
  writes_only fp_gyro_prepare i s (fst (delta_angle_sample e i dangle s)).
Proof.
  unfold delta_angle_sample.
  pose proof (update_gyro_sensor_rate_writes e i s) as H0.
  destruct (_ <? _)%f32; cbn.
  - eapply writes_only_mono; [|exact H0]. fp_incl_tac.
  - eapply writes_only_trans;
      [eapply writes_only_mono; [|exact H0]; fp_incl_tac|].
    apply set_int_writes. cbn. tauto.
Qed.

Lemma _notify_new_gyro_raw_sample_writes e i gyro sample_us s :
  writes_only fp_gyro_sample i s
    (_notify_new_gyro_raw_sample e i gyro sample_us s).
Proof.
  unfold _notify_new_gyro_raw_sample.
  destruct (has_been_killed i s); [apply writes_only_refl|].
  pose proof (writes_only_mono fp_gyro_prepare fp_gyro_sample i _ _
                ltac:(fp_incl_tac) (gyro_raw_sample_writes e i gyro sample_us s))
    as H0.
  destruct (gyro_raw_sample e i gyro sample_us s) as [s' [g|]];
    cbn in H0; [|exact H0].
  eapply writes_only_trans; [exact H0|].
  eapply writes_only_trans; [apply integrate_delta_angle_writes|].
  eapply writes_only_mono; [|apply update_primary_writes]. fp_incl_tac.
Qed.

Lemma _notify_new_delta_angle_writes e i dangle s :
  writes_only fp_gyro_sample i s (_notify_new_delta_angle e i dangle s).
Proof.
  unfold _notify_new_delta_angle.
  destruct (has_been_killed i s); [apply writes_only_refl|].
  pose proof (writes_only_mono fp_gyro_prepare fp_gyro_sample i _ _
                ltac:(fp_incl_tac) (delta_angle_sample_writes e i dangle s))
    as H0.
  destruct (delta_angle_sample e i dangle s) as [s' [g|]];
    cbn in H0; [|exact H0].
  eapply writes_only_trans; [exact H0|].
  eapply writes_only_trans; [apply integrate_delta_angle_writes|].
  eapply writes_only_mono; [|apply update_primary_writes]. fp_incl_tac.
Qed.

Lemma integrate_delta_velocity_writes e i a s :
  writes_only fp_accel_sample i s (integrate_delta_velocity e i a s).
Proof.
  unfold integrate_delta_velocity.
  match goal with
  | |- context [apply (filters ?t _accel_filter i) _] =>
      assert (H0 : writes_only fp_accel_sample i s t)
  end.
  { destruct (stale_gap _ _);
      repeat first
        [ apply writes_only_refl
        | eapply writes_only_trans;
            [|first [ apply set_vec_writes | apply set_float_writes ];
              cbn; tauto] ]. }
  destruct (apply _ _) as [f filtered].
  eapply writes_only_trans; [exact H0|].
  eapply writes_only_trans; [|apply set_flag_writes; cbn; tauto].
  destruct (_ || _);
    repeat first
      [ apply writes_only_refl
      | eapply writes_only_trans;
          [|first [ apply set_vec_writes | apply set_filter_writes ];
            cbn; tauto] ].
Qed.

Lemma accel_sample_dt_writes e i sample_us s s' dt su :
  accel_sample_dt e i sample_us s = Some (s', dt, su) ->
  writes_only (fp [] [] [] [_accel_last_sample_us] []) i s s'.
Proof.
  unfold accel_sample_dt.
  destruct (_ && _).
  - intros [= <- _ _]. apply set_int_writes. cbn. tauto.
  - destruct (_ <? _)%f32; [discriminate|].
    intros [= <- _ _]. apply set_int_writes. cbn. tauto.
Qed.

Lemma accel_raw_sample_writes e i accel sample_us s :
  writes_only fp_accel_prepare i s
    (fst (accel_raw_sample e i accel sample_us s)).
Proof.
  unfold accel_raw_sample.
  pose proof (update_accel_sensor_rate_writes e i s) as H0.
  destruct (accel_sample_dt e i sample_us _) as [[[s' dt] su]|] eqn:E; cbn.
  - eapply writes_only_seq; [| |exact H0|eapply accel_sample_dt_writes, E];
      fp_incl_tac.
  - eapply writes_only_mono; [|exact H0]. fp_incl_tac.
Qed.

Lemma delta_velocity_sample_writes e i dvel s :
  writes_only fp_accel_prepare i s
    (fst (delta_velocity_sample e i dvel s)).
Proof.
  unfold delta_velocity_sample.
  pose proof (update_accel_sensor_rate_writes e i s) as H0.
  destruct (_ <? _)%f32; cbn.
  - eapply writes_only_mono; [|exact H0]. fp_incl_tac.
  - eapply writes_only_trans;
      [eapply writes_only_mono; [|exact H0]; fp_incl_tac|].
    apply set_int_writes. cbn. tauto.
Qed.

Lemma _notify_new_accel_raw_sample_writes e i accel sample_us fsync s :
  writes_only fp_accel_sample i s
    (_notify_new_accel_raw_sample e i accel sample_us fsync s).
Proof.
  unfold _notify_new_accel_raw_sample.
  destruct (has_been_killed i s); [apply writes_only_refl|].
  pose proof (writes_only_mono fp_accel_prepare fp_accel_sample i _ _
                ltac:(fp_incl_tac) (accel_raw_sample_writes e i accel sample_us s))
    as H0.
  destruct (accel_raw_sample e i accel sample_us s) as [s' [a|]];
    cbn in H0; [|exact H0].
  eapply writes_only_trans; [exact H0|].
  apply integrate_delta_velocity_writes.
Qed.

Lemma _notify_new_delta_velocity_writes e i dvel s :
  writes_only fp_accel_sample i s (_notify_new_delta_velocity e i dvel s).
Proof.
  unfold _notify_new_delta_velocity.
  destruct (has_been_killed i s); [apply writes_only_refl|].
  pose proof (writes_only_mono fp_accel_prepare fp_accel_sample i _ _
                ltac:(fp_incl_tac) (delta_velocity_sample_writes e i dvel s))
    as H0.
  destruct (delta_velocity_sample e i dvel s) as [s' [a|]];
    cbn in H0; [|exact H0].
  eapply writes_only_trans; [exact H0|].
  apply integrate_delta_velocity_writes.
Qed.

Lemma update_gyro_filters_writes e i s :
  writes_only fp_gyro_retune i s (update_gyro_filters e i s).
Proof.
  unfold update_gyro_filters.
  eapply writes_only_trans;
    [|apply with_harmonic_notches_writes; reflexivity].
  destruct (_ || _); [|apply writes_only_refl].
  eapply writes_only_trans;
    [|apply with_last_gyro_filter_hz_writes; reflexivity].
  eapply writes_only_trans; apply set_filter_writes; cbn; tauto.
Qed.

Lemma update_gyro_writes e i s :
  writes_only fp_update_gyro i s (update_gyro e i s).
Proof.
  unfold update_gyro.
  destruct (has_been_killed i s); [apply writes_only_refl|].
  eapply writes_only_trans;
    [|apply (writes_only_mono fp_gyro_retune); [fp_incl_tac|];
      apply update_gyro_filters_writes].
  destruct (flags s _new_gyro_data i); [|apply writes_only_refl].
  eapply writes_only_trans; [|apply set_flag_writes; cbn; tauto].
  eapply writes_only_trans; [|apply set_vec_writes; cbn; tauto].
  eapply writes_only_mono; [|apply _publish_gyro_writes]. fp_incl_tac.
Qed.

Lemma update_accel_filters_writes e i s :
  writes_only fp_accel_retune i s (update_accel_filters e i s).
Proof.
  unfold update_accel_filters.
  destruct (negb _); [|apply writes_only_refl].
  eapply writes_only_trans;
    [|apply with_last_accel_filter_hz_writes; reflexivity].
  apply set_filter_writes; cbn; tauto.
Qed.

Lemma update_accel_writes e i s :
  writes_only fp_update_accel i s (update_accel e i s).
Proof.
  unfold update_accel.
  destruct (has_been_killed i s); [apply writes_only_refl|].
  eapply writes_only_trans;
    [|apply (writes_only_mono fp_accel_retune); [fp_incl_tac|];
      apply update_accel_filters_writes].
  destruct (flags s _new_accel_data i); [|apply writes_only_refl].
  eapply writes_only_trans; [|apply set_flag_writes; cbn; tauto].
  eapply writes_only_mono; [|apply _publish_accel_writes]. fp_incl_tac.
Qed.

(** Every call stays inside its footprint. *)
Lemma step_writes_only c s :
  writes_only (footprint c) (call_instance c) s (step c s).
Proof.
  destruct c; cbn [footprint call_instance step].
  - apply notify_accel_fifo_reset_writes.
  - apply notify_gyro_fifo_reset_writes.
  - apply set_int_writes; cbn; tauto.
  - apply set_int_writes; cbn; tauto.
  - apply _publish_gyro_writes.
  - apply _publish_accel_writes.
  - apply _publish_temperature_writes.
  - apply _notify_new_gyro_raw_sample_writes.
  - apply _notify_new_delta_angle_writes.
  - apply _notify_new_accel_raw_sample_writes.
  - apply _notify_new_delta_velocity_writes.
  - apply set_int_writes; cbn; tauto.
  - apply set_int_writes; cbn; tauto.
  - apply update_gyro_writes.
  - apply update_accel_writes.
  - apply update_primary_writes.
Qed.

(** ** The rate estimator *)

(** C4.  [_update_sensor_rate] on a window that has not been started
    ([start_us = 0]) only captures the start time; otherwise it counts the
    sample, and once more than 1,000,000 us have elapsed it blends the
    observed rate [count * 1e6 / elapsed], clamped to
    [[rate*0.95, rate*1.05]] ([[rate*0.5, rate*2.0]] while the sensors
    converge), into the estimate with constant 0.98 (0.8 while
    converging) and restarts the window. *)
Theorem update_sensor_rate_cases e count start_us rate_hz :
  let now := micros e in
  let elapsed := uint32 (now - start_us) in
  let counted := uint16 (count + 1) in
  let observed := (of_int counted * f_1e6 / of_int elapsed)%f32 in
  let c := if sensors_converging e then f_0_8 else f_0_98 in
  let lower := if sensors_converging e then f_0_5 else f_0_95 in
  let upper := if sensors_converging e then f_2_0 else f_1_05 in
  let clamped :=
    constrain_float observed (rate_hz * lower)%f32 (rate_hz * upper)%f32 in
  (start_us = 0 ->
     _update_sensor_rate e count start_us rate_hz = (0, now, rate_hz))
  /\ (start_us <> 0 -> elapsed <= 1000000 ->
      _update_sensor_rate e count start_us rate_hz
      = (counted, start_us, rate_hz))
  /\ (start_us <> 0 -> 1000000 < elapsed ->
      _update_sensor_rate e count start_us rate_hz
      = (0, now, (c * rate_hz + (f_1 - c) * clamped)%f32)).
Proof.
  cbv zeta. unfold _update_sensor_rate.
  repeat split.
  - intros ->. reflexivity.
  - intros Hs He.
    destruct (Z.eqb_spec start_us 0) as [|_]; [contradiction|].
    destruct (Z.ltb_spec 1000000 (uint32 (micros e - start_us)));
      [lia|reflexivity].
  - intros Hs He.
    destruct (Z.eqb_spec start_us 0) as [|_]; [contradiction|].
    destruct (Z.ltb_spec 1000000 (uint32 (micros e - start_us)));
      [|lia].
    destruct (sensors_converging e); reflexivity.
Qed.

(** ** FIFO resets *)

(** On a window that has not been started the estimator only stamps
    it. *)
Lemma update_gyro_sensor_rate_fresh e i s :
  ints s _sample_gyro_start_us i = 0 ->
  update_gyro_sensor_rate e i s
  = set_float _gyro_raw_sample_rates i
      (floats s _gyro_raw_sample_rates i)
      (set_int _sample_gyro_start_us i (micros e)
         (set_int _sample_gyro_count i 0 s)).
Proof.
  intros H0. unfold update_gyro_sensor_rate, _update_sensor_rate.
  rewrite H0. reflexivity.
Qed.

Lemma update_accel_sensor_rate_fresh e i s :
  ints s _sample_accel_start_us i = 0 ->
  update_accel_sensor_rate e i s
  = set_float _accel_raw_sample_rates i
      (floats s _accel_raw_sample_rates i)
      (set_int _sample_accel_start_us i (micros e)
         (set_int _sample_accel_count i 0 s)).
Proof.
  intros H0. unfold update_accel_sensor_rate, _update_sensor_rate.
  rewrite H0. reflexivity.
Qed.


(** C10.  A FIFO-reset notification zeroes the sample count and the
    window start of its instance and writes nothing else; the rate
    estimator's next call on that instance then only captures its start
    time and leaves the rate estimate as it was. *)
Theorem fifo_reset_clears_only_the_rate_window e i s :
  (let s' := notify_gyro_fifo_reset i s in
   ints s' _sample_gyro_count i = 0
   /\ ints s' _sample_gyro_start_us i = 0
   /\ writes_only fp_gyro_fifo_reset i s s'
   /\ vecs s' = vecs s /\ floats s' = floats s /\ flags s' = flags s
   /\ filters s' = filters s
   /\ harmonic_notches s' = harmonic_notches s
   /\ let s'' := update_gyro_sensor_rate e i s' in
      floats s'' _gyro_raw_sample_rates i
      = floats s _gyro_raw_sample_rates i
      /\ ints s'' _sample_gyro_start_us i = micros e
      /\ ints s'' _sample_gyro_count i = 0)
  /\ (let s' := notify_accel_fifo_reset i s in
      ints s' _sample_accel_count i = 0
      /\ ints s' _sample_accel_start_us i = 0
      /\ writes_only fp_accel_fifo_reset i s s'
      /\ vecs s' = vecs s /\ floats s' = floats s /\ flags s' = flags s
      /\ filters s' = filters s
      /\ harmonic_notches s' = harmonic_notches s
      /\ let s'' := update_accel_sensor_rate e i s' in
         floats s'' _accel_raw_sample_rates i
         = floats s _accel_raw_sample_rates i
         /\ ints s'' _sample_accel_start_us i = micros e
         /\ ints s'' _sample_accel_count i = 0).
Proof.
  split; cbv zeta.
  - split; [unfold notify_gyro_fifo_reset; store|].
    split; [unfold notify_gyro_fifo_reset; store|].
    split; [apply notify_gyro_fifo_reset_writes|].
    do 5 (split; [reflexivity|]).
    rewrite update_gyro_sensor_rate_fresh
      by (unfold notify_gyro_fifo_reset; store).
    unfold notify_gyro_fifo_reset. repeat split; store.
  - split; [unfold notify_accel_fifo_reset; store|].
    split; [unfold notify_accel_fifo_reset; store|].
    split; [apply notify_accel_fifo_reset_writes|].
    do 5 (split; [reflexivity|]).
    rewrite update_accel_sensor_rate_fresh
      by (unfold notify_accel_fifo_reset; store).
    unfold notify_accel_fifo_reset. repeat split; store.
Qed.

(** ** Publishing *)

(** C5.  Publishing on an instance that is not killed moves the
    accumulated delta and its accumulated [dt] into the visible fields,
    marks them valid and zeroes both accumulators. *)
Theorem publish_moves_accumulator i gyro accel s :
  has_been_killed i s = false ->
  (let s' := _publish_gyro i gyro s in
   vecs s' _delta_angle i = vecs s _delta_angle_acc i
   /\ floats s' _delta_angle_dt i = floats s _delta_angle_acc_dt i
   /\ flags s' _delta_angle_valid i = true
   /\ vecs s' _delta_angle_acc i = vzero
   /\ floats s' _delta_angle_acc_dt i = f_0)
  /\ (let s' := _publish_accel i accel s in
      vecs s' _delta_velocity i = vecs s _delta_velocity_acc i
      /\ floats s' _delta_velocity_dt i = floats s _delta_velocity_acc_dt i
      /\ flags s' _delta_velocity_valid i = true
      /\ vecs s' _delta_velocity_acc i = vzero
      /\ floats s' _delta_velocity_acc_dt i = f_0).
Proof.
  intros Hk. unfold _publish_gyro, _publish_accel. rewrite Hk.
  repeat split; store.
Qed.

(** ** The primary heartbeat *)

(** C8.  [update_primary] calls [set_primary] and stores the new state
    and time exactly when the computed primary differs from the stored
    one or more than 200 ms have passed since the stored time; otherwise
    it changes nothing, so repeating it in that situation notifies no
    more. *)
Theorem update_primary_notifies_iff e s :
  let is_new_primary := gyro_instance s =? _primary e in
  let now_us := micros_primary e in
  (primary_update_due e s ->
     set_primary_calls (update_primary e s)
     = is_new_primary :: set_primary_calls s
     /\ is_primary (update_primary e s) = is_new_primary
     /\ last_primary_update_us (update_primary e s) = now_us)
  /\ (~ primary_update_due e s -> update_primary e s = s)
  /\ (forall es : list (Env Rotation),
        Forall (fun e' => ~ primary_update_due e' s) es ->
        fold_left (fun s e' => update_primary e' s) es s = s).
Proof.
  cbv zeta.
  assert (Hstay : forall e', ~ primary_update_due e' s ->
                             update_primary e' s = s).
  { intros e' Hn. unfold primary_update_due in Hn.
    unfold update_primary, timeout_expired, PRIMARY_UPDATE_TIMEOUT_US.
    destruct (eqb_spec (is_primary s) (gyro_instance s =? _primary e'));
      [|tauto].
    destruct (Z.ltb_spec 200000
                (uint32 (micros_primary e' - last_primary_update_us s)));
      [tauto|reflexivity]. }
  split; [|split].
  - unfold primary_update_due, update_primary, timeout_expired,
      PRIMARY_UPDATE_TIMEOUT_US.
    intros [Hd|Hd].
    + destruct (eqb_spec (is_primary s) (gyro_instance s =? _primary e));
        [contradiction|]. cbn. auto.
    + apply Z.ltb_lt in Hd. rewrite Hd, orb_true_r. cbn. auto.
  - apply Hstay.
  - induction es as [|e' es IH]; intros Hall; [reflexivity|].
    inversion Hall as [|? ? Hn Hrest]; subst.
    cbn [fold_left]. rewrite (Hstay e' Hn). apply IH, Hrest.
Qed.

(** ** Killed instances *)

Lemma step_killed c s : killed (step c s) = killed s.
Proof. apply (step_writes_only c s). Qed.

Lemma run_killed calls s : killed (run calls s) = killed s.
Proof.
  revert s. induction calls as [|c calls IH]; intros s; [reflexivity|].
  cbn [run fold_left]. fold (run calls (step c s)).
  rewrite IH. apply step_killed.
Qed.

Lemma guarded_step_on_killed i c s :
  has_been_killed i s = true -> guarded_on i c = true -> step c s = s.
Proof.
  intros Hk Hg.
  destruct c; cbn in Hg; try discriminate;
    apply Z.eqb_eq in Hg; subst; cbn [step];
    unfold _publish_gyro, _publish_accel, _publish_temperature,
      _notify_new_gyro_raw_sample, _notify_new_delta_angle,
      _notify_new_accel_raw_sample, _notify_new_delta_velocity,
      update_gyro, update_accel;
    rewrite Hk; reflexivity.
Qed.

(** C6.  On an instance whose killed flag is set, every notification of
    a sample, every publish and every update returns the state it was
    given, and so does any sequence of them; no call of the backend
    changes a killed flag. *)
Theorem killed_instance_is_inert i s :
  has_been_killed i s = true ->
  (forall e gyro sample_us,
      _notify_new_gyro_raw_sample e i gyro sample_us s = s)
  /\ (forall e dangle, _notify_new_delta_angle e i dangle s = s)
  /\ (forall e accel sample_us fsync_set,
        _notify_new_accel_raw_sample e i accel sample_us fsync_set s = s)
  /\ (forall e dvel, _notify_new_delta_velocity e i dvel s = s)
  /\ (forall gyro, _publish_gyro i gyro s = s)
  /\ (forall accel, _publish_accel i accel s = s)
  /\ (forall e, update_gyro e i s = s)
  /\ (forall e, update_accel e i s = s)
  /\ (forall calls, forallb (guarded_on i) calls = true ->
        run calls s = s)
  /\ (forall calls j, killed (run calls s) j = killed s j).
Proof.
  intros Hk.
  unfold _publish_gyro, _publish_accel, _notify_new_gyro_raw_sample,
    _notify_new_delta_angle, _notify_new_accel_raw_sample,
    _notify_new_delta_velocity, update_gyro, update_accel.
  rewrite Hk. do 8 (split; [reflexivity|]). split.
  - induction calls as [|c calls IH]; [reflexivity|].
    cbn [forallb]. intros [Hc Hrest]%andb_true_iff.
    cbn [run fold_left]. rewrite (guarded_step_on_killed i c s Hk Hc).
    apply IH, Hrest.
  - intros calls j. rewrite run_killed. reflexivity.
Qed.

(** ** Samples below the minimum rate *)

(** C7, as amended.  When the rate estimate that the 40 Hz guard reads
    (the estimate after this call's rate-estimator step, not the one the
    instance had when the call was made) is below 40 Hz, a delta-angle
    or delta-velocity notification does nothing beyond that step: the
    accumulator, the filters and the filtered value, the last-sample
    time, the new-data flag and the error counter are as before. *)
Theorem slow_delta_sample_is_dropped e i dangle dvel s :
  ((floats (update_gyro_sensor_rate e i s) _gyro_raw_sample_rates i
    <? f_40)%f32 = true ->
   let s' := _notify_new_delta_angle e i dangle s in
   (s' = s \/ s' = update_gyro_sensor_rate e i s)
   /\ writes_only fp_gyro_rate i s s'
   /\ vecs s' = vecs s /\ flags s' = flags s /\ filters s' = filters s
   /\ harmonic_notches s' = harmonic_notches s
   /\ floats s' _delta_angle_acc_dt i = floats s _delta_angle_acc_dt i
   /\ ints s' _gyro_last_sample_us i = ints s _gyro_last_sample_us i
   /\ ints s' _gyro_error_count i = ints s _gyro_error_count i)
  /\ ((floats (update_accel_sensor_rate e i s) _accel_raw_sample_rates i
       <? f_40)%f32 = true ->
      let s' := _notify_new_delta_velocity e i dvel s in
      (s' = s \/ s' = update_accel_sensor_rate e i s)
      /\ writes_only fp_accel_rate i s s'
      /\ vecs s' = vecs s /\ flags s' = flags s /\ filters s' = filters s
      /\ harmonic_notches s' = harmonic_notches s
      /\ floats s' _delta_velocity_acc_dt i
         = floats s _delta_velocity_acc_dt i
      /\ ints s' _accel_last_sample_us i = ints s _accel_last_sample_us i
      /\ ints s' _accel_error_count i = ints s _accel_error_count i).
Proof.
  split; intros Hslow; cbv zeta.
  - unfold _notify_new_delta_angle, delta_angle_sample.
    destruct (has_been_killed i s).
    + split; [auto|]. split; [apply writes_only_refl|]. tauto.
    + rewrite Hslow.
      split; [auto|].
      split; [apply update_gyro_sensor_rate_writes|].
      unfold update_gyro_sensor_rate.
      destruct (_update_sensor_rate _ _ _ _) as [[c st] r].
      repeat split; store.
  - unfold _notify_new_delta_velocity, delta_velocity_sample.
    destruct (has_been_killed i s).
    + split; [auto|]. split; [apply writes_only_refl|]. tauto.
    + rewrite Hslow.
      split; [auto|].
      split; [apply update_accel_sensor_rate_writes|].
      unfold update_accel_sensor_rate.
      destruct (_update_sensor_rate _ _ _ _) as [[c st] r].
      repeat split; store.
Qed.

(** ** What the integrators leave in the accumulators *)

Lemma update_primary_arrays e s :
  vecs (update_primary e s) = vecs s
  /\ floats (update_primary e s) = floats s
  /\ flags (update_primary e s) = flags s
  /\ ints (update_primary e s) = ints s.
Proof. unfold update_primary. destruct (_ || _); auto. Qed.

Lemma integrate_delta_angle_acc e i g s :
  let stale := stale_gap (micros64_lock e) (gs_last_sample_us g) in
  let s' := integrate_delta_angle e i g s in
  vecs s' _delta_angle_acc i
  = ((if stale then vzero else vecs s _delta_angle_acc i)
     + ((if stale then vzero else gs_delta_angle g)
        + gs_delta_coning g))%v3
  /\ floats s' _delta_angle_acc_dt i
     = ((if stale then f_0 else floats s _delta_angle_acc_dt i)
        + (if stale then f_0 else gs_dt g))%f32.
Proof.
  cbv zeta. unfold integrate_delta_angle.
  match goal with
  | |- context [apply_gyro_filters e i ?v ?t] =>
      pose proof (apply_gyro_filters_writes e i v t) as Hw;
      set (t1 := t) in *;
      set (t2 := apply_gyro_filters e i v t1) in *
  end.
  destruct Hw as (Hv & Hf & _).
  split.
  - change (vecs (set_flag _new_gyro_data i true t2) _delta_angle_acc i)
      with (vecs t2 _delta_angle_acc i).
    rewrite Hv by (cbn; intuition congruence).
    subst t1. destruct (stale_gap _ _); store.
  - change (floats (set_flag _new_gyro_data i true t2)
              _delta_angle_acc_dt i)
      with (floats t2 _delta_angle_acc_dt i).
    rewrite Hf by (cbn; intuition congruence).
    subst t1. destruct (stale_gap _ _); store.
Qed.

Lemma integrate_delta_velocity_acc e i a s :
  let stale := stale_gap (micros64_lock e) (as_last_sample_us a) in
  let dt := if stale then f_0 else as_dt a in
  let s' := integrate_delta_velocity e i a s in
  vecs s' _delta_velocity_acc i
  = ((if stale then vzero else vecs s _delta_velocity_acc i)
     + as_accel a * dt)%v3
  /\ floats s' _delta_velocity_acc_dt i
     = ((if stale then f_0 else floats s _delta_velocity_acc_dt i)
        + dt)%f32.
Proof.
  cbv zeta. unfold integrate_delta_velocity.
  destruct (apply _ _) as [f filtered].
  destruct (stale_gap _ _);
    (match goal with
     | |- context [if ?c then _ else _] => destruct c
     end; split; store).
Qed.

(** What an accepted raw gyro sample carries, in terms of the state the
    call was made in. *)
Lemma gyro_raw_sample_accepted e i gyro sample_us s s1 g :
  gyro_raw_sample e i gyro sample_us s = (s1, Some g) ->
  gs_gyro g = gyro
  /\ gs_delta_angle g
     = trapezoidal_delta_angle gyro (vecs s _last_raw_gyro i) (gs_dt g)
  /\ gs_delta_coning g
     = coning_correction (vecs s _delta_angle_acc i)
         (vecs s _last_delta_angle i) (gs_delta_angle g)
  /\ gs_last_sample_us g = ints s _gyro_last_sample_us i
  /\ vecs s1 = vecs s
  /\ floats s1 _delta_angle_acc_dt i = floats s _delta_angle_acc_dt i.
Proof.
  unfold gyro_raw_sample.
  pose proof (update_gyro_sensor_rate_writes e i s) as (Hv & Hf & _ & Hi & _).
  assert (Hvecs : vecs (update_gyro_sensor_rate e i s) = vecs s).
  { unfold update_gyro_sensor_rate.
    destruct (_update_sensor_rate _ _ _ _) as [[c st] r]. reflexivity. }
  destruct (gyro_sample_dt e i sample_us _) as [[[s' dt] su]|] eqn:E;
    [|discriminate].
  intros [= <- <-]. cbn.
  pose proof (gyro_sample_dt_writes _ _ _ _ _ _ _ E) as (_ & Hf' & _).
  assert (Hvecs' : vecs s' = vecs (update_gyro_sensor_rate e i s)).
  { revert E. unfold gyro_sample_dt.
    destruct (_ && _); [intros [= <- _ _]; reflexivity|].
    destruct (_ <? _)%f32; [discriminate|].
    intros [= <- _ _]; reflexivity. }
  rewrite Hvecs', Hvecs.
  repeat split.
  - apply Hi. cbn. intuition congruence.
  - rewrite Hf' by (cbn; tauto). apply Hf. cbn. intuition congruence.
Qed.

Lemma accel_raw_sample_accepted e i accel sample_us s s1 a :
  accel_raw_sample e i accel sample_us s = (s1, Some a) ->
  as_accel a = accel
  /\ as_last_sample_us a = ints s _accel_last_sample_us i
  /\ vecs s1 = vecs s
  /\ floats s1 _delta_velocity_acc_dt i
     = floats s _delta_velocity_acc_dt i.
Proof.
  unfold accel_raw_sample.
  pose proof (update_accel_sensor_rate_writes e i s)
    as (Hv & Hf & _ & Hi & _).
  assert (Hvecs : vecs (update_accel_sensor_rate e i s) = vecs s).
  { unfold update_accel_sensor_rate.
    destruct (_update_sensor_rate _ _ _ _) as [[c st] r]. reflexivity. }
  destruct (accel_sample_dt e i sample_us _) as [[[s' dt] su]|] eqn:E;
    [|discriminate].
  intros [= <- <-]. cbn.
  pose proof (accel_sample_dt_writes _ _ _ _ _ _ _ E) as (_ & Hf' & _).
  assert (Hvecs' : vecs s' = vecs (update_accel_sensor_rate e i s)).
  { revert E. unfold accel_sample_dt.
    destruct (_ && _); [intros [= <- _ _]; reflexivity|].
    destruct (_ <? _)%f32; [discriminate|].
    intros [= <- _ _]; reflexivity. }
  rewrite Hvecs', Hvecs.
  repeat split.
  - apply Hi. cbn. intuition congruence.
  - rewrite Hf' by (cbn; tauto). apply Hf. cbn. intuition congruence.
Qed.

Lemma delta_angle_sample_accepted e i dangle s s1 g :
  delta_angle_sample e i dangle s = (s1, Some g) ->
  gs_last_sample_us g = ints s _gyro_last_sample_us i.
Proof.
  unfold delta_angle_sample.
  pose proof (update_gyro_sensor_rate_writes e i s) as (_ & _ & _ & Hi & _).
  destruct (_ <? _)%f32; [discriminate|].
  intros [= _ <-]. cbn. apply Hi. cbn. intuition congruence.
Qed.

Lemma delta_velocity_sample_accepted e i dvel s s1 a :
  delta_velocity_sample e i dvel s = (s1, Some a) ->
  as_last_sample_us a = ints s _accel_last_sample_us i.
Proof.
  unfold delta_velocity_sample.
  pose proof (update_accel_sensor_rate_writes e i s) as (_ & _ & _ & Hi & _).
  destruct (_ <? _)%f32; [discriminate|].
  intros [= _ <-]. cbn. apply Hi. cbn. intuition congruence.
Qed.

Lemma fadd_0_0 : (f_0 + f_0)%f32 = f_0.
Proof. reflexivity. Qed.

(** ** The staleness reset *)

(** C1, as amended.  When an accepted sample arrives more than 100 ms
    after the instance's previous sample, the accumulator and its [dt] are
    zeroed and the sample's own [dt] is replaced by zero before the
    accumulation runs: afterwards the accumulated [dt] is zero, the
    delta-velocity accumulator holds zero plus [accel * 0], and the
    delta-angle accumulator holds zero plus a zero delta angle and the
    call's coning term.  This holds for raw samples and for samples that
    arrive as deltas. *)
Theorem stale_sample_restarts_accumulator e i s :
  has_been_killed i s = false ->
  (forall gyro sample_us s1 g,
      gyro_raw_sample e i gyro sample_us s = (s1, Some g) ->
      stale_gap (micros64_lock e) (ints s _gyro_last_sample_us i) = true ->
      let s' := _notify_new_gyro_raw_sample e i gyro sample_us s in
      floats s' _delta_angle_acc_dt i = f_0
      /\ vecs s' _delta_angle_acc i
         = (vzero + (vzero + gs_delta_coning g))%v3)
  /\ (forall accel sample_us fsync_set s1 a,
        accel_raw_sample e i accel sample_us s = (s1, Some a) ->
        stale_gap (micros64_lock e) (ints s _accel_last_sample_us i)
        = true ->
        let s' :=
          _notify_new_accel_raw_sample e i accel sample_us fsync_set s in
        floats s' _delta_velocity_acc_dt i = f_0
        /\ vecs s' _delta_velocity_acc i = (vzero + accel * f_0)%v3)
  /\ (forall dangle s1 g,
        delta_angle_sample e i dangle s = (s1, Some g) ->
        stale_gap (micros64_lock e) (ints s _gyro_last_sample_us i) = true ->
        let s' := _notify_new_delta_angle e i dangle s in
        floats s' _delta_angle_acc_dt i = f_0
        /\ vecs s' _delta_angle_acc i
           = (vzero + (vzero + gs_delta_coning g))%v3)
  /\ (forall dvel s1 a,
        delta_velocity_sample e i dvel s = (s1, Some a) ->
        stale_gap (micros64_lock e) (ints s _accel_last_sample_us i)
        = true ->
        let s' := _notify_new_delta_velocity e i dvel s in
        floats s' _delta_velocity_acc_dt i = f_0
        /\ vecs s' _delta_velocity_acc i = (vzero + as_accel a * f_0)%v3).
Proof.
  intros Hk. split; [|split; [|split]].
  - intros gyro sample_us s1 g Hs Hstale. cbv zeta.
    unfold _notify_new_gyro_raw_sample. rewrite Hk, Hs.
    destruct (gyro_raw_sample_accepted _ _ _ _ _ _ _ Hs)
      as (_ & _ & _ & Hl & _ & _).
    destruct (update_primary_arrays e (integrate_delta_angle e i g s1))
      as (-> & -> & _).
    destruct (integrate_delta_angle_acc e i g s1) as (-> & ->).
    rewrite Hl, Hstale. rewrite fadd_0_0. auto.
  - intros accel sample_us fsync_set s1 a Hs Hstale. cbv zeta.
    unfold _notify_new_accel_raw_sample. rewrite Hk, Hs.
    destruct (accel_raw_sample_accepted _ _ _ _ _ _ _ Hs)
      as (Ha & Hl & _ & _).
    destruct (integrate_delta_velocity_acc e i a s1) as (-> & ->).
    rewrite Hl, Hstale, Ha. rewrite fadd_0_0. auto.
  - intros dangle s1 g Hs Hstale. cbv zeta.
    unfold _notify_new_delta_angle. rewrite Hk, Hs.
    pose proof (delta_angle_sample_accepted _ _ _ _ _ _ Hs) as Hl.
    destruct (update_primary_arrays e (integrate_delta_angle e i g s1))
      as (-> & -> & _).
    destruct (integrate_delta_angle_acc e i g s1) as (-> & ->).
    rewrite Hl, Hstale. rewrite fadd_0_0. auto.
  - intros dvel s1 a Hs Hstale. cbv zeta.
    unfold _notify_new_delta_velocity. rewrite Hk, Hs.
    pose proof (delta_velocity_sample_accepted _ _ _ _ _ _ Hs) as Hl.
    destruct (integrate_delta_velocity_acc e i a s1) as (-> & ->).
    rewrite Hl, Hstale. rewrite fadd_0_0. auto.
Qed.

(** ** The delta of one sample *)

(** C3, as amended.  For an accepted raw gyro sample that arrives within
    100 ms of the previous one, the delta-angle accumulator grows by the
    trapezoidal delta [(gyro + last_raw_gyro) * 0.5 * dt] plus the coning
    term [((acc + last_delta * (1/6)) x delta) * 0.5]; for such an accel
    sample the delta-velocity accumulator grows by [accel * dt] alone. *)
Theorem fresh_sample_delta e i s :
  has_been_killed i s = false ->
  (forall gyro sample_us s1 g,
      gyro_raw_sample e i gyro sample_us s = (s1, Some g) ->
      stale_gap (micros64_lock e) (ints s _gyro_last_sample_us i)
      = false ->
      let dt := gs_dt g in
      let acc := vecs s _delta_angle_acc i in
      let delta := ((gyro + vecs s _last_raw_gyro i) * f_0_5 * dt)%v3 in
      let coning :=
        (vcross (acc + vecs s _last_delta_angle i * f_sixth) delta
         * f_0_5)%v3 in
      let s' := _notify_new_gyro_raw_sample e i gyro sample_us s in
      vecs s' _delta_angle_acc i = (acc + (delta + coning))%v3
      /\ floats s' _delta_angle_acc_dt i
         = (floats s _delta_angle_acc_dt i + dt)%f32)
  /\ (forall accel sample_us fsync_set s1 a,
        accel_raw_sample e i accel sample_us s = (s1, Some a) ->
        stale_gap (micros64_lock e) (ints s _accel_last_sample_us i)
        = false ->
        let dt := as_dt a in
        let s' :=
          _notify_new_accel_raw_sample e i accel sample_us fsync_set s in
        vecs s' _delta_velocity_acc i
        = (vecs s _delta_velocity_acc i + accel * dt)%v3
        /\ floats s' _delta_velocity_acc_dt i
           = (floats s _delta_velocity_acc_dt i + dt)%f32).
Proof.
  intros Hk. split.
  - intros gyro sample_us s1 g Hs Hfresh. cbv zeta.
    unfold _notify_new_gyro_raw_sample. rewrite Hk, Hs.
    destruct (gyro_raw_sample_accepted _ _ _ _ _ _ _ Hs)
      as (_ & Hd & Hc & Hl & Hv & Hf).
    destruct (update_primary_arrays e (integrate_delta_angle e i g s1))
      as (-> & -> & _).
    destruct (integrate_delta_angle_acc e i g s1) as (-> & ->).
    rewrite Hl, Hfresh, Hc, Hd, Hv, Hf. auto.
  - intros accel sample_us fsync_set s1 a Hs Hfresh. cbv zeta.
    unfold _notify_new_accel_raw_sample. rewrite Hk, Hs.
    destruct (accel_raw_sample_accepted _ _ _ _ _ _ _ Hs)
      as (Ha & Hl & Hv & Hf).
    destruct (integrate_delta_velocity_acc e i a s1) as (-> & ->).
    rewrite Hl, Hfresh, Ha, Hv, Hf. auto.
Qed.

(** ** The accumulators along a run *)

Lemma sum_value_snoc h increment dt :
  sum_value (h ++ [(increment, dt)]) = (sum_value h + increment)%v3.
Proof. unfold sum_value. rewrite fold_left_app. reflexivity. Qed.

Lemma sum_dt_snoc h increment dt :
  sum_dt (h ++ [(increment, dt)]) = (sum_dt h + dt)%f32.
Proof. unfold sum_dt. rewrite fold_left_app. reflexivity. Qed.

Lemma record_sums f h acc t acc' t' :
  folds_as f acc t acc' t' ->
  acc = sum_value h -> t = sum_dt h ->
  acc' = sum_value (record f h) /\ t' = sum_dt (record f h).
Proof.
  destruct f as [| |[] increment dt]; cbn [folds_as record];
    intros [-> ->] -> ->.
  - auto.
  - auto.
  - auto.
  - rewrite sum_value_snoc, sum_dt_snoc. auto.
Qed.

(** An accumulator that every call folds as [folding] says is, along any
    run, the sum of the recorded contributions. *)
Lemma contributions_sums folding (vf : vfield) (ff : ffield) :
  (forall c i s,
      folds_as (folding c i s) (vecs s vf i) (floats s ff i)
        (vecs (step c s) vf i) (floats (step c s) ff i)) ->
  forall calls i s h,
    vecs s vf i = sum_value h -> floats s ff i = sum_dt h ->
    vecs (run calls s) vf i = sum_value (contributions folding calls i s h)
    /\ floats (run calls s) ff i
       = sum_dt (contributions folding calls i s h).
Proof.
  intros Hstep calls i.
  induction calls as [|c calls IH]; intros s h Ha Ht; [auto|].
  cbn [run fold_left contributions]. fold (run calls (step c s)).
  destruct (record_sums _ h _ _ _ _ (Hstep c i s) Ha Ht) as [Ha' Ht'].
  apply IH; assumption.
Qed.

Lemma step_keeps_vec c s f j :
  ~ (In f (w_vecs (footprint c)) /\ j = call_instance c) ->
  vecs (step c s) f j = vecs s f j.
Proof. apply (step_writes_only c s). Qed.

Lemma step_keeps_float c s f j :
  ~ (In f (w_floats (footprint c)) /\ j = call_instance c) ->
  floats (step c s) f j = floats s f j.
Proof. apply (step_writes_only c s). Qed.

Ltac keeps :=
  split; [apply step_keeps_vec | apply step_keeps_float];
  cbn; intuition congruence.

Lemma update_gyro_drains e i s :
  has_been_killed i s = false -> flags s _new_gyro_data i = true ->
  vecs (update_gyro e i s) _delta_angle_acc i = vzero
  /\ floats (update_gyro e i s) _delta_angle_acc_dt i = f_0.
Proof.
  intros Hk Hn. unfold update_gyro. rewrite Hk, Hn.
  match goal with
  | |- context [update_gyro_filters e i ?t] =>
      destruct (update_gyro_filters_writes e i t) as (Hv & Hf & _)
  end.
  rewrite Hv, Hf by (cbn; tauto).
  unfold _publish_gyro. rewrite Hk. split; store.
Qed.

Lemma update_accel_drains e i s :
  has_been_killed i s = false -> flags s _new_accel_data i = true ->
  vecs (update_accel e i s) _delta_velocity_acc i = vzero
  /\ floats (update_accel e i s) _delta_velocity_acc_dt i = f_0.
Proof.
  intros Hk Hn. unfold update_accel. rewrite Hk, Hn.
  match goal with
  | |- context [update_accel_filters e i ?t] =>
      destruct (update_accel_filters_writes e i t) as (Hv & Hf & _)
  end.
  rewrite Hv, Hf by (cbn; tauto).
  unfold _publish_accel. rewrite Hk. split; store.
Qed.

Lemma update_gyro_without_data e i s :
  flags s _new_gyro_data i = false ->
  vecs (update_gyro e i s) = vecs s
  /\ floats (update_gyro e i s) = floats s.
Proof.
  intros Hn. unfold update_gyro. rewrite Hn.
  destruct (has_been_killed i s); [auto|].
  unfold update_gyro_filters. destruct (_ || _); auto.
Qed.

Lemma update_accel_without_data e i s :
  flags s _new_accel_data i = false ->
  vecs (update_accel e i s) = vecs s
  /\ floats (update_accel e i s) = floats s.
Proof.
  intros Hn. unfold update_accel. rewrite Hn.
  destruct (has_been_killed i s); [auto|].
  unfold update_accel_filters. destruct (negb _); auto.
Qed.

(** What a prepared gyro sample is integrated into. *)
Lemma gyro_sample_folds e i s s1 (g : option GyroSample) :
  writes_only fp_gyro_prepare i s s1 ->
  folds_as (of_sample (gyro_folded e) g)
    (vecs s _delta_angle_acc i) (floats s _delta_angle_acc_dt i)
    (vecs match g with
          | Some g => update_primary e (integrate_delta_angle e i g s1)
          | None => s1
          end _delta_angle_acc i)
    (floats match g with
            | Some g => update_primary e (integrate_delta_angle e i g s1)
            | None => s1
            end _delta_angle_acc_dt i).
Proof.
  intros (Hv & Hf & _).
  destruct g as [g|]; cbn [of_sample folds_as gyro_folded].
  - destruct (update_primary_arrays e (integrate_delta_angle e i g s1))
      as (-> & -> & _).
    destruct (integrate_delta_angle_acc e i g s1) as (-> & ->).
    rewrite Hv, Hf by (cbn; intuition congruence). auto.
  - split; [apply Hv|apply Hf]; cbn; intuition congruence.
Qed.

Lemma accel_sample_folds e i s s1 (a : option AccelSample) :
  writes_only fp_accel_prepare i s s1 ->
  folds_as (of_sample (accel_folded e) a)
    (vecs s _delta_velocity_acc i) (floats s _delta_velocity_acc_dt i)
    (vecs match a with
          | Some a => integrate_delta_velocity e i a s1
          | None => s1
          end _delta_velocity_acc i)
    (floats match a with
            | Some a => integrate_delta_velocity e i a s1
            | None => s1
            end _delta_velocity_acc_dt i).
Proof.
  intros (Hv & Hf & _).
  destruct a as [a|]; cbn [of_sample folds_as accel_folded].
  - destruct (integrate_delta_velocity_acc e i a s1) as (-> & ->).
    rewrite Hv, Hf by (cbn; intuition congruence). auto.
  - split; [apply Hv|apply Hf]; cbn; intuition congruence.
Qed.

Lemma delta_angle_step c i s :
  folds_as (delta_angle_folding c i s)
    (vecs s _delta_angle_acc i) (floats s _delta_angle_acc_dt i)
    (vecs (step c s) _delta_angle_acc i)
    (floats (step c s) _delta_angle_acc_dt i).
Proof.
  destruct c; cbn [delta_angle_folding]; try (cbn [folds_as]; keeps).
  - (* _publish_gyro *)
    destruct (Z.eqb_spec instance i) as [->|Hne]; cbn [andb];
      [|cbn [folds_as]; keeps].
    destruct (has_been_killed i s) eqn:Hk; cbn [negb folds_as step].
    + unfold _publish_gyro. rewrite Hk. auto.
    + unfold _publish_gyro. rewrite Hk. split; store.
  - (* _notify_new_gyro_raw_sample *)
    destruct (Z.eqb_spec instance i) as [->|Hne]; cbn [andb];
      [|cbn [folds_as]; keeps].
    cbn [step]. unfold _notify_new_gyro_raw_sample.
    destruct (has_been_killed i s); cbn [negb]; [cbn; auto|].
    pose proof (gyro_raw_sample_writes e i gyro sample_us s) as Hw.
    destruct (gyro_raw_sample e i gyro sample_us s) as [s1 g].
    apply gyro_sample_folds, Hw.
  - (* _notify_new_delta_angle *)
    destruct (Z.eqb_spec instance i) as [->|Hne]; cbn [andb];
      [|cbn [folds_as]; keeps].
    cbn [step]. unfold _notify_new_delta_angle.
    destruct (has_been_killed i s); cbn [negb]; [cbn; auto|].
    pose proof (delta_angle_sample_writes e i dangle s) as Hw.
    destruct (delta_angle_sample e i dangle s) as [s1 g].
    apply gyro_sample_folds, Hw.
  - (* update_gyro *)
    destruct (Z.eqb_spec instance i) as [->|Hne]; cbn [andb];
      [|cbn [folds_as]; keeps].
    cbn [step].
    destruct (has_been_killed i s) eqn:Hk; cbn [negb andb].
    + unfold update_gyro. rewrite Hk. cbn. auto.
    + destruct (flags s _new_gyro_data i) eqn:Hn; cbn [folds_as].
      * apply update_gyro_drains; assumption.
      * destruct (update_gyro_without_data e i s Hn) as [-> ->]. auto.
Qed.

Lemma delta_velocity_step c i s :
  folds_as (delta_velocity_folding c i s)
    (vecs s _delta_velocity_acc i) (floats s _delta_velocity_acc_dt i)
    (vecs (step c s) _delta_velocity_acc i)
    (floats (step c s) _delta_velocity_acc_dt i).
Proof.
  destruct c; cbn [delta_velocity_folding]; try (cbn [folds_as]; keeps).
  - (* _publish_accel *)
    destruct (Z.eqb_spec instance i) as [->|Hne]; cbn [andb];
      [|cbn [folds_as]; keeps].
    destruct (has_been_killed i s) eqn:Hk; cbn [negb folds_as step].
    + unfold _publish_accel. rewrite Hk. auto.
    + unfold _publish_accel. rewrite Hk. split; store.
  - (* _notify_new_accel_raw_sample *)
    destruct (Z.eqb_spec instance i) as [->|Hne]; cbn [andb];
      [|cbn [folds_as]; keeps].
    cbn [step]. unfold _notify_new_accel_raw_sample.
    destruct (has_been_killed i s); cbn [negb]; [cbn; auto|].
    pose proof (accel_raw_sample_writes e i accel sample_us s) as Hw.
    destruct (accel_raw_sample e i accel sample_us s) as [s1 a].
    apply accel_sample_folds, Hw.
  - (* _notify_new_delta_velocity *)
    destruct (Z.eqb_spec instance i) as [->|Hne]; cbn [andb];
      [|cbn [folds_as]; keeps].
    cbn [step]. unfold _notify_new_delta_velocity.
    destruct (has_been_killed i s); cbn [negb]; [cbn; auto|].
    pose proof (delta_velocity_sample_writes e i dvel s) as Hw.
    destruct (delta_velocity_sample e i dvel s) as [s1 a].
    apply accel_sample_folds, Hw.
  - (* update_accel *)
    destruct (Z.eqb_spec instance i) as [->|Hne]; cbn [andb];
      [|cbn [folds_as]; keeps].
    cbn [step].
    destruct (has_been_killed i s) eqn:Hk; cbn [negb andb].
    + unfold update_accel. rewrite Hk. cbn. auto.
    + destruct (flags s _new_accel_data i) eqn:Hn; cbn [folds_as].
      * apply update_accel_drains; assumption.
      * destruct (update_accel_without_data e i s Hn) as [-> ->]. auto.
Qed.


(** ** Non-finite filter outputs *)

Lemma integrate_delta_angle_finite e i g s :
  vfinite (vecs s _gyro_filtered i) = true ->
  vfinite (vecs (integrate_delta_angle e i g s) _gyro_filtered i) = true.
Proof.
  intros Hfin. unfold integrate_delta_angle.
  match goal with
  | |- context [apply_gyro_filters e i ?v ?t] =>
      change (vecs (set_flag _new_gyro_data i true
                      (apply_gyro_filters e i v t)) _gyro_filtered i)
        with (vecs (apply_gyro_filters e i v t) _gyro_filtered i);
      apply apply_gyro_filters_finite
  end.
  destruct (stale_gap _ _); cbn; unfold insert, fn_insert;
    repeat (case_decide; try congruence); exact Hfin.
Qed.

(** The gyro path: the stored filtered gyro value stays finite through
    every call, whatever the filters put out. *)
Lemma gyro_filtered_step_finite c i s :
  vfinite (vecs s _gyro_filtered i) = true ->
  vfinite (vecs (step c s) _gyro_filtered i) = true.
Proof.
  intros Hfin.
  destruct c;
    try (rewrite step_keeps_vec by (cbn; intuition congruence);
         exact Hfin).
  - (* _notify_new_gyro_raw_sample *)
    destruct (Z.eq_dec instance i) as [->|Hne];
      [|rewrite step_keeps_vec by (cbn; intuition congruence);
        exact Hfin].
    cbn [step]. unfold _notify_new_gyro_raw_sample.
    destruct (has_been_killed i s); [exact Hfin|].
    destruct (gyro_raw_sample_writes e i gyro sample_us s) as (Hv & _).
    destruct (gyro_raw_sample e i gyro sample_us s) as [s1 [g|]];
      cbn [fst] in Hv.
    + destruct (update_primary_arrays e (integrate_delta_angle e i g s1))
        as (-> & _).
      apply integrate_delta_angle_finite.
      rewrite Hv by (cbn; tauto). exact Hfin.
    + rewrite Hv by (cbn; tauto). exact Hfin.
  - (* _notify_new_delta_angle *)
    destruct (Z.eq_dec instance i) as [->|Hne];
      [|rewrite step_keeps_vec by (cbn; intuition congruence);
        exact Hfin].
    cbn [step]. unfold _notify_new_delta_angle.
    destruct (has_been_killed i s); [exact Hfin|].
    destruct (delta_angle_sample_writes e i dangle s) as (Hv & _).
    destruct (delta_angle_sample e i dangle s) as [s1 [g|]];
      cbn [fst] in Hv.
    + destruct (update_primary_arrays e (integrate_delta_angle e i g s1))
        as (-> & _).
      apply integrate_delta_angle_finite.
      rewrite Hv by (cbn; tauto). exact Hfin.
    + rewrite Hv by (cbn; tauto). exact Hfin.
Qed.

Lemma gyro_published_step_finite c i s :
  publishes_finite c = true ->
  vfinite (vecs s _gyro_filtered i) = true ->
  vfinite (vecs s _gyro i) = true ->
  vfinite (vecs (step c s) _gyro i) = true.
Proof.
  intros Hp Hfin Hpub.
  destruct c;
    try (rewrite step_keeps_vec by (cbn; intuition congruence);
         exact Hpub).
  - (* _publish_gyro *)
    destruct (Z.eq_dec instance i) as [->|Hne];
      [|rewrite step_keeps_vec by (cbn; intuition congruence);
        exact Hpub].
    cbn [step]. unfold _publish_gyro.
    destruct (has_been_killed i s); [exact Hpub|].
    cbn in Hp. store.
  - (* update_gyro *)
    destruct (Z.eq_dec instance i) as [->|Hne];
      [|rewrite step_keeps_vec by (cbn; intuition congruence);
        exact Hpub].
    cbn [step]. unfold update_gyro.
    destruct (has_been_killed i s) eqn:Hk; [exact Hpub|].
    match goal with
    | |- context [update_gyro_filters e i ?t] =>
        destruct (update_gyro_filters_writes e i t) as (Hv & _)
    end.
    rewrite Hv by (cbn; tauto).
    destruct (flags s _new_gyro_data i); [|exact Hpub].
    unfold _publish_gyro. rewrite Hk. store.
Qed.

Lemma gyro_reading_stays_finite calls i s :
  forallb publishes_finite calls = true ->
  vfinite (vecs s _gyro_filtered i) = true ->
  vfinite (vecs s _gyro i) = true ->
  vfinite (vecs (run calls s) _gyro_filtered i) = true
  /\ vfinite (vecs (run calls s) _gyro i) = true.
Proof.
  revert s. induction calls as [|c calls IH]; intros s Hp Hfin Hpub;
    [auto|].
  cbn [forallb] in Hp. apply andb_true_iff in Hp as [Hc Hrest].
  cbn [run fold_left]. apply IH.
  - exact Hrest.
  - apply gyro_filtered_step_finite, Hfin.
  - apply gyro_published_step_finite; assumption.
Qed.

(** The accel path: what the low-pass filter puts out is stored as the
    filtered value, finite or not. *)
Lemma integrate_delta_velocity_stores_output e i a s :
  vecs (integrate_delta_velocity e i a s) _accel_filtered i
  = snd (apply (filters s _accel_filter i) (as_accel a)).
Proof.
  unfold integrate_delta_velocity.
  destruct (stale_gap _ _); cbn -[apply];
    (destruct (apply (filters s _accel_filter i) (as_accel a))
       as [f filtered];
     match goal with
     | |- context [if ?c then _ else _] => destruct c
     end; store).
Qed.

(** ** Instances and sensors are kept apart *)

Lemma step_keeps_instance c i s :
  targets i c = false ->
  (forall f, vecs (step c s) f i = vecs s f i)
  /\ (forall f, floats (step c s) f i = floats s f i)
  /\ (forall f, flags (step c s) f i = flags s f i)
  /\ (forall f, ints (step c s) f i = ints s f i)
  /\ (forall f, filters (step c s) f i = filters s f i).
Proof.
  intros Ht.
  destruct (step_writes_only c s) as (V & F & B & N & L & _).
  assert (Hi : forall P : Prop,
             footprint c = fp_primary \/ ~ (P /\ i = call_instance c)).
  { intros P. destruct c; cbn in Ht |- *; auto; right; intros [_ ->];
      rewrite Z.eqb_refl in Ht; discriminate. }
  repeat split; intros f;
    [apply V | apply F | apply B | apply N | apply L];
    match goal with
    | |- ~ (?P /\ _) =>
        destruct (Hi P) as [E | E]; [rewrite E; cbn; tauto | exact E]
    end.
Qed.

(** X1: calls made for other instances (or [update_primary]) leave every
    array entry and low-pass filter of instance [i] as it was, along any
    run. *)
Theorem other_instances_untouched calls i s :
  forallb (fun c => negb (targets i c)) calls = true ->
  (forall f, vecs (run calls s) f i = vecs s f i)
  /\ (forall f, floats (run calls s) f i = floats s f i)
  /\ (forall f, flags (run calls s) f i = flags s f i)
  /\ (forall f, ints (run calls s) f i = ints s f i)
  /\ (forall f, filters (run calls s) f i = filters s f i).
Proof.
  revert s. induction calls as [|c calls IH]; intros s H.
  - cbn. repeat split; reflexivity.
  - cbn in H. apply andb_prop in H. destruct H as [Hc H].
    apply negb_true_iff in Hc.
    destruct (step_keeps_instance c i s Hc) as (V & F & B & N & L).
    destruct (IH (step c s) H) as (V' & F' & B' & N' & L').
    change (run (c :: calls) s) with (run calls (step c s)).
    repeat split; intros f;
      [rewrite V', V | rewrite F', F | rewrite B', B | rewrite N', N
       | rewrite L', L]; reflexivity.
Qed.

(** X2: on an instance that has been killed, a run of calls that are
    either behind the kill guard of that instance or made for another
    instance leaves every array entry and low-pass filter of the instance
    as it was. *)
Theorem killed_instance_stays_frozen calls i s :
  has_been_killed i s = true ->
  forallb (spares i) calls = true ->
  (forall f, vecs (run calls s) f i = vecs s f i)
  /\ (forall f, floats (run calls s) f i = floats s f i)
  /\ (forall f, flags (run calls s) f i = flags s f i)
  /\ (forall f, ints (run calls s) f i = ints s f i)
  /\ (forall f, filters (run calls s) f i = filters s f i).
Proof.
  revert s. induction calls as [|c calls IH]; intros s Hk H.
  - cbn. repeat split; reflexivity.
  - cbn in H. apply andb_prop in H. destruct H as [Hc H].
    change (run (c :: calls) s) with (run calls (step c s)).
    unfold spares in Hc. apply orb_prop in Hc. destruct Hc as [Hc | Hc].
    + rewrite (guarded_step_on_killed i c s Hk Hc). apply IH; assumption.
    + apply negb_true_iff in Hc.
      destruct (step_keeps_instance c i s Hc) as (V & F & B & N & L).
      assert (Hk' : has_been_killed i (step c s) = true).
      { unfold has_been_killed in *. rewrite step_killed. exact Hk. }
      destruct (IH (step c s) Hk' H) as (V' & F' & B' & N' & L').
      repeat split; intros f;
        [rewrite V', V | rewrite F', F | rewrite B', B | rewrite N', N
         | rewrite L', L]; reflexivity.
Qed.

Lemma update_gyro_filters_keeps_accel_cutoff e i s :
  _last_accel_filter_hz (update_gyro_filters e i s)
  = _last_accel_filter_hz s.
Proof.
  unfold update_gyro_filters.
  destruct (negb (_last_gyro_filter_hz s =? _gyro_filter_cutoff e)
            || sensors_converging e); reflexivity.
Qed.

Lemma update_accel_filters_keeps_gyro_cutoff e i s :
  _last_gyro_filter_hz (update_accel_filters e i s)
  = _last_gyro_filter_hz s.
Proof.
  unfold update_accel_filters.
  destruct (negb (_last_accel_filter_hz s =? _accel_filter_cutoff e));
    reflexivity.
Qed.

Lemma gyro_step_keeps_accel_cutoff c s :
  call_for Gyro c = true ->
  _last_accel_filter_hz (step c s) = _last_accel_filter_hz s.
Proof.
  intros H.
  destruct (step_writes_only c s) as (_ & _ & _ & _ & _ & _ & _ & U & _).
  destruct c; try discriminate H; try (apply U; reflexivity).
  cbn [step]. unfold update_gyro.
  destruct (has_been_killed instance s); [reflexivity|].
  rewrite update_gyro_filters_keeps_accel_cutoff.
  destruct (flags s _new_gyro_data instance); [|reflexivity].
  unfold _publish_gyro.
  destruct (has_been_killed instance s); reflexivity.
Qed.

Lemma accel_step_keeps_gyro_cutoff c s :
  call_for Accel c = true ->
  _last_gyro_filter_hz (step c s) = _last_gyro_filter_hz s.
Proof.
  intros H.
  destruct (step_writes_only c s) as (_ & _ & _ & _ & _ & _ & _ & U & _).
  destruct c; try discriminate H; try (apply U; reflexivity).
  cbn [step]. unfold update_accel.
  destruct (has_been_killed instance s); [reflexivity|].
  rewrite update_accel_filters_keeps_gyro_cutoff.
  destruct (flags s _new_accel_data instance); [|reflexivity].
  unfold _publish_accel.
  destruct (has_been_killed instance s); reflexivity.
Qed.

Lemma gyro_step_keeps_accel c s :
  call_for Gyro c = true ->
  (forall f i, vfield_sensor f = Accel ->
     vecs (step c s) f i = vecs s f i)
  /\ (forall f i, ffield_sensor f <> Some Gyro ->
        floats (step c s) f i = floats s f i)
  /\ (forall f i, bfield_sensor f = Accel ->
        flags (step c s) f i = flags s f i)
  /\ (forall f i, ifield_sensor f = Accel ->
        ints (step c s) f i = ints s f i)
  /\ (forall i, filters (step c s) _accel_filter i
                = filters s _accel_filter i)
  /\ _last_accel_filter_hz (step c s) = _last_accel_filter_hz s.
Proof.
  intros H.
  destruct (step_writes_only c s) as (V & F & B & N & L & _).
  repeat split; [intros f i Hf; apply V | intros f i Hf; apply F
                 | intros f i Hf; apply B | intros f i Hf; apply N
                 | intros i; apply L
                 | apply gyro_step_keeps_accel_cutoff; exact H];
    intros [Hin _]; destruct c; try discriminate H;
    cbn in Hin; try destruct f; try (cbn in Hf); intuition congruence.
Qed.

Lemma accel_step_keeps_gyro c s :
  call_for Accel c = true ->
  (forall f i, vfield_sensor f = Gyro ->
     vecs (step c s) f i = vecs s f i)
  /\ (forall f i, ffield_sensor f <> Some Accel ->
        floats (step c s) f i = floats s f i)
  /\ (forall f i, bfield_sensor f = Gyro ->
        flags (step c s) f i = flags s f i)
  /\ (forall f i, ifield_sensor f = Gyro ->
        ints (step c s) f i = ints s f i)
  /\ (forall f i, lfield_sensor f = Gyro ->
        filters (step c s) f i = filters s f i)
  /\ harmonic_notches (step c s) = harmonic_notches s
  /\ is_primary (step c s) = is_primary s
  /\ last_primary_update_us (step c s) = last_primary_update_us s
  /\ set_primary_calls (step c s) = set_primary_calls s
  /\ _last_gyro_filter_hz (step c s) = _last_gyro_filter_hz s.
Proof.
  intros H.
  destruct (step_writes_only c s) as (V & F & B & N & L & Hn & P & _).
  assert (Hno : w_notches (footprint c) = false
                /\ w_primary (footprint c) = false).
  { destruct c; try discriminate H; split; reflexivity. }
  destruct Hno as [Hno Hnp]. destruct (P Hnp) as (P1 & P2 & P3).
  repeat split; [intros f i Hf; apply V | intros f i Hf; apply F
                 | intros f i Hf; apply B | intros f i Hf; apply N
                 | intros f i Hf; apply L
                 | apply Hn; exact Hno | exact P1 | exact P2 | exact P3
                 | apply accel_step_keeps_gyro_cutoff; exact H];
    intros [Hin _]; destruct c; try discriminate H;
    cbn in Hin; destruct f; cbn in Hf; intuition congruence.
Qed.

(** X3: the two sensors do not interfere.  A run of gyro calls leaves
    every accel array, the accel filters, the temperature and the cached
    accel cutoff as they were; a run of accel calls leaves every gyro
    array, the gyro filters, the notches, the primary heartbeat, the
    temperature and the cached gyro cutoff as they were. *)
Theorem sensors_do_not_interfere calls s :
  (forallb (call_for Gyro) calls = true ->
   (forall f i, vfield_sensor f = Accel ->
      vecs (run calls s) f i = vecs s f i)
   /\ (forall f i, ffield_sensor f <> Some Gyro ->
         floats (run calls s) f i = floats s f i)
   /\ (forall f i, bfield_sensor f = Accel ->
         flags (run calls s) f i = flags s f i)
   /\ (forall f i, ifield_sensor f = Accel ->
         ints (run calls s) f i = ints s f i)
   /\ (forall i, filters (run calls s) _accel_filter i
                 = filters s _accel_filter i)
   /\ _last_accel_filter_hz (run calls s) = _last_accel_filter_hz s)
  /\ (forallb (call_for Accel) calls = true ->
      (forall f i, vfield_sensor f = Gyro ->
         vecs (run calls s) f i = vecs s f i)
      /\ (forall f i, ffield_sensor f <> Some Accel ->
            floats (run calls s) f i = floats s f i)
      /\ (forall f i, bfield_sensor f = Gyro ->
            flags (run calls s) f i = flags s f i)
      /\ (forall f i, ifield_sensor f = Gyro ->
            ints (run calls s) f i = ints s f i)
      /\ (forall f i, lfield_sensor f = Gyro ->
            filters (run calls s) f i = filters s f i)
      /\ harmonic_notches (run calls s) = harmonic_notches s
      /\ is_primary (run calls s) = is_primary s
      /\ last_primary_update_us (run calls s) = last_primary_update_us s
      /\ set_primary_calls (run calls s) = set_primary_calls s
      /\ _last_gyro_filter_hz (run calls s) = _last_gyro_filter_hz s).
Proof.
  split; revert s; induction calls as [|c calls IH]; intros s H;
    try (cbn; repeat split; reflexivity);
    cbn in H; apply andb_prop in H; destruct H as [Hc H];
    change (run (c :: calls) s) with (run calls (step c s)).
  - destruct (gyro_step_keeps_accel c s Hc) as (V & F & B & N & L & U).
    destruct (IH (step c s) H) as (V' & F' & B' & N' & L' & U').
    repeat split; intros;
      [rewrite V', V | rewrite F', F | rewrite B', B | rewrite N', N
       | rewrite L', L | rewrite U', U]; auto.
  - destruct (accel_step_keeps_gyro c s Hc)
      as (V & F & B & N & L & Hn & P1 & P2 & P3 & U).
    destruct (IH (step c s) H)
      as (V' & F' & B' & N' & L' & Hn' & P1' & P2' & P3' & U').
    repeat split; intros;
      [rewrite V', V | rewrite F', F | rewrite B', B | rewrite N', N
       | rewrite L', L | rewrite Hn', Hn | rewrite P1', P1
       | rewrite P2', P2 | rewrite P3', P3 | rewrite U', U]; auto.
Qed.

(** ** Error counters *)

Lemma step_gyro_error_count c i s :
  ints (step c s) _gyro_error_count i
  = match c with
    | Inc_gyro_error_count j =>
        if j =? i then uint32 (ints s _gyro_error_count i + 1)
        else ints s _gyro_error_count i
    | _ => ints s _gyro_error_count i
    end.
Proof.
  destruct (step_writes_only c s) as (_ & _ & _ & N & _).
  destruct c; try (apply N; cbn; intuition congruence).
  cbn [step]. unfold _inc_gyro_error_count.
  destruct (Z.eqb_spec instance i) as [->|Hne]; store.
Qed.

Lemma step_accel_error_count c i s :
  ints (step c s) _accel_error_count i
  = match c with
    | Inc_accel_error_count j =>
        if j =? i then uint32 (ints s _accel_error_count i + 1)
        else ints s _accel_error_count i
    | _ => ints s _accel_error_count i
    end.
Proof.
  destruct (step_writes_only c s) as (_ & _ & _ & N & _).
  destruct c; try (apply N; cbn; intuition congruence).
  cbn [step]. unfold _inc_accel_error_count.
  destruct (Z.eqb_spec instance i) as [->|Hne]; store.
Qed.

Lemma uint32_range n : 0 <= uint32 n < 2 ^ 32.
Proof. unfold uint32. apply Z.mod_pos_bound. lia. Qed.

Lemma uint32_succ_add a n : uint32 (uint32 (a + 1) + n) = uint32 (a + (1 + n)).
Proof.
  unfold uint32. rewrite Zplus_mod_idemp_l. f_equal. lia.
Qed.

Lemma uint32_small n : 0 <= n < 2 ^ 32 -> uint32 n = n.
Proof. intros H. unfold uint32. apply Z.mod_small. exact H. Qed.

(** X4: along any run the error counter of an instance is its initial
    value plus the number of [_inc_gyro_error_count] (or
    [_inc_accel_error_count]) calls made for that instance, wrapped at 32
    bits; no other call changes it and the kill flag does not stop the
    count. *)
Theorem error_counters_count_reports calls i s :
  0 <= ints s _gyro_error_count i < 2 ^ 32 ->
  0 <= ints s _accel_error_count i < 2 ^ 32 ->
  ints (run calls s) _gyro_error_count i
  = uint32 (ints s _gyro_error_count i + gyro_errors_reported i calls)
  /\ ints (run calls s) _accel_error_count i
     = uint32 (ints s _accel_error_count i
               + accel_errors_reported i calls).
Proof.
  revert s. induction calls as [|c calls IH]; intros s Hg Ha.
  - cbn. rewrite !Z.add_0_r, !uint32_small by assumption. auto.
  - change (run (c :: calls) s) with (run calls (step c s)).
    assert (Hg' : 0 <= ints (step c s) _gyro_error_count i < 2 ^ 32).
    { rewrite step_gyro_error_count.
      destruct c; try exact Hg.
      destruct (instance =? i); [apply uint32_range | exact Hg]. }
    assert (Ha' : 0 <= ints (step c s) _accel_error_count i < 2 ^ 32).
    { rewrite step_accel_error_count.
      destruct c; try exact Ha.
      destruct (instance =? i); [apply uint32_range | exact Ha]. }
    destruct (IH (step c s) Hg' Ha') as [IHg IHa].
    rewrite IHg, IHa, step_gyro_error_count, step_accel_error_count.
    destruct c; cbn [gyro_errors_reported accel_errors_reported];
      try (split; reflexivity);
      destruct (instance =? i); cbn [Z.add];
      try (split; reflexivity);
      rewrite uint32_succ_add; split; reflexivity.
Qed.

(** ** The rate window *)

Lemma update_sensor_rate_window e count start_us rate_hz :
  let '(count', start_us', _) :=
    _update_sensor_rate e count start_us rate_hz in
  0 <= count' < 2 ^ 16 /\ (start_us' = 0 -> count' = 0).
Proof.
  unfold _update_sensor_rate.
  destruct (Z.eqb_spec start_us 0) as [E0|Hne]; [split; [lia | auto]|].
  destruct (1000000 <? uint32 (micros e - start_us)).
  - destruct (sensors_converging e); split; (lia || auto).
  - split; [apply Z.mod_pos_bound; lia | intros; contradiction].
Qed.

Lemma update_gyro_sensor_rate_window e i s :
  let s' := update_gyro_sensor_rate e i s in
  0 <= ints s' _sample_gyro_count i < 2 ^ 16
  /\ (ints s' _sample_gyro_start_us i = 0 ->
      ints s' _sample_gyro_count i = 0).
Proof.
  cbv zeta. unfold update_gyro_sensor_rate.
  pose proof (update_sensor_rate_window e (ints s _sample_gyro_count i)
                (ints s _sample_gyro_start_us i)
                (floats s _gyro_raw_sample_rates i)) as H.
  destruct (_update_sensor_rate e (ints s _sample_gyro_count i)
              (ints s _sample_gyro_start_us i)
              (floats s _gyro_raw_sample_rates i)) as [[c st] r].
  replace (ints (set_float _gyro_raw_sample_rates i r
                   (set_int _sample_gyro_start_us i st
                      (set_int _sample_gyro_count i c s)))
             _sample_gyro_count i) with c by store.
  replace (ints (set_float _gyro_raw_sample_rates i r
                   (set_int _sample_gyro_start_us i st
                      (set_int _sample_gyro_count i c s)))
             _sample_gyro_start_us i) with st by store.
  exact H.
Qed.

Lemma update_accel_sensor_rate_window e i s :
  let s' := update_accel_sensor_rate e i s in
  0 <= ints s' _sample_accel_count i < 2 ^ 16
  /\ (ints s' _sample_accel_start_us i = 0 ->
      ints s' _sample_accel_count i = 0).
Proof.
  cbv zeta. unfold update_accel_sensor_rate.
  pose proof (update_sensor_rate_window e (ints s _sample_accel_count i)
                (ints s _sample_accel_start_us i)
                (floats s _accel_raw_sample_rates i)) as H.
  destruct (_update_sensor_rate e (ints s _sample_accel_count i)
              (ints s _sample_accel_start_us i)
              (floats s _accel_raw_sample_rates i)) as [[c st] r].
  replace (ints (set_float _accel_raw_sample_rates i r
                   (set_int _sample_accel_start_us i st
                      (set_int _sample_accel_count i c s)))
             _sample_accel_count i) with c by store.
  replace (ints (set_float _accel_raw_sample_rates i r
                   (set_int _sample_accel_start_us i st
                      (set_int _sample_accel_count i c s)))
             _sample_accel_start_us i) with st by store.
  exact H.
Qed.

Lemma integrate_delta_angle_ints e i g s f j :
  ints (integrate_delta_angle e i g s) f j = ints s f j.
Proof.
  unfold integrate_delta_angle. cbv zeta.
  match goal with
  | |- ints (set_flag _ _ _ (apply_gyro_filters e i ?v ?t)) f j = _ =>
      change (ints (apply_gyro_filters e i v t) f j = ints s f j);
      destruct (apply_gyro_filters_writes e i v t) as (_ & _ & _ & N & _);
      rewrite N by (cbn; tauto)
  end.
  destruct (stale_gap (micros64_lock e) (gs_last_sample_us g));
    reflexivity.
Qed.

Lemma integrate_delta_velocity_ints e i a s f j :
  ints (integrate_delta_velocity e i a s) f j = ints s f j.
Proof.
  destruct (integrate_delta_velocity_writes e i a s) as (_ & _ & _ & N & _).
  unfold integrate_delta_velocity. cbv zeta.
  destruct (apply _ (as_accel a)) as [flt v].
  match goal with
  | |- context [if ?b then set_filter _ _ _ _ else _] => destruct b
  end;
  destruct (stale_gap (micros64_lock e) (as_last_sample_us a));
    reflexivity.
Qed.

Lemma gyro_raw_sample_ints e i gyro sample_us s f j :
  f <> _gyro_last_sample_us ->
  ints (fst (gyro_raw_sample e i gyro sample_us s)) f j
  = ints (update_gyro_sensor_rate e i s) f j.
Proof.
  intros Hf. unfold gyro_raw_sample. cbv zeta.
  destruct (gyro_sample_dt e i sample_us (update_gyro_sensor_rate e i s))
    as [[[s' dt] su]|] eqn:E; [|reflexivity].
  apply gyro_sample_dt_writes in E. destruct E as (_ & _ & _ & N & _).
  cbn [fst]. apply N. cbn. intuition congruence.
Qed.

Lemma accel_raw_sample_ints e i accel sample_us s f j :
  f <> _accel_last_sample_us ->
  ints (fst (accel_raw_sample e i accel sample_us s)) f j
  = ints (update_accel_sensor_rate e i s) f j.
Proof.
  intros Hf. unfold accel_raw_sample. cbv zeta.
  destruct (accel_sample_dt e i sample_us (update_accel_sensor_rate e i s))
    as [[[s' dt] su]|] eqn:E; [|reflexivity].
  apply accel_sample_dt_writes in E. destruct E as (_ & _ & _ & N & _).
  cbn [fst]. apply N. cbn. intuition congruence.
Qed.

Lemma delta_angle_sample_ints e i dangle s f j :
  f <> _gyro_last_sample_us ->
  ints (fst (delta_angle_sample e i dangle s)) f j
  = ints (update_gyro_sensor_rate e i s) f j.
Proof.
  intros Hf. unfold delta_angle_sample. cbv zeta.
  destruct (_ <? f_40)%f32; [reflexivity|]. store.
Qed.

Lemma delta_velocity_sample_ints e i dvel s f j :
  f <> _accel_last_sample_us ->
  ints (fst (delta_velocity_sample e i dvel s)) f j
  = ints (update_accel_sensor_rate e i s) f j.
Proof.
  intros Hf. unfold delta_velocity_sample. cbv zeta.
  destruct (_ <? f_40)%f32; [reflexivity|]. store.
Qed.

(** What a call leaves in the rate-window fields of an instance: the
    FIFO resets zero them, a sample that passes the kill guard leaves
    what [_update_sensor_rate] produced, every other call leaves them
    alone. *)
Lemma step_gyro_window c i s f :
  f = _sample_gyro_count \/ f = _sample_gyro_start_us ->
  ints (step c s) f i
  = match c with
    | Notify_gyro_fifo_reset j => if j =? i then 0 else ints s f i
    | Notify_new_gyro_raw_sample e j _ _ | Notify_new_delta_angle e j _ =>
        if (j =? i) && negb (has_been_killed j s)
        then ints (update_gyro_sensor_rate e i s) f i
        else ints s f i
    | _ => ints s f i
    end.
Proof.
  intros Hf.
  assert (Hl : f <> _gyro_last_sample_us) by (destruct Hf; congruence).
  destruct (step_writes_only c s) as (_ & _ & _ & N & _).
  destruct c; try (apply N; cbn; destruct Hf; intuition congruence);
    destruct (Z.eqb_spec instance i) as [->|Hne];
    try (apply N; cbn; intuition congruence); cbn [step andb].
  - unfold notify_gyro_fifo_reset. destruct Hf; subst f; store.
  - unfold _notify_new_gyro_raw_sample.
    destruct (has_been_killed i s); [reflexivity|]. cbn [negb].
    rewrite <- (gyro_raw_sample_ints e i gyro sample_us s f i Hl).
    destruct (gyro_raw_sample e i gyro sample_us s) as [s1 [g|]];
      [|reflexivity].
    cbn [fst].
    destruct (update_primary_arrays e (integrate_delta_angle e i g s1))
      as (_ & _ & _ & ->).
    apply integrate_delta_angle_ints.
  - unfold _notify_new_delta_angle.
    destruct (has_been_killed i s); [reflexivity|]. cbn [negb].
    rewrite <- (delta_angle_sample_ints e i dangle s f i Hl).
    destruct (delta_angle_sample e i dangle s) as [s1 [g|]];
      [|reflexivity].
    cbn [fst].
    destruct (update_primary_arrays e (integrate_delta_angle e i g s1))
      as (_ & _ & _ & ->).
    apply integrate_delta_angle_ints.
Qed.

Lemma step_accel_window c i s f :
  f = _sample_accel_count \/ f = _sample_accel_start_us ->
  ints (step c s) f i
  = match c with
    | Notify_accel_fifo_reset j => if j =? i then 0 else ints s f i
    | Notify_new_accel_raw_sample e j _ _ _
    | Notify_new_delta_velocity e j _ =>
        if (j =? i) && negb (has_been_killed j s)
        then ints (update_accel_sensor_rate e i s) f i
        else ints s f i
    | _ => ints s f i
    end.
Proof.
  intros Hf.
  assert (Hl : f <> _accel_last_sample_us) by (destruct Hf; congruence).
  destruct (step_writes_only c s) as (_ & _ & _ & N & _).
  destruct c; try (apply N; cbn; destruct Hf; intuition congruence);
    destruct (Z.eqb_spec instance i) as [->|Hne];
    try (apply N; cbn; intuition congruence); cbn [step andb].
  - unfold notify_accel_fifo_reset. destruct Hf; subst f; store.
  - unfold _notify_new_accel_raw_sample.
    destruct (has_been_killed i s); [reflexivity|]. cbn [negb].
    rewrite <- (accel_raw_sample_ints e i accel sample_us s f i Hl).
    destruct (accel_raw_sample e i accel sample_us s) as [s1 [a|]];
      [|reflexivity].
    cbn [fst]. apply integrate_delta_velocity_ints.
  - unfold _notify_new_delta_velocity.
    destruct (has_been_killed i s); [reflexivity|]. cbn [negb].
    rewrite <- (delta_velocity_sample_ints e i dvel s f i Hl).
    destruct (delta_velocity_sample e i dvel s) as [s1 [a|]];
      [|reflexivity].
    cbn [fst]. apply integrate_delta_velocity_ints.
Qed.

Lemma step_rate_window c i s :
  rate_window_ok s i -> rate_window_ok (step c s) i.
Proof.
  unfold rate_window_ok. intros [Hg Ha].
  rewrite (step_gyro_window c i s _sample_gyro_count) by auto.
  rewrite (step_gyro_window c i s _sample_gyro_start_us) by auto.
  rewrite (step_accel_window c i s _sample_accel_count) by auto.
  rewrite (step_accel_window c i s _sample_accel_start_us) by auto.
  split.
  - destruct c; try exact Hg.
    + destruct (instance =? i); [split; [lia | auto] | exact Hg].
    + destruct ((instance =? i) && negb (has_been_killed instance s));
        [apply update_gyro_sensor_rate_window | exact Hg].
    + destruct ((instance =? i) && negb (has_been_killed instance s));
        [apply update_gyro_sensor_rate_window | exact Hg].
  - destruct c; try exact Ha.
    + destruct (instance =? i); [split; [lia | auto] | exact Ha].
    + destruct ((instance =? i) && negb (has_been_killed instance s));
        [apply update_accel_sensor_rate_window | exact Ha].
    + destruct ((instance =? i) && negb (has_been_killed instance s));
        [apply update_accel_sensor_rate_window | exact Ha].
Qed.

(** X5: the rate window stays well formed along any run: the sample
    counts are 16-bit values and a window whose start time is 0 has
    counted nothing.  A FIFO reset, or the first sample of a live
    instance, establishes this whatever the fields held before. *)
Theorem rate_window_stays_well_formed calls i s :
  (rate_window_ok s i -> rate_window_ok (run calls s) i)
  /\ rate_window_ok
       (run calls (notify_accel_fifo_reset i (notify_gyro_fifo_reset i s)))
       i
  /\ (forall e gyro accel sample_us fsync_set,
        has_been_killed i s = false ->
        rate_window_ok
          (run calls
             (_notify_new_accel_raw_sample e i accel sample_us fsync_set
                (_notify_new_gyro_raw_sample e i gyro sample_us s)))
          i).
Proof.
  assert (R : forall calls s,
             rate_window_ok s i -> rate_window_ok (run calls s) i).
  { clear. induction calls as [|c calls IH]; intros s H; [exact H|].
    change (run (c :: calls) s) with (run calls (step c s)).
    apply IH, step_rate_window, H. }
  split; [apply R|]. split.
  - apply R. unfold rate_window_ok.
    change (notify_accel_fifo_reset i (notify_gyro_fifo_reset i s))
      with (step (Notify_accel_fifo_reset i)
              (step (Notify_gyro_fifo_reset i) s)).
    rewrite (step_accel_window _ i _ _sample_accel_count) by auto.
    rewrite (step_accel_window _ i _ _sample_accel_start_us) by auto.
    destruct (step_writes_only (Notify_accel_fifo_reset i)
                (step (Notify_gyro_fifo_reset i) s))
      as (_ & _ & _ & N & _).
    rewrite !N by (cbn; intuition congruence).
    rewrite (step_gyro_window _ i _ _sample_gyro_count) by auto.
    rewrite (step_gyro_window _ i _ _sample_gyro_start_us) by auto.
    rewrite Z.eqb_refl. repeat split; (lia || auto).
  - intros e gyro accel sample_us fsync_set Hk. apply R.
    unfold rate_window_ok.
    set (s1 := _notify_new_gyro_raw_sample e i gyro sample_us s).
    change (_notify_new_accel_raw_sample e i accel sample_us fsync_set s1)
      with (step (Notify_new_accel_raw_sample e i accel sample_us
                    fsync_set) s1).
    assert (Hk1 : has_been_killed i s1 = false).
    { unfold has_been_killed, s1.
      change (_notify_new_gyro_raw_sample e i gyro sample_us s)
        with (step (Notify_new_gyro_raw_sample e i gyro sample_us) s).
      rewrite step_killed. exact Hk. }
    rewrite (step_accel_window _ i _ _sample_accel_count) by auto.
    rewrite (step_accel_window _ i _ _sample_accel_start_us) by auto.
    destruct (step_writes_only
                (Notify_new_accel_raw_sample e i accel sample_us fsync_set)
                s1) as (_ & _ & _ & N & _).
    rewrite !N by (cbn; intuition congruence).
    rewrite Z.eqb_refl, Hk1. cbn [andb negb].
    split; [|apply update_accel_sensor_rate_window].
    unfold s1.
    change (_notify_new_gyro_raw_sample e i gyro sample_us s)
      with (step (Notify_new_gyro_raw_sample e i gyro sample_us) s).
    rewrite (step_gyro_window _ i _ _sample_gyro_count) by auto.
    rewrite (step_gyro_window _ i _ _sample_gyro_start_us) by auto.
    rewrite Z.eqb_refl, Hk. cbn [andb negb].
    apply update_gyro_sensor_rate_window.
Qed.

(** ** Publishing *)

Lemma update_gyro_filters_arrays e i s :
  vecs (update_gyro_filters e i s) = vecs s
  /\ floats (update_gyro_filters e i s) = floats s
  /\ flags (update_gyro_filters e i s) = flags s
  /\ ints (update_gyro_filters e i s) = ints s.
Proof.
  unfold update_gyro_filters. destruct (_ || _); auto.
Qed.

Lemma update_accel_filters_arrays e i s :
  vecs (update_accel_filters e i s) = vecs s
  /\ floats (update_accel_filters e i s) = floats s
  /\ flags (update_accel_filters e i s) = flags s
  /\ ints (update_accel_filters e i s) = ints s.
Proof.
  unfold update_accel_filters. destruct (negb _); auto.
Qed.

Lemma update_gyro_publishes e i s :
  has_been_killed i s = false -> flags s _new_gyro_data i = true ->
  let s1 := update_gyro e i s in
  vecs s1 _gyro i = vecs s _gyro_filtered i
  /\ flags s1 _gyro_healthy i = true
  /\ vecs s1 _delta_angle i = vecs s _delta_angle_acc i
  /\ floats s1 _delta_angle_dt i = floats s _delta_angle_acc_dt i
  /\ flags s1 _delta_angle_valid i = true
  /\ vecs s1 _gyro_for_fft i = vecs s _last_gyro_for_fft i
  /\ flags s1 _new_gyro_data i = false.
Proof.
  intros Hk Hn. cbv zeta. unfold update_gyro. rewrite Hk, Hn.
  match goal with
  | |- context [update_gyro_filters e i ?t] =>
      destruct (update_gyro_filters_arrays e i t) as (-> & -> & -> & _)
  end.
  unfold _publish_gyro. rewrite Hk.
  repeat split; store.
Qed.

Lemma update_accel_publishes e i s :
  has_been_killed i s = false -> flags s _new_accel_data i = true ->
  let s1 := update_accel e i s in
  vecs s1 _accel i = vecs s _accel_filtered i
  /\ flags s1 _accel_healthy i = true
  /\ vecs s1 _delta_velocity i = vecs s _delta_velocity_acc i
  /\ floats s1 _delta_velocity_dt i = floats s _delta_velocity_acc_dt i
  /\ flags s1 _delta_velocity_valid i = true
  /\ flags s1 _new_accel_data i = false.
Proof.
  intros Hk Hn. cbv zeta. unfold update_accel. rewrite Hk, Hn.
  match goal with
  | |- context [update_accel_filters e i ?t] =>
      destruct (update_accel_filters_arrays e i t) as (-> & -> & -> & _)
  end.
  unfold _publish_accel. rewrite Hk.
  repeat split; store.
Qed.

Lemma update_gyro_idle e i s :
  flags s _new_gyro_data i = false ->
  vecs (update_gyro e i s) = vecs s
  /\ floats (update_gyro e i s) = floats s
  /\ flags (update_gyro e i s) = flags s
  /\ ints (update_gyro e i s) = ints s.
Proof.
  intros Hn. unfold update_gyro. rewrite Hn.
  destruct (has_been_killed i s); [auto|].
  apply update_gyro_filters_arrays.
Qed.

Lemma update_accel_idle e i s :
  flags s _new_accel_data i = false ->
  vecs (update_accel e i s) = vecs s
  /\ floats (update_accel e i s) = floats s
  /\ flags (update_accel e i s) = flags s
  /\ ints (update_accel e i s) = ints s.
Proof.
  intros Hn. unfold update_accel. rewrite Hn.
  destruct (has_been_killed i s); [auto|].
  apply update_accel_filters_arrays.
Qed.

(** X6: with new data pending, [update_gyro] (and [update_accel])
    publishes the stored filtered value and the accumulated delta, marks
    the instance healthy and clears the new-data flag; a second update
    before the next sample publishes nothing: it leaves every array as the
    first one left it, so the published delta is not overwritten by the
    emptied accumulator. *)
Theorem update_publishes_new_data_once e e' i s :
  has_been_killed i s = false ->
  (flags s _new_gyro_data i = true ->
   let s1 := update_gyro e i s in
   vecs s1 _gyro i = vecs s _gyro_filtered i
   /\ flags s1 _gyro_healthy i = true
   /\ vecs s1 _delta_angle i = vecs s _delta_angle_acc i
   /\ floats s1 _delta_angle_dt i = floats s _delta_angle_acc_dt i
   /\ vecs s1 _gyro_for_fft i = vecs s _last_gyro_for_fft i
   /\ flags s1 _new_gyro_data i = false
   /\ let s2 := update_gyro e' i s1 in
      vecs s2 = vecs s1 /\ floats s2 = floats s1
      /\ flags s2 = flags s1 /\ ints s2 = ints s1)
  /\ (flags s _new_accel_data i = true ->
      let s1 := update_accel e i s in
      vecs s1 _accel i = vecs s _accel_filtered i
      /\ flags s1 _accel_healthy i = true
      /\ vecs s1 _delta_velocity i = vecs s _delta_velocity_acc i
      /\ floats s1 _delta_velocity_dt i
         = floats s _delta_velocity_acc_dt i
      /\ flags s1 _new_accel_data i = false
      /\ let s2 := update_accel e' i s1 in
         vecs s2 = vecs s1 /\ floats s2 = floats s1
         /\ flags s2 = flags s1 /\ ints s2 = ints s1).
Proof.
  intros Hk. split; intros Hn; cbv zeta.
  - destruct (update_gyro_publishes e i s Hk Hn)
      as (H1 & H2 & H3 & H4 & _ & H5 & H6).
    repeat split; try assumption; apply (update_gyro_idle e' i _ H6).
  - destruct (update_accel_publishes e i s Hk Hn)
      as (H1 & H2 & H3 & H4 & _ & H6).
    repeat split; try assumption; apply (update_accel_idle e' i _ H6).
Qed.

(** X7: from drained accumulators, after any run that leaves new data
    pending, the delta angle and its time that [update_gyro] publishes are
    the binary32 sums, in arrival order, of the contributions folded
    since the last drain or stale-gap restart; the same for
    [update_accel] and the delta velocity. *)
Theorem published_delta_is_sum_of_contributions calls e i s :
  has_been_killed i s = false ->
  (vecs s _delta_angle_acc i = vzero ->
   floats s _delta_angle_acc_dt i = f_0 ->
   flags (run calls s) _new_gyro_data i = true ->
   let h := contributions delta_angle_folding calls i s [] in
   let s' := update_gyro e i (run calls s) in
   vecs s' _delta_angle i = sum_value h
   /\ floats s' _delta_angle_dt i = sum_dt h
   /\ flags s' _delta_angle_valid i = true)
  /\ (vecs s _delta_velocity_acc i = vzero ->
      floats s _delta_velocity_acc_dt i = f_0 ->
      flags (run calls s) _new_accel_data i = true ->
      let h := contributions delta_velocity_folding calls i s [] in
      let s' := update_accel e i (run calls s) in
      vecs s' _delta_velocity i = sum_value h
      /\ floats s' _delta_velocity_dt i = sum_dt h
      /\ flags s' _delta_velocity_valid i = true).
Proof.
  intros Hk.
  assert (Hk' : has_been_killed i (run calls s) = false).
  { unfold has_been_killed in *. rewrite run_killed. exact Hk. }
  split; intros Hv Ht Hn; cbv zeta.
  - destruct (update_gyro_publishes e i _ Hk' Hn)
      as (_ & _ & -> & -> & H & _).
    destruct (contributions_sums delta_angle_folding _delta_angle_acc
                _delta_angle_acc_dt delta_angle_step calls i s [] Hv Ht)
      as [-> ->].
    auto.
  - destruct (update_accel_publishes e i _ Hk' Hn)
      as (_ & _ & -> & -> & H & _).
    destruct (contributions_sums delta_velocity_folding _delta_velocity_acc
                _delta_velocity_acc_dt delta_velocity_step calls i s []
                Hv Ht)
      as [-> ->].
    auto.
Qed.

(** X8: the gyro reading never turns non-finite.  If the filtered and the
    published gyro of every instance are finite and the driver publishes
    only finite values directly, they are finite after any run, whatever
    samples were fed in: a sample whose filter output is NaN or infinite
    resets the filters and keeps the previous filtered value. *)
Theorem gyro_output_never_turns_nonfinite calls s :
  forallb publishes_finite calls = true ->
  (forall i, vfinite (vecs s _gyro_filtered i) = true
             /\ vfinite (vecs s _gyro i) = true) ->
  forall i, vfinite (vecs (run calls s) _gyro_filtered i) = true
            /\ vfinite (vecs (run calls s) _gyro i) = true.
Proof.
  intros Hp Hs i. destruct (Hs i) as [Hf Hg].
  apply gyro_reading_stays_finite; assumption.
Qed.

(** ** The notch loop *)

Lemma notch_kept_except_refl i (n : HarmonicNotch NF) :
  notch_kept_except i n n.
Proof. unfold notch_kept_except. auto. Qed.

Lemma notch_kept_except_trans i (n1 n2 n3 : HarmonicNotch NF) :
  notch_kept_except i n1 n2 -> notch_kept_except i n2 n3 ->
  notch_kept_except i n1 n3.
Proof.
  intros (A1 & A2 & A3 & A4) (B1 & B2 & B3 & B4).
  unfold notch_kept_except.
  rewrite B1, B2, B3. repeat split; auto.
  intros j Hj. rewrite B4, A4 by exact Hj. reflexivity.
Qed.

Lemma set_notch_filter_kept i v (n : HarmonicNotch NF) :
  notch_kept_except i n (set_notch_filter i v n).
Proof.
  unfold notch_kept_except. cbn. repeat split.
  intros j Hj. unfold insert, fn_insert. case_decide; congruence.
Qed.

Lemma Forall2_kept_refl i (l : list (HarmonicNotch NF)) :
  Forall2 (notch_kept_except i) l l.
Proof. induction l; constructor; auto using notch_kept_except_refl. Qed.

Lemma Forall2_kept_trans i (l1 l2 l3 : list (HarmonicNotch NF)) :
  Forall2 (notch_kept_except i) l1 l2 ->
  Forall2 (notch_kept_except i) l2 l3 ->
  Forall2 (notch_kept_except i) l1 l3.
Proof.
  intros H. revert l3. induction H; intros l3 H3; inversion H3; subst;
    constructor; eauto using notch_kept_except_trans.
Qed.

Lemma Forall2_kept_reset i (l : list (HarmonicNotch NF)) :
  Forall2 (notch_kept_except i) l (map (reset_notch i) l).
Proof.
  induction l; cbn; constructor; auto.
  apply set_notch_filter_kept.
Qed.

Lemma apply_harmonic_notches_kept e i notches gyro phase s :
  Forall2 (notch_kept_except i) notches
    (fst (fst (fst (apply_harmonic_notches e i notches gyro phase s)))).
Proof.
  revert gyro phase s.
  induction notches as [|notch rest IH]; intros gyro phase s; cbn.
  - constructor.
  - destruct (negb (params_enabled notch)).
    + specialize (IH gyro phase s).
      destruct (apply_harmonic_notches e i rest gyro phase s)
        as [[[r g] p] s'].
      constructor; [apply notch_kept_except_refl | exact IH].
    + destruct (is_inactive notch
                || negb (params_EnableOnAllIMUs notch)
                   && negb (i =? _primary e)).
      * specialize (IH gyro (uint8 (phase + 1))
                      (save_gyro_window e i gyro phase s)).
        destruct (apply_harmonic_notches e i rest gyro
                    (uint8 (phase + 1)) _) as [[[r g] p] s'].
        constructor; [apply set_notch_filter_kept | exact IH].
      * destruct (apply (notch_filter notch i) gyro) as [f v].
        specialize (IH v (uint8 (phase + 1))
                      (save_gyro_window e i v phase s)).
        destruct (apply_harmonic_notches e i rest v
                    (uint8 (phase + 1)) _) as [[[r g] p] s'].
        constructor; [apply set_notch_filter_kept | exact IH].
Qed.

Lemma record_gyro_filtered_notches e i v s :
  harmonic_notches (record_gyro_filtered e i v s) = harmonic_notches s.
Proof.
  unfold record_gyro_filtered.
  destruct (is_rate_loop_gyro_enabled e i);
    [destruct (push_next_gyro_sample e v)|]; reflexivity.
Qed.

Lemma save_gyro_window_notches e i gyro phase s :
  harmonic_notches (save_gyro_window e i gyro phase s)
  = harmonic_notches s.
Proof.
  destruct (save_gyro_window_writes e i gyro phase s)
    as (_ & _ & _ & _ & _ & N & _).
  apply N. reflexivity.
Qed.

Lemma apply_gyro_filters_kept e i gyro s :
  Forall2 (notch_kept_except i) (harmonic_notches s)
    (harmonic_notches (apply_gyro_filters e i gyro s)).
Proof.
  unfold apply_gyro_filters.
  pose proof (save_gyro_window_notches e i gyro 0 s) as H0.
  set (s0 := save_gyro_window e i gyro 0 s) in *.
  pose proof (apply_harmonic_notches_kept e i (harmonic_notches s0)
                gyro (uint8 (0 + 1)) s0) as H1.
  destruct (apply_harmonic_notches e i (harmonic_notches s0) gyro
              (uint8 (0 + 1)) s0) as [[[notches g] p] s1].
  cbn [fst] in H1. rewrite H0 in H1.
  destruct (apply (filters (with_harmonic_notches notches s1)
                     _gyro_filter i) g) as [f v].
  destruct (is_nan v || is_inf v);
    rewrite record_gyro_filtered_notches.
  - cbn. eapply Forall2_kept_trans; [exact H1|].
    apply Forall2_kept_reset.
  - exact H1.
Qed.

Lemma integrate_delta_angle_kept e i g s :
  Forall2 (notch_kept_except i) (harmonic_notches s)
    (harmonic_notches (integrate_delta_angle e i g s)).
Proof.
  unfold integrate_delta_angle. cbv zeta.
  match goal with
  | |- Forall2 _ _
         (harmonic_notches (set_flag _ _ _ (apply_gyro_filters e i ?v ?t)))
    => change (Forall2 (notch_kept_except i) (harmonic_notches s)
                 (harmonic_notches (apply_gyro_filters e i v t)));
       replace (harmonic_notches s) with (harmonic_notches t);
       [apply apply_gyro_filters_kept|]
  end.
  destruct (stale_gap (micros64_lock e) (gs_last_sample_us g));
    reflexivity.
Qed.

(** What a call that is not [update_gyro] does to the notches: it keeps
    their number, order and parameters, and every filter but the ones of
    the call's own instance. *)
Lemma step_notches_kept c s :
  retunes_notches c = false ->
  Forall2 (notch_kept_except (call_instance c)) (harmonic_notches s)
    (harmonic_notches (step c s)).
Proof.
  intros Hr.
  destruct (step_writes_only c s) as (_ & _ & _ & _ & _ & N & _).
  destruct c; try discriminate Hr;
    try (rewrite N by reflexivity; apply Forall2_kept_refl);
    cbn [step call_instance].
  - unfold _notify_new_gyro_raw_sample.
    destruct (has_been_killed instance s); [apply Forall2_kept_refl|].
    pose proof (gyro_raw_sample_writes e instance gyro sample_us s)
      as (_ & _ & _ & _ & _ & N1 & _).
    destruct (gyro_raw_sample e instance gyro sample_us s) as [s1 [g|]];
      cbn [fst] in N1; rewrite <- (N1 eq_refl);
      [|apply Forall2_kept_refl].
    destruct (update_primary_writes e instance
                (integrate_delta_angle e instance g s1))
      as (_ & _ & _ & _ & _ & N2 & _).
    rewrite (N2 eq_refl). apply integrate_delta_angle_kept.
  - unfold _notify_new_delta_angle.
    destruct (has_been_killed instance s); [apply Forall2_kept_refl|].
    pose proof (delta_angle_sample_writes e instance dangle s)
      as (_ & _ & _ & _ & _ & N1 & _).
    destruct (delta_angle_sample e instance dangle s) as [s1 [g|]];
      cbn [fst] in N1; rewrite <- (N1 eq_refl);
      [|apply Forall2_kept_refl].
    destruct (update_primary_writes e instance
                (integrate_delta_angle e instance g s1))
      as (_ & _ & _ & _ & _ & N2 & _).
    rewrite (N2 eq_refl). apply integrate_delta_angle_kept.
Qed.

Lemma Forall2_kept_at_refl i (l : list (HarmonicNotch NF)) :
  Forall2 (notch_kept_at i) l l.
Proof. induction l; constructor; unfold notch_kept_at; auto. Qed.

Lemma Forall2_kept_at_step i j (l1 l2 l3 : list (HarmonicNotch NF)) :
  j <> i ->
  Forall2 (notch_kept_except j) l1 l2 ->
  Forall2 (notch_kept_at i) l2 l3 ->
  Forall2 (notch_kept_at i) l1 l3.
Proof.
  intros Hj H. revert l3. induction H as [|n1 n2 l1 l2 Hn H IH];
    intros l3 H3; inversion H3 as [|? n3 ? l3' Hn3 H3']; subst;
    constructor; auto.
  destruct Hn as (A1 & A2 & A3 & A4). destruct Hn3 as (B1 & B2 & B3 & B4).
  unfold notch_kept_at. rewrite B1, B2, B3, B4.
  repeat split; auto.
Qed.

(** X9: the notch list is stable.  Along any run without [update_gyro],
    the harmonic notches keep their number, order and parameters, and
    calls made for other instances leave the notch filters of instance
    [i] as they were: samples of one IMU never disturb the notch filter
    state of another. *)
Theorem notch_filters_of_other_instances_kept calls i s :
  forallb (fun c => negb (retunes_notches c) && negb (targets i c)) calls
  = true ->
  Forall2 (notch_kept_at i) (harmonic_notches s)
    (harmonic_notches (run calls s))
  /\ length (harmonic_notches (run calls s))
     = length (harmonic_notches s).
Proof.
  intros H.
  assert (K : Forall2 (notch_kept_at i) (harmonic_notches s)
                (harmonic_notches (run calls s))).
  { revert s. induction calls as [|c calls IH]; intros s.
    - apply Forall2_kept_at_refl.
    - cbn in H. apply andb_prop in H. destruct H as [Hc H].
      apply andb_prop in Hc. destruct Hc as [Hr Ht].
      apply negb_true_iff in Hr. apply negb_true_iff in Ht.
      change (run (c :: calls) s) with (run calls (step c s)).
      destruct (call_target c) as [j|] eqn:Ej.
      + apply (Forall2_kept_at_step i (call_instance c) _
                 (harmonic_notches (step c s))).
        * unfold targets in Ht. rewrite Ej in Ht.
          destruct c; cbn in Ej |- *; try discriminate Ej;
            injection Ej as <-; intros ->;
            rewrite Z.eqb_refl in Ht; discriminate.
        * apply step_notches_kept. exact Hr.
        * apply IH. exact H.
      + destruct c; try discriminate Ej.
        destruct (step_writes_only (Update_primary e) s)
          as (_ & _ & _ & _ & _ & N & _).
        rewrite <- (N eq_refl). apply IH. exact H. }
  split; [exact K|]. symmetry. eapply Forall2_length. exact K.
Qed.

Lemma apply_harmonic_notches_bypass e i notches gyro phase s :
  (i =? _primary e) = false ->
  forallb (fun n => negb (params_EnableOnAllIMUs n)) notches = true ->
  fst (fst (fst (apply_harmonic_notches e i notches gyro phase s)))
  = map (bypassed i) notches
  /\ snd (fst (fst (apply_harmonic_notches e i notches gyro phase s)))
     = gyro.
Proof.
  intros Hp. revert phase s.
  induction notches as [|notch rest IH]; intros phase s H; cbn.
  - auto.
  - cbn in H. apply andb_prop in H. destruct H as [Hn H].
    unfold bypassed at 1.
    destruct (params_enabled notch); cbn [negb].
    + rewrite Hn, Hp, orb_true_r.
      destruct (IH (uint8 (phase + 1))
                  (save_gyro_window e i gyro phase s) H) as [I1 I2].
      destruct (apply_harmonic_notches e i rest gyro
                  (uint8 (phase + 1)) _) as [[[r g] p] s'].
      cbn in *. subst. auto.
    + destruct (IH phase s H) as [I1 I2].
      destruct (apply_harmonic_notches e i rest gyro phase s)
        as [[[r g] p] s'].
      cbn in *. subst. auto.
Qed.

(** X10: on an instance that is not the primary, with no notch set to run
    on all IMUs, the notches are bypassed: the low-pass filter receives
    the raw gyro, its finite output becomes the filtered gyro, a disabled
    notch is left alone and every enabled notch has its filter of this
    instance reset. *)
Theorem notches_bypassed_off_primary e i gyro s :
  (i =? _primary e) = false ->
  forallb (fun n => negb (params_EnableOnAllIMUs n)) (harmonic_notches s)
  = true ->
  is_rate_loop_gyro_enabled e i = false ->
  let out := snd (apply (filters s _gyro_filter i) gyro) in
  vfinite out = true ->
  let s' := apply_gyro_filters e i gyro s in
  vecs s' _gyro_filtered i = out
  /\ harmonic_notches s' = map (bypassed i) (harmonic_notches s)
  /\ filters s' _gyro_filter i = fst (apply (filters s _gyro_filter i) gyro).
Proof.
  intros Hp Hn Hr out Hout. cbv zeta. unfold apply_gyro_filters.
  pose proof (save_gyro_window_writes e i gyro 0 s) as H0.
  set (s0 := save_gyro_window e i gyro 0 s) in *.
  pose proof (apply_harmonic_notches_writes e i (harmonic_notches s0)
                gyro (uint8 (0 + 1)) s0) as H1.
  assert (Hs0 : harmonic_notches s0 = harmonic_notches s)
    by apply save_gyro_window_notches.
  rewrite <- Hs0 in Hn.
  destruct (apply_harmonic_notches_bypass e i (harmonic_notches s0) gyro
              (uint8 (0 + 1)) s0 Hp Hn) as [B1 B2].
  destruct (apply_harmonic_notches e i (harmonic_notches s0) gyro
              (uint8 (0 + 1)) s0) as [[[notches g] p] s1].
  cbn [fst snd] in H1, B1, B2. subst g notches.
  assert (Hf : filters (with_harmonic_notches
                          (map (bypassed i) (harmonic_notches s0)) s1)
                 _gyro_filter i
               = filters s _gyro_filter i).
  { cbn. destruct H1 as (_ & _ & _ & _ & L1 & _).
    destruct H0 as (_ & _ & _ & _ & L0 & _).
    rewrite L1, L0 by (cbn; intuition congruence). reflexivity. }
  rewrite Hf. subst out.
  destruct (apply (filters s _gyro_filter i) gyro) as [f v].
  cbn [snd fst] in *.
  unfold vfinite in Hout. apply negb_true_iff in Hout. rewrite Hout.
  unfold record_gyro_filtered. rewrite Hr.
  rewrite Hs0. repeat split; store.
Qed.

(** ** The FFT tap *)

Lemma save_gyro_window_off_phase e i gyro phase s :
  _fft_window_phase e <> phase -> save_gyro_window e i gyro phase s = s.
Proof.
  intros H. unfold save_gyro_window.
  destruct (Z.eqb_spec (_fft_window_phase e) phase); [contradiction|].
  reflexivity.
Qed.

Lemma uint8_idem n : uint8 (uint8 n) = uint8 n.
Proof. unfold uint8. apply Z.mod_mod. lia. Qed.

Lemma uint8_succ_add p k : uint8 (uint8 (p + 1) + k) = uint8 (p + (1 + k)).
Proof.
  unfold uint8. rewrite Zplus_mod_idemp_l. f_equal. lia.
Qed.

Lemma apply_harmonic_notches_off_phase e i notches gyro phase s :
  uint8 phase = phase ->
  (forall k, 0 <= k < Z.of_nat (length notches) ->
     uint8 (phase + k) <> _fft_window_phase e) ->
  snd (apply_harmonic_notches e i notches gyro phase s) = s.
Proof.
  revert gyro phase s.
  induction notches as [|notch rest IH]; intros gyro phase s Hp H; cbn.
  - reflexivity.
  - assert (Hrest : forall k, 0 <= k < Z.of_nat (length rest) ->
                      uint8 (phase + k) <> _fft_window_phase e).
    { intros k Hk. apply H. cbn [length]. lia. }
    assert (Hnext : forall k, 0 <= k < Z.of_nat (length rest) ->
                      uint8 (uint8 (phase + 1) + k)
                      <> _fft_window_phase e).
    { intros k Hk. rewrite uint8_succ_add. apply H. cbn [length]. lia. }
    assert (H0 : _fft_window_phase e <> phase).
    { intros E. apply (H 0); [cbn [length]; lia|].
      rewrite Z.add_0_r, Hp. auto. }
    destruct (negb (params_enabled notch)).
    + specialize (IH gyro phase s Hp Hrest).
      destruct (apply_harmonic_notches e i rest gyro phase s)
        as [[[r g] p] s']. exact IH.
    + destruct (is_inactive notch
                || negb (params_EnableOnAllIMUs notch)
                   && negb (i =? _primary e)).
      * rewrite save_gyro_window_off_phase by exact H0.
        specialize (IH gyro (uint8 (phase + 1)) s (uint8_idem _) Hnext).
        destruct (apply_harmonic_notches e i rest gyro
                    (uint8 (phase + 1)) s) as [[[r g] p] s'].
        exact IH.
      * destruct (apply (notch_filter notch i) gyro) as [f v].
        rewrite save_gyro_window_off_phase by exact H0.
        specialize (IH v (uint8 (phase + 1)) s (uint8_idem _) Hnext).
        destruct (apply_harmonic_notches e i rest v
                    (uint8 (phase + 1)) s) as [[[r g] p] s'].
        exact IH.
Qed.

Lemma record_gyro_filtered_keeps_tap e i v s :
  vecs (record_gyro_filtered e i v s) _last_gyro_for_fft i
  = vecs s _last_gyro_for_fft i.
Proof.
  unfold record_gyro_filtered.
  destruct (is_rate_loop_gyro_enabled e i);
    [destruct (push_next_gyro_sample e v)|]; store.
Qed.

Lemma apply_gyro_filters_tap e i gyro s :
  (forall k, 0 <= k < Z.of_nat (length (harmonic_notches s)) ->
     uint8 (1 + k) <> _fft_window_phase e) ->
  vecs (apply_gyro_filters e i gyro s) _last_gyro_for_fft i
  = vecs (save_gyro_window e i gyro 0 s) _last_gyro_for_fft i.
Proof.
  intros H. unfold apply_gyro_filters.
  pose proof (save_gyro_window_notches e i gyro 0 s) as H0.
  set (s0 := save_gyro_window e i gyro 0 s) in *.
  rewrite <- H0 in H.
  pose proof (apply_harmonic_notches_off_phase e i (harmonic_notches s0)
                gyro (uint8 (0 + 1)) s0 (uint8_idem _)) as H1.
  destruct (apply_harmonic_notches e i (harmonic_notches s0) gyro
              (uint8 (0 + 1)) s0) as [[[notches g] p] s1].
  cbn [snd] in H1. rewrite H1.
  2:{ intros k Hk. change (uint8 (0 + 1)) with 1. apply H. exact Hk. }
  destruct (apply (filters (with_harmonic_notches notches s0)
                     _gyro_filter i) g) as [f v].
  destruct (is_nan v || is_inf v);
    rewrite record_gyro_filtered_keeps_tap; reflexivity.
Qed.

(** X11: where the FFT tap sits.  With fewer than 256 notches and the tap
    at phase 0, what a sample leaves for the FFT is the unfiltered gyro
    times the sampling multiplier (when the tap has no low-pass filter of
    its own); with the tap at a phase beyond the number of notches, a
    sample leaves the value for the FFT untouched. *)
Theorem fft_tap_by_phase e i gyro s :
  (_fft_window_phase e = 0 ->
   (length (harmonic_notches s) < 256)%nat ->
   _post_filter_fft e = false ->
   vecs (apply_gyro_filters e i gyro s) _last_gyro_for_fft i
   = (gyro * of_int (_gyro_raw_sampling_multiplier e i))%v3)
  /\ (Z.of_nat (length (harmonic_notches s)) < _fft_window_phase e ->
      vecs (apply_gyro_filters e i gyro s) _last_gyro_for_fft i
      = vecs s _last_gyro_for_fft i).
Proof.
  split.
  - intros Hp Hl Hf. rewrite apply_gyro_filters_tap.
    + unfold save_gyro_window. rewrite Hp, Hf. cbn [Z.eqb].
      destruct (0 <? _gyro_window_size e); store.
    + intros k Hk. rewrite Hp. unfold uint8.
      rewrite Z.mod_small by lia. lia.
  - intros Hl. rewrite apply_gyro_filters_tap.
    + rewrite save_gyro_window_off_phase by lia. reflexivity.
    + intros k Hk. unfold uint8.
      pose proof (Z.mod_le (1 + k) (2 ^ 8)). lia.
Qed.

(** ** Retuning the low-pass filters *)

(** X12: the low-pass filters are retuned only on a change.  After
    [update_gyro_filters] the cached cutoff is the configured one; when
    the cache already holds it and the sensors are not converging, the
    call leaves every low-pass filter as it is.  [update_accel_filters]
    does the same and does not look at convergence. *)
Theorem filters_retuned_only_on_change e i s :
  _last_gyro_filter_hz (update_gyro_filters e i s) = _gyro_filter_cutoff e
  /\ _last_accel_filter_hz (update_accel_filters e i s)
     = _accel_filter_cutoff e
  /\ (sensors_converging e = false ->
      _last_gyro_filter_hz s = _gyro_filter_cutoff e ->
      filters (update_gyro_filters e i s) = filters s)
  /\ (_last_accel_filter_hz s = _accel_filter_cutoff e ->
      update_accel_filters e i s = s)
  /\ (sensors_converging e = false ->
      filters (update_gyro_filters e i (update_gyro_filters e i s))
      = filters (update_gyro_filters e i s))
  /\ update_accel_filters e i (update_accel_filters e i s)
     = update_accel_filters e i s.
Proof.
  assert (G : _last_gyro_filter_hz (update_gyro_filters e i s)
              = _gyro_filter_cutoff e).
  { unfold update_gyro_filters.
    destruct (Z.eqb_spec (_last_gyro_filter_hz s) (_gyro_filter_cutoff e));
      cbn [negb orb]; [destruct (sensors_converging e)|]; cbn; auto. }
  assert (A : _last_accel_filter_hz (update_accel_filters e i s)
              = _accel_filter_cutoff e).
  { unfold update_accel_filters.
    destruct (Z.eqb_spec (_last_accel_filter_hz s)
                (_accel_filter_cutoff e)); cbn; auto. }
  assert (G' : forall s, sensors_converging e = false ->
                 _last_gyro_filter_hz s = _gyro_filter_cutoff e ->
                 filters (update_gyro_filters e i s) = filters s).
  { intros s0 Hc Hs. unfold update_gyro_filters.
    rewrite Hc, Hs, Z.eqb_refl. reflexivity. }
  assert (A' : forall s, _last_accel_filter_hz s = _accel_filter_cutoff e ->
                 update_accel_filters e i s = s).
  { intros s0 Hs. unfold update_accel_filters.
    rewrite Hs, Z.eqb_refl. reflexivity. }
  repeat split; auto.
Qed.

(** X13: the cached cutoff belongs to the backend, not to the instance.
    Once an update of instance [i] has retuned its filter and stored the
    cutoff, an update of another instance [j] of the same backend finds
    the cache up to date and leaves the low-pass filter of [j] untuned
    (for the gyro, once the sensors have converged). *)
Theorem cutoff_cache_is_shared_between_instances e i j s :
  j <> i ->
  filters (update_accel_filters e j (update_accel_filters e i s))
    _accel_filter j
  = filters s _accel_filter j
  /\ (sensors_converging e = false ->
      forall f,
        filters (update_gyro_filters e j (update_gyro_filters e i s)) f j
        = filters s f j).
Proof.
  intros Hj. split.
  - assert (A : _last_accel_filter_hz (update_accel_filters e i s)
                = _accel_filter_cutoff e).
    { unfold update_accel_filters.
      destruct (Z.eqb_spec (_last_accel_filter_hz s)
                  (_accel_filter_cutoff e)); cbn; auto. }
    unfold update_accel_filters at 1. rewrite A, Z.eqb_refl. cbn [negb].
    destruct (update_accel_filters_writes e i s) as (_ & _ & _ & _ & L & _).
    apply L. intuition congruence.
  - intros Hc f.
    assert (G : _last_gyro_filter_hz (update_gyro_filters e i s)
                = _gyro_filter_cutoff e).
    { unfold update_gyro_filters.
      destruct (Z.eqb_spec (_last_gyro_filter_hz s)
                  (_gyro_filter_cutoff e));
        cbn [negb orb]; [destruct (sensors_converging e)|]; cbn; auto. }
    unfold update_gyro_filters at 1. rewrite G, Hc, Z.eqb_refl.
    cbn [negb orb].
    change (filters (update_gyro_filters e i s) f j = filters s f j).
    destruct (update_gyro_filters_writes e i s) as (_ & _ & _ & _ & L & _).
    apply L. intuition congruence.
Qed.

(** ** Accepting a raw sample *)

Lemma integrate_delta_angle_effect e i g s :
  let s' := integrate_delta_angle e i g s in
  flags s' _new_gyro_data i = true
  /\ vecs s' _last_raw_gyro i = gs_gyro g.
Proof.
  cbv zeta. unfold integrate_delta_angle. cbv zeta. split.
  - unfold set_flag at 1. cbn [flags with_flags].
    unfold insert, fn_insert. repeat case_decide; congruence.
  - match goal with
    | |- vecs (set_flag _ _ _ (apply_gyro_filters e i ?v ?t)) _ _ = _ =>
        change (vecs (apply_gyro_filters e i v t) _last_raw_gyro i
                = gs_gyro g);
        destruct (apply_gyro_filters_writes e i v t) as (V & _);
        rewrite V by (cbn; intuition congruence)
    end.
    unfold set_vec at 1. cbn [vecs with_vecs].
    unfold insert, fn_insert. repeat case_decide; congruence.
Qed.

Lemma integrate_delta_velocity_flag e i a s :
  flags (integrate_delta_velocity e i a s) _new_accel_data i = true.
Proof.
  unfold integrate_delta_velocity. cbv zeta.
  destruct (apply _ (as_accel a)) as [flt v].
  unfold set_flag at 1. cbn [flags with_flags].
  unfold insert, fn_insert. repeat case_decide; congruence.
Qed.

Lemma gyro_raw_sample_accept e i gyro sample_us s s1 g :
  has_been_killed i s = false ->
  gyro_raw_sample e i gyro sample_us s = (s1, Some g) ->
  let s' := _notify_new_gyro_raw_sample e i gyro sample_us s in
  let stale :=
    stale_gap (micros64_lock e) (ints s _gyro_last_sample_us i) in
  ints s' _gyro_last_sample_us i = ints s1 _gyro_last_sample_us i
  /\ flags s' _new_gyro_data i = true
  /\ vecs s' _last_raw_gyro i = gyro
  /\ floats s' _delta_angle_acc_dt i
     = ((if stale then f_0 else floats s _delta_angle_acc_dt i)
        + (if stale then f_0 else gs_dt g))%f32.
Proof.
  intros Hk E. cbv zeta. unfold _notify_new_gyro_raw_sample.
  rewrite Hk, E.
  destruct (gyro_raw_sample_accepted e i gyro sample_us s s1 g E)
    as (Hg & _ & _ & Hl & _ & Hf).
  destruct (update_primary_arrays e (integrate_delta_angle e i g s1))
    as (-> & -> & -> & ->).
  destruct (integrate_delta_angle_effect e i g s1) as (-> & ->).
  destruct (integrate_delta_angle_acc e i g s1) as (_ & ->).
  rewrite integrate_delta_angle_ints, Hl, Hf. auto.
Qed.

Lemma accel_raw_sample_accept e i accel sample_us fsync_set s s1 a :
  has_been_killed i s = false ->
  accel_raw_sample e i accel sample_us s = (s1, Some a) ->
  let s' := _notify_new_accel_raw_sample e i accel sample_us fsync_set s in
  let stale :=
    stale_gap (micros64_lock e) (ints s _accel_last_sample_us i) in
  let dt := if stale then f_0 else as_dt a in
  ints s' _accel_last_sample_us i = ints s1 _accel_last_sample_us i
  /\ flags s' _new_accel_data i = true
  /\ vecs s' _delta_velocity_acc i
     = ((if stale then vzero else vecs s _delta_velocity_acc i)
        + accel * dt)%v3
  /\ floats s' _delta_velocity_acc_dt i
     = ((if stale then f_0 else floats s _delta_velocity_acc_dt i)
        + dt)%f32.
Proof.
  intros Hk E. cbv zeta. unfold _notify_new_accel_raw_sample.
  rewrite Hk, E.
  destruct (accel_raw_sample_accepted e i accel sample_us s s1 a E)
    as (Ha & Hl & Hv & Hf).
  destruct (integrate_delta_velocity_acc e i a s1) as (-> & ->).
  rewrite integrate_delta_velocity_ints, integrate_delta_velocity_flag.
  rewrite Hl, Hf, Hv, Ha. auto.
Qed.

Lemma gyro_rate_keeps_last_sample e i s :
  ints (update_gyro_sensor_rate e i s) _gyro_last_sample_us i
  = ints s _gyro_last_sample_us i.
Proof.
  destruct (update_gyro_sensor_rate_writes e i s) as (_ & _ & _ & N & _).
  apply N. cbn. intuition congruence.
Qed.

Lemma accel_rate_keeps_last_sample e i s :
  ints (update_accel_sensor_rate e i s) _accel_last_sample_us i
  = ints s _accel_last_sample_us i.
Proof.
  destruct (update_accel_sensor_rate_writes e i s) as (_ & _ & _ & N & _).
  apply N. cbn. intuition congruence.
Qed.

(** X14: a raw sample that carries a time stamp, on an instance that has
    a previous sample time, is accepted whatever the rate estimate says:
    the 40 Hz guard is not consulted.  The time step is the 64-bit
    difference of the two stamps times 1e-6, the stamp becomes the
    last-sample time and the new-data flag is set. *)
Theorem timestamped_sample_is_always_accepted e i gyro accel sample_us
    fsync_set s :
  has_been_killed i s = false ->
  sample_us <> 0 ->
  (ints s _gyro_last_sample_us i <> 0 ->
   let last := ints s _gyro_last_sample_us i in
   let stale := stale_gap (micros64_lock e) last in
   let dt := (of_int (uint64 (sample_us - last)) * f_1em6)%f32 in
   let s' := _notify_new_gyro_raw_sample e i gyro sample_us s in
   ints s' _gyro_last_sample_us i = sample_us
   /\ flags s' _new_gyro_data i = true
   /\ vecs s' _last_raw_gyro i = gyro
   /\ floats s' _delta_angle_acc_dt i
      = ((if stale then f_0 else floats s _delta_angle_acc_dt i)
         + (if stale then f_0 else dt))%f32)
  /\ (ints s _accel_last_sample_us i <> 0 ->
      let last := ints s _accel_last_sample_us i in
      let stale := stale_gap (micros64_lock e) last in
      let dt :=
        if stale then f_0
        else (of_int (uint64 (sample_us - last)) * f_1em6)%f32 in
      let s' :=
        _notify_new_accel_raw_sample e i accel sample_us fsync_set s in
      ints s' _accel_last_sample_us i = sample_us
      /\ flags s' _new_accel_data i = true
      /\ vecs s' _delta_velocity_acc i
         = ((if stale then vzero else vecs s _delta_velocity_acc i)
            + accel * dt)%v3
      /\ floats s' _delta_velocity_acc_dt i
         = ((if stale then f_0 else floats s _delta_velocity_acc_dt i)
            + dt)%f32).
Proof.
  intros Hk Hs. split; intros Hl; cbv zeta.
  - assert (E : exists s1 g,
               gyro_raw_sample e i gyro sample_us s = (s1, Some g)
               /\ ints s1 _gyro_last_sample_us i = sample_us
               /\ gs_dt g
                  = (of_int (uint64 (sample_us
                                     - ints s _gyro_last_sample_us i))
                     * f_1em6)%f32).
    { unfold gyro_raw_sample. cbv zeta. unfold gyro_sample_dt.
      rewrite gyro_rate_keeps_last_sample.
      destruct (Z.eqb_spec sample_us 0); [contradiction|].
      destruct (Z.eqb_spec (ints s _gyro_last_sample_us i) 0);
        [contradiction|].
      cbn [negb andb]. eexists _, _. split; [reflexivity|].
      split; [store | reflexivity]. }
    destruct E as (s1 & g & E & E1 & E2).
    destruct (gyro_raw_sample_accept e i gyro sample_us s s1 g Hk E)
      as (-> & -> & -> & ->).
    rewrite E1, E2. auto.
  - assert (E : exists s1 a,
               accel_raw_sample e i accel sample_us s = (s1, Some a)
               /\ ints s1 _accel_last_sample_us i = sample_us
               /\ as_dt a
                  = (of_int (uint64 (sample_us
                                     - ints s _accel_last_sample_us i))
                     * f_1em6)%f32).
    { unfold accel_raw_sample. cbv zeta. unfold accel_sample_dt.
      rewrite accel_rate_keeps_last_sample.
      destruct (Z.eqb_spec sample_us 0); [contradiction|].
      destruct (Z.eqb_spec (ints s _accel_last_sample_us i) 0);
        [contradiction|].
      cbn [negb andb]. eexists _, _. split; [reflexivity|].
      split; [store | reflexivity]. }
    destruct E as (s1 & a & E & E1 & E2).
    destruct (accel_raw_sample_accept e i accel sample_us fsync_set s s1 a
                Hk E) as (-> & -> & -> & ->).
    rewrite E1, E2. auto.
Qed.

(** X15: a raw sample without a time stamp goes by the rate estimate, as
    this call's [_update_sensor_rate] step leaves it.  Below 40 Hz the
    sample is dropped: no vector, flag, filter or notch changes and the
    last-sample time stays.  Otherwise it is accepted with a time step of
    1/rate; the last-sample time becomes the clock reading and the
    new-data flag is set. *)
Theorem untimed_sample_goes_by_rate e i gyro accel fsync_set s :
  has_been_killed i s = false ->
  (let rate :=
     floats (update_gyro_sensor_rate e i s) _gyro_raw_sample_rates i in
   let s' := _notify_new_gyro_raw_sample e i gyro 0 s in
   ((rate <? f_40)%f32 = true ->
    s' = update_gyro_sensor_rate e i s
    /\ vecs s' = vecs s /\ flags s' = flags s
    /\ ints s' _gyro_last_sample_us i = ints s _gyro_last_sample_us i)
   /\ ((rate <? f_40)%f32 = false ->
       let stale :=
         stale_gap (micros64_lock e) (ints s _gyro_last_sample_us i) in
       ints s' _gyro_last_sample_us i = micros64_sample e
       /\ flags s' _new_gyro_data i = true
       /\ vecs s' _last_raw_gyro i = gyro
       /\ floats s' _delta_angle_acc_dt i
          = ((if stale then f_0 else floats s _delta_angle_acc_dt i)
             + (if stale then f_0 else f_1 / rate))%f32))
  /\ (let rate :=
        floats (update_accel_sensor_rate e i s) _accel_raw_sample_rates i in
      let s' := _notify_new_accel_raw_sample e i accel 0 fsync_set s in
      ((rate <? f_40)%f32 = true ->
       s' = update_accel_sensor_rate e i s
       /\ vecs s' = vecs s /\ flags s' = flags s
       /\ ints s' _accel_last_sample_us i = ints s _accel_last_sample_us i)
      /\ ((rate <? f_40)%f32 = false ->
          let stale :=
            stale_gap (micros64_lock e) (ints s _accel_last_sample_us i) in
          let dt := if stale then f_0 else (f_1 / rate)%f32 in
          ints s' _accel_last_sample_us i = micros64_sample e
          /\ flags s' _new_accel_data i = true
          /\ vecs s' _delta_velocity_acc i
             = ((if stale then vzero else vecs s _delta_velocity_acc i)
                + accel * dt)%v3
          /\ floats s' _delta_velocity_acc_dt i
             = ((if stale then f_0
                 else floats s _delta_velocity_acc_dt i) + dt)%f32)).
Proof.
  intros Hk. split; cbv zeta; split; intros Hr.
  - unfold _notify_new_gyro_raw_sample. rewrite Hk.
    unfold gyro_raw_sample. cbv zeta. unfold gyro_sample_dt.
    cbn [Z.eqb negb andb]. rewrite Hr.
    split; [reflexivity|].
    unfold update_gyro_sensor_rate.
    destruct (_update_sensor_rate _ _ _ _) as [[c st] r].
    repeat split; store.
  - assert (E : exists s1 g,
               gyro_raw_sample e i gyro 0 s = (s1, Some g)
               /\ ints s1 _gyro_last_sample_us i = micros64_sample e
               /\ gs_dt g
                  = (f_1 / floats (update_gyro_sensor_rate e i s)
                             _gyro_raw_sample_rates i)%f32).
    { unfold gyro_raw_sample. cbv zeta. unfold gyro_sample_dt.
      cbn [Z.eqb negb andb]. rewrite Hr.
      eexists _, _. split; [reflexivity|].
      split; [store | reflexivity]. }
    destruct E as (s1 & g & E & E1 & E2).
    destruct (gyro_raw_sample_accept e i gyro 0 s s1 g Hk E)
      as (-> & -> & -> & ->).
    rewrite E1, E2. auto.
  - unfold _notify_new_accel_raw_sample. rewrite Hk.
    unfold accel_raw_sample. cbv zeta. unfold accel_sample_dt.
    cbn [Z.eqb negb andb]. rewrite Hr.
    split; [reflexivity|].
    unfold update_accel_sensor_rate.
    destruct (_update_sensor_rate _ _ _ _) as [[c st] r].
    repeat split; store.
  - assert (E : exists s1 a,
               accel_raw_sample e i accel 0 s = (s1, Some a)
               /\ ints s1 _accel_last_sample_us i = micros64_sample e
               /\ as_dt a
                  = (f_1 / floats (update_accel_sensor_rate e i s)
                             _accel_raw_sample_rates i)%f32).
    { unfold accel_raw_sample. cbv zeta. unfold accel_sample_dt.
      cbn [Z.eqb negb andb]. rewrite Hr.
      eexists _, _. split; [reflexivity|].
      split; [store | reflexivity]. }
    destruct E as (s1 & a & E & E1 & E2).
    destruct (accel_raw_sample_accept e i accel 0 fsync_set s s1 a Hk E)
      as (-> & -> & -> & ->).
    rewrite E1, E2. auto.
Qed.

(** ** The primary heartbeat *)

Lemma update_primary_log e s :
  exists new,
    set_primary_calls (update_primary e s) = new ++ set_primary_calls s
    /\ (length new <= 1)%nat
    /\ is_primary (update_primary e s) = hd (is_primary s) new.
Proof.
  unfold update_primary.
  destruct (negb _ || timeout_expired _ _ _).
  - exists [gyro_instance s =? _primary e]. cbn. auto.
  - exists []. cbn. auto.
Qed.

Lemma integrate_delta_angle_primary e i g s :
  is_primary (integrate_delta_angle e i g s) = is_primary s
  /\ set_primary_calls (integrate_delta_angle e i g s)
     = set_primary_calls s.
Proof.
  unfold integrate_delta_angle. cbv zeta.
  match goal with
  | |- is_primary (set_flag _ _ _ (apply_gyro_filters e i ?v ?t)) = _ /\ _
    => change (is_primary (apply_gyro_filters e i v t) = is_primary s
               /\ set_primary_calls (apply_gyro_filters e i v t)
                  = set_primary_calls s);
       destruct (apply_gyro_filters_writes e i v t)
         as (_ & _ & _ & _ & _ & _ & P & _);
       destruct (P eq_refl) as (-> & _ & ->)
  end.
  destruct (stale_gap (micros64_lock e) (gs_last_sample_us g)); auto.
Qed.

Lemma step_primary_log c s :
  exists new,
    set_primary_calls (step c s) = new ++ set_primary_calls s
    /\ (length new <= if reaches_update_primary c s then 1 else 0)%nat
    /\ is_primary (step c s) = hd (is_primary s) new.
Proof.
  destruct (step_writes_only c s) as (_ & _ & _ & _ & _ & _ & P & _).
  destruct c;
    try (destruct (P eq_refl) as (P1 & _ & P3); exists [];
         rewrite P1, P3; cbn; auto with arith);
    cbn [step reaches_update_primary].
  - unfold _notify_new_gyro_raw_sample.
    destruct (has_been_killed instance s); cbn [negb andb];
      [exists []; auto with arith|].
    pose proof (gyro_raw_sample_writes e instance gyro sample_us s)
      as (_ & _ & _ & _ & _ & _ & P1 & _).
    destruct (P1 eq_refl) as (Q1 & _ & Q3).
    destruct (gyro_raw_sample e instance gyro sample_us s) as [s1 [g|]];
      cbn [fst snd] in Q1, Q3 |- *.
    + destruct (update_primary_log e (integrate_delta_angle e instance g s1))
        as (new & H1 & H2 & H3).
      destruct (integrate_delta_angle_primary e instance g s1) as [I1 I2].
      exists new. rewrite H1, H3, I1, I2, Q1, Q3. auto.
    + exists []. cbn. rewrite Q1, Q3. auto with arith.
  - unfold _notify_new_delta_angle.
    destruct (has_been_killed instance s); cbn [negb andb];
      [exists []; auto with arith|].
    pose proof (delta_angle_sample_writes e instance dangle s)
      as (_ & _ & _ & _ & _ & _ & P1 & _).
    destruct (P1 eq_refl) as (Q1 & _ & Q3).
    destruct (delta_angle_sample e instance dangle s) as [s1 [g|]];
      cbn [fst snd] in Q1, Q3 |- *.
    + destruct (update_primary_log e (integrate_delta_angle e instance g s1))
        as (new & H1 & H2 & H3).
      destruct (integrate_delta_angle_primary e instance g s1) as [I1 I2].
      exists new. rewrite H1, H3, I1, I2, Q1, Q3. auto.
    + exists []. cbn. rewrite Q1, Q3. auto with arith.
  - apply update_primary_log.
Qed.

(** X16: the notifications of [set_primary] along a run.  A run only
    adds notifications in front of the ones already made, at most one
    for each call that reaches [update_primary]: [update_primary] itself,
    or a gyro sample that passes the kill guard and is not dropped.  A
    gyro sample of a killed instance and a dropped one count for
    nothing.  Afterwards the stored primary state is the one last
    notified, or the initial one if none was. *)
Theorem primary_notifications_along_run calls s :
  exists new,
    set_primary_calls (run calls s) = new ++ set_primary_calls s
    /\ (length new <= heartbeat_calls calls s)%nat
    /\ is_primary (run calls s) = hd (is_primary s) new.
Proof.
  revert s. induction calls as [|c calls IH]; intros s.
  - exists []. cbn. auto.
  - change (run (c :: calls) s) with (run calls (step c s)).
    destruct (step_primary_log c s) as (n1 & A1 & A2 & A3).
    destruct (IH (step c s)) as (n2 & B1 & B2 & B3).
    exists (n2 ++ n1). rewrite B1, A1, B3, A3, length_app, <- app_assoc.
    split; [reflexivity|]. split.
    + cbn [heartbeat_calls].
      destruct (reaches_update_primary c s); lia.
    + destruct n2; reflexivity.
Qed.

(** X17: the heartbeat is rate limited.  After any [update_primary] the
    stored primary state agrees with the front end's choice, and a
    further call with the same primary within 200 ms of the stored update
    time changes nothing and notifies nobody. *)
Theorem primary_heartbeat_is_rate_limited e e' s :
  _primary e' = _primary e ->
  let s1 := update_primary e s in
  is_primary s1 = (gyro_instance s =? _primary e)
  /\ (uint32 (micros_primary e' - last_primary_update_us s1) <= 200000 ->
      update_primary e' s1 = s1).
Proof.
  intros Hp. cbv zeta.
  assert (H1 : is_primary (update_primary e s)
               = (gyro_instance s =? _primary e)).
  { unfold update_primary.
    destruct (eqb (is_primary s) (gyro_instance s =? _primary e)) eqn:E;
      cbn [negb orb].
    - apply eqb_prop in E.
      destruct (timeout_expired _ _ _); [reflexivity | exact E].
    - reflexivity. }
  assert (H2 : gyro_instance (update_primary e s) = gyro_instance s).
  { unfold update_primary.
    destruct (negb _ || timeout_expired _ _ _); reflexivity. }
  split; [exact H1|]. intros Ht.
  unfold update_primary at 1.
  rewrite H1, H2, Hp, eqb_reflx. cbn [negb orb].
  unfold timeout_expired, PRIMARY_UPDATE_TIMEOUT_US.
  destruct (Z.ltb_spec 200000
              (uint32 (micros_primary e'
                       - last_primary_update_us (update_primary e s))));
    [lia | reflexivity].
Qed.

(** ** Where a raw sample is logged *)

(** X18: where [log_gyro_raw] puts a gyro sample.  It is written to the
    logger exactly when a logger exists and ALL_GYROS is set, or
    PRIMARY_GYRO_ONLY is set and the instance is the primary, or the
    raw-IMU log bit is on; it goes to the batch sampler exactly when a
    logger exists, none of these holds and the sampler is not logging at
    sensor rate.  Never both, at most two records, all with the sample's
    time stamp; without a logger nothing is recorded, not even for the
    batch sampler. *)
Theorem gyro_raw_log_sinks le e i sample_us raw filtered :
  let evs := log_gyro_raw le e i sample_us raw filtered in
  let to_logger :=
    raw_logging_option_set le ALL_GYROS
    || raw_logging_option_set le PRIMARY_GYRO_ONLY && (i =? _primary e)
    || should_log_imu_raw le in
  existsb is_logger_write evs = logger_present le && to_logger
  /\ existsb is_batch_sample evs
     = logger_present le && negb to_logger
       && negb (doing_sensor_rate_logging le)
  /\ (existsb is_logger_write evs && existsb is_batch_sample evs = false)
  /\ (length evs <= 2)%nat
  /\ Forall (fun ev => event_time ev = sample_us) evs.
Proof.
  cbv zeta. unfold log_gyro_raw.
  destruct (logger_present le); cbn [negb andb];
    [|cbn; repeat split; auto].
  destruct (raw_logging_option_set le ALL_GYROS
            || raw_logging_option_set le PRIMARY_GYRO_ONLY
               && (i =? _primary e)
            || should_log_imu_raw le); cbn [negb andb].
  - destruct (raw_logging_option_set le PRE_AND_POST_FILTER);
      [|destruct (raw_logging_option_set le POST_FILTER)];
      cbn; repeat split; auto.
  - destruct (doing_sensor_rate_logging le); cbn; repeat split; auto.
Qed.

(** X19: where [log_accel_raw] puts an accel sample.  It is written to
    the logger exactly when the raw-IMU log bit is on, which needs a
    logger and a log bit other than [(uint32_t)-1]; the gyro options do
    not apply.  Otherwise, with a logger, it goes to the batch sampler
    unless that is logging at sensor rate. *)
Theorem accel_raw_log_sinks le i sample_us accel :
  let evs := log_accel_raw le i sample_us accel in
  (should_log_imu_raw le = true -> evs = [Write_ACC i sample_us accel])
  /\ (should_log_imu_raw le = false ->
      evs = if logger_present le && negb (doing_sensor_rate_logging le)
            then [Batch_sample i IMU_SENSOR_TYPE_ACCEL sample_us accel]
            else [])
  /\ (should_log_imu_raw le = true ->
      logger_present le = true /\ _log_raw_bit le <> 2 ^ 32 - 1
      /\ should_log le (_log_raw_bit le) = true).
Proof.
  cbv zeta. unfold log_accel_raw, should_log_imu_raw.
  destruct (Z.eqb_spec (_log_raw_bit le) (2 ^ 32 - 1)) as [E|E];
    destruct (logger_present le); cbn [negb andb];
    try destruct (should_log le (_log_raw_bit le)); cbn [negb];
    try destruct (doing_sensor_rate_logging le); cbn [negb];
    repeat split; intros; auto; discriminate.
Qed.

(** X20: the batch sampler is fed at one rate only.  When the
    sensor-rate notifications hand a sample to the batch sampler, the
    filter-rate logging calls hand it none, and the other way round, for
    the gyro and for the accel. *)
Theorem batch_sampler_is_fed_at_one_rate le e i sample_us raw filtered
    accel v :
  (_notify_new_gyro_sensor_rate_sample le e i v <> [] ->
   existsb is_batch_sample (log_gyro_raw le e i sample_us raw filtered)
   = false)
  /\ (_notify_new_accel_sensor_rate_sample le e i v <> [] ->
      existsb is_batch_sample (log_accel_raw le i sample_us accel)
      = false)
  /\ (existsb is_batch_sample (log_gyro_raw le e i sample_us raw filtered)
      = true ->
      _notify_new_gyro_sensor_rate_sample le e i v = [])
  /\ (existsb is_batch_sample (log_accel_raw le i sample_us accel) = true ->
      _notify_new_accel_sensor_rate_sample le e i v = []).
Proof.
  unfold _notify_new_gyro_sensor_rate_sample,
    _notify_new_accel_sensor_rate_sample, log_gyro_raw, log_accel_raw.
  destruct (doing_sensor_rate_logging le); cbn [negb].
  - destruct (logger_present le); cbn [negb].
    + destruct (raw_logging_option_set le ALL_GYROS
                || raw_logging_option_set le PRIMARY_GYRO_ONLY
                   && (i =? _primary e)
                || should_log_imu_raw le);
        [destruct (raw_logging_option_set le PRE_AND_POST_FILTER);
         [|destruct (raw_logging_option_set le POST_FILTER)]|];
        destruct (should_log_imu_raw le); cbn;
        repeat split; intros; auto; discriminate.
    + cbn. repeat split; intros; auto; discriminate.
  - repeat split; intros; auto; contradiction.
Qed.

(** X21: what a sample call logs is what it has stored.  If
    [_notify_new_gyro_raw_sample] logs anything, the sample has been
    accepted (the new-data flag is set), and the records are those of
    [log_gyro_raw] for the last-sample time, the raw gyro and the
    filtered gyro that the call leaves in the arrays; a killed instance
    or a dropped sample logs nothing.  The same for
    [_notify_new_accel_raw_sample], which logs the raw or the filtered
    accel as the batch sampler's post-filter setting says. *)
Theorem sample_log_matches_stored_sample le e i gyro accel sample_us
    fsync_set s :
  (let evs :=
     gyro_sample_log le e i (gyro_raw_sample e i gyro sample_us s) s in
   let s' := _notify_new_gyro_raw_sample e i gyro sample_us s in
   (has_been_killed i s = true -> evs = [])
   /\ (snd (gyro_raw_sample e i gyro sample_us s) = None -> evs = [])
   /\ (evs <> [] ->
       flags s' _new_gyro_data i = true
       /\ evs = log_gyro_raw le e i (ints s' _gyro_last_sample_us i) gyro
                  (vecs s' _gyro_filtered i)))
  /\ (let evs :=
        accel_sample_log le e i (accel_raw_sample e i accel sample_us s) s in
      let s' :=
        _notify_new_accel_raw_sample e i accel sample_us fsync_set s in
      (has_been_killed i s = true -> evs = [])
      /\ (snd (accel_raw_sample e i accel sample_us s) = None -> evs = [])
      /\ (evs <> [] ->
          flags s' _new_accel_data i = true
          /\ evs = log_accel_raw le i (ints s' _accel_last_sample_us i)
                     (if doing_post_filter_logging le
                      then vecs s' _accel_filtered i else accel))).
Proof.
  split; cbv zeta.
  - unfold gyro_sample_log.
    destruct (has_been_killed i s) eqn:Hk;
      [repeat split; intros; auto; contradiction|].
    destruct (gyro_raw_sample e i gyro sample_us s) as [s1 [g|]] eqn:E;
      [|repeat split; intros; auto; contradiction].
    split; [discriminate|]. split; [discriminate|]. intros _.
    destruct (gyro_raw_sample_accept e i gyro sample_us s s1 g Hk E)
      as (H1 & H2 & _).
    split; [exact H2|]. rewrite H1.
    destruct (gyro_raw_sample_accepted e i gyro sample_us s s1 g E)
      as (-> & _).
    unfold _notify_new_gyro_raw_sample. rewrite Hk, E.
    destruct (update_primary_arrays e (integrate_delta_angle e i g s1))
      as (-> & _).
    reflexivity.
  - unfold accel_sample_log.
    destruct (has_been_killed i s) eqn:Hk;
      [repeat split; intros; auto; contradiction|].
    destruct (accel_raw_sample e i accel sample_us s) as [s1 [a|]] eqn:E;
      [|repeat split; intros; auto; contradiction].
    split; [discriminate|]. split; [discriminate|]. intros _.
    destruct (accel_raw_sample_accept e i accel sample_us fsync_set s s1 a
                Hk E) as (H1 & H2 & _).
    split; [exact H2|]. rewrite H1.
    destruct (accel_raw_sample_accepted e i accel sample_us s s1 a E)
      as (-> & _).
    unfold _notify_new_accel_raw_sample. rewrite Hk, E.
    destruct (doing_post_filter_logging le); reflexivity.
Qed.

(** ** The check on the filter output *)

(** X22: the output of the gyro low-pass filter is checked before it is
    used.  A finite output becomes the filtered gyro (unless the rate
    loop takes the samples and has no room for this one) and the filter
    keeps its new state.  A NaN or infinite output is thrown away: the
    filtered gyro keeps its previous value, and the low-pass filter and
    the notch filters of the instance are reset. *)
Theorem gyro_filter_output_is_checked e i gyro s :
  let out := gyro_low_pass e i gyro s in
  let s' := apply_gyro_filters e i gyro s in
  (vfinite (snd out) = true ->
   filters s' _gyro_filter i = fst out
   /\ vecs s' _gyro_filtered i
      = if is_rate_loop_gyro_enabled e i
           && negb (push_next_gyro_sample e (snd out))
        then vecs s _gyro_filtered i else snd out)
  /\ (vfinite (snd out) = false ->
      vecs s' _gyro_filtered i = vecs s _gyro_filtered i
      /\ filters s' _gyro_filter i = reset (fst out)
      /\ Forall (fun n => exists f, notch_filter n i = reset f)
           (harmonic_notches s')).
Proof.
  cbv zeta. unfold gyro_low_pass, gyro_notch_output, apply_gyro_filters.
  pose proof (save_gyro_window_writes e i gyro 0 s) as H0.
  set (s0 := save_gyro_window e i gyro 0 s) in *.
  assert (Hn0 : harmonic_notches s0 = harmonic_notches s)
    by apply save_gyro_window_notches.
  rewrite <- Hn0.
  pose proof (apply_harmonic_notches_writes e i (harmonic_notches s0)
                gyro (uint8 (0 + 1)) s0) as H1.
  destruct (apply_harmonic_notches e i (harmonic_notches s0) gyro
              (uint8 (0 + 1)) s0) as [[[notches g] p] s1].
  cbn [fst snd] in *.
  assert (Hv : vecs s1 _gyro_filtered i = vecs s _gyro_filtered i).
  { destruct H1 as (V1 & _). destruct H0 as (V0 & _).
    rewrite V1, V0 by (cbn; intuition congruence). reflexivity. }
  assert (Hf : filters (with_harmonic_notches notches s1) _gyro_filter i
               = filters s _gyro_filter i).
  { cbn. destruct H1 as (_ & _ & _ & _ & L1 & _).
    destruct H0 as (_ & _ & _ & _ & L0 & _).
    rewrite L1, L0 by (cbn; intuition congruence). reflexivity. }
  rewrite Hf.
  destruct (apply (filters s _gyro_filter i) g) as [f v].
  cbn [fst snd]. unfold vfinite.
  split; intros Hout.
  - apply negb_true_iff in Hout. rewrite Hout.
    unfold record_gyro_filtered.
    destruct (is_rate_loop_gyro_enabled e i);
      [destruct (push_next_gyro_sample e v)|];
      cbn [andb negb]; split; (exact Hv || store).
  - apply negb_false_iff in Hout. rewrite Hout.
    assert (Hold : vecs (reset_gyro_filters i
                           (set_filter _gyro_filter i f
                              (with_harmonic_notches notches s1)))
                     _gyro_filtered i
                   = vecs s _gyro_filtered i) by exact Hv.
    rewrite Hold.
    unfold record_gyro_filtered.
    assert (Hall : Forall (fun n : HarmonicNotch NF =>
                             exists f0, notch_filter n i = reset f0)
                     (map (reset_notch i) notches)).
    { clear. induction notches as [|n l IH]; cbn [map]; constructor; auto.
      exists (notch_filter n i). unfold reset_notch, set_notch_filter.
      cbn [notch_filter]. unfold insert, fn_insert.
      case_decide; congruence. }
    destruct (is_rate_loop_gyro_enabled e i);
      [destruct (push_next_gyro_sample e (vecs s _gyro_filtered i))|];
      (split; [try exact Hv; store; exact Hv
              | split; [store | exact Hall]]).
Qed.

(** ** Samples that arrive as deltas *)

Lemma rotate_and_correct_gyro_reads e i s s1 v :
  floats s1 _temperature i = floats s _temperature i ->
  _rotate_and_correct_gyro e i s1 v = _rotate_and_correct_gyro e i s v.
Proof. intros H. unfold _rotate_and_correct_gyro. rewrite H. reflexivity. Qed.

Lemma rotate_and_correct_accel_reads e i s s1 v :
  floats s1 _temperature i = floats s _temperature i ->
  _rotate_and_correct_accel e i s1 v = _rotate_and_correct_accel e i s v.
Proof.
  intros H. unfold _rotate_and_correct_accel. rewrite H. reflexivity.
Qed.

(** X23: a sample that arrives as a delta is turned back into a rate
    with the estimated sample period, rotated and corrected, and then
    integrated without trapezoidal averaging.  For an accepted delta
    angle within 100 ms of the previous sample, with [dt = 1/rate] and
    [gyro] the corrected [dangle / dt], the accumulator grows by
    [gyro * dt] plus the coning term and [gyro] becomes the last raw
    gyro; an accepted delta velocity adds [accel * dt] for the corrected
    [dvel / dt]. *)
Theorem delta_sample_integration e i dangle dvel s :
  has_been_killed i s = false ->
  (let rate :=
     floats (update_gyro_sensor_rate e i s) _gyro_raw_sample_rates i in
   (rate <? f_40)%f32 = false ->
   stale_gap (micros64_lock e) (ints s _gyro_last_sample_us i) = false ->
   let dt := (f_1 / rate)%f32 in
   let gyro := _rotate_and_correct_gyro e i s (dangle / dt)%v3 in
   let delta := (gyro * dt)%v3 in
   let coning :=
     coning_correction (vecs s _delta_angle_acc i)
       (vecs s _last_delta_angle i) delta in
   let s' := _notify_new_delta_angle e i dangle s in
   vecs s' _delta_angle_acc i
   = (vecs s _delta_angle_acc i + (delta + coning))%v3
   /\ floats s' _delta_angle_acc_dt i
      = (floats s _delta_angle_acc_dt i + dt)%f32
   /\ vecs s' _last_raw_gyro i = gyro
   /\ ints s' _gyro_last_sample_us i = micros64_sample e
   /\ flags s' _new_gyro_data i = true)
  /\ (let rate :=
        floats (update_accel_sensor_rate e i s) _accel_raw_sample_rates i in
      (rate <? f_40)%f32 = false ->
      stale_gap (micros64_lock e) (ints s _accel_last_sample_us i)
      = false ->
      let dt := (f_1 / rate)%f32 in
      let accel := _rotate_and_correct_accel e i s (dvel / dt)%v3 in
      let s' := _notify_new_delta_velocity e i dvel s in
      vecs s' _delta_velocity_acc i
      = (vecs s _delta_velocity_acc i + accel * dt)%v3
      /\ floats s' _delta_velocity_acc_dt i
         = (floats s _delta_velocity_acc_dt i + dt)%f32
      /\ ints s' _accel_last_sample_us i = micros64_sample e
      /\ flags s' _new_accel_data i = true).
Proof.
  intros Hk. split; cbv zeta; intros Hr Hs.
  - unfold _notify_new_delta_angle. rewrite Hk.
    unfold delta_angle_sample. cbv zeta. rewrite Hr.
    pose proof (update_gyro_sensor_rate_writes e i s)
      as (V & F & _ & N & _).
    set (sr := update_gyro_sensor_rate e i s) in *.
    set (dt := (f_1 / floats sr _gyro_raw_sample_rates i)%f32).
    set (s1 := set_int _gyro_last_sample_us i (micros64_sample e) sr).
    assert (Hrot : _rotate_and_correct_gyro e i s1 (dangle / dt)%v3
                   = _rotate_and_correct_gyro e i s (dangle / dt)%v3).
    { apply rotate_and_correct_gyro_reads. unfold s1.
      change (floats sr _temperature i = floats s _temperature i).
      apply F. cbn. intuition congruence. }
    rewrite !Hrot.
    set (gyro := _rotate_and_correct_gyro e i s (dangle / dt)%v3).
    assert (Hv : forall f, vecs s1 f i = vecs s f i).
    { intros f. unfold s1. change (vecs sr f i = vecs s f i).
      apply V. cbn. tauto. }
    assert (Hf : floats s1 _delta_angle_acc_dt i
                 = floats s _delta_angle_acc_dt i).
    { unfold s1.
      change (floats sr _delta_angle_acc_dt i
              = floats s _delta_angle_acc_dt i).
      apply F. cbn. intuition congruence. }
    assert (Hl : ints sr _gyro_last_sample_us i
                 = ints s _gyro_last_sample_us i).
    { apply N. cbn. intuition congruence. }
    rewrite !Hv.
    match goal with
    | |- context [integrate_delta_angle e i ?g0 s1] => set (g := g0)
    end.
    destruct (update_primary_arrays e (integrate_delta_angle e i g s1))
      as (-> & -> & -> & ->).
    destruct (integrate_delta_angle_effect e i g s1) as (-> & ->).
    destruct (integrate_delta_angle_acc e i g s1) as (-> & ->).
    rewrite integrate_delta_angle_ints.
    unfold g. cbn [gs_gyro gs_dt gs_delta_angle gs_delta_coning
                   gs_last_sample_us].
    rewrite Hl, Hs, Hv, Hf.
    repeat split. unfold s1. store.
  - unfold _notify_new_delta_velocity. rewrite Hk.
    unfold delta_velocity_sample. cbv zeta. rewrite Hr.
    pose proof (update_accel_sensor_rate_writes e i s)
      as (V & F & _ & N & _).
    set (sr := update_accel_sensor_rate e i s) in *.
    set (dt := (f_1 / floats sr _accel_raw_sample_rates i)%f32).
    set (s1 := set_int _accel_last_sample_us i (micros64_sample e) sr).
    assert (Hrot : _rotate_and_correct_accel e i s1 (dvel / dt)%v3
                   = _rotate_and_correct_accel e i s (dvel / dt)%v3).
    { apply rotate_and_correct_accel_reads. unfold s1.
      change (floats sr _temperature i = floats s _temperature i).
      apply F. cbn. intuition congruence. }
    rewrite !Hrot.
    set (accel := _rotate_and_correct_accel e i s (dvel / dt)%v3).
    assert (Hv : forall f, vecs s1 f i = vecs s f i).
    { intros f. unfold s1. change (vecs sr f i = vecs s f i).
      apply V. cbn. tauto. }
    assert (Hf : floats s1 _delta_velocity_acc_dt i
                 = floats s _delta_velocity_acc_dt i).
    { unfold s1.
      change (floats sr _delta_velocity_acc_dt i
              = floats s _delta_velocity_acc_dt i).
      apply F. cbn. intuition congruence. }
    assert (Hl : ints sr _accel_last_sample_us i
                 = ints s _accel_last_sample_us i).
    { apply N. cbn. intuition congruence. }
    match goal with
    | |- context [integrate_delta_velocity e i ?a0 s1] => set (a := a0)
    end.
    destruct (integrate_delta_velocity_acc e i a s1) as (-> & ->).
    rewrite integrate_delta_velocity_ints, integrate_delta_velocity_flag.
    unfold a. cbn [as_accel as_dt as_last_sample_us].
    rewrite Hl, Hs, Hv, Hf.
    repeat split. unfold s1. store.
Qed.

(** ** Rotation and correction *)

(** X24: what [_rotate_and_correct_gyro] and [_rotate_and_correct_accel]
    apply.  While the sensor is being calibrated the value is only
    rotated, first to the sensor's and then to the board's orientation.
    Otherwise the temperature correction is taken at the temperature last
    published for the instance by [_publish_temperature], the offset is
    subtracted and, for the accel, each axis is scaled, all between the
    two rotations. *)
Theorem correction_uses_published_temperature e i t v s :
  has_been_killed i s = false ->
  let s' := _publish_temperature i t s in
  (_rotate_and_correct_gyro e i s' v
   = rotate (_board_orientation e)
       (if _calibrating_gyro e then rotate (_gyro_orientation e i) v
        else (tcal_correct_gyro i t (caltemp_gyro e i)
                (rotate (_gyro_orientation e i) v)
              - _gyro_offset e i)%v3))
  /\ (_rotate_and_correct_accel e i s' v
      = rotate (_board_orientation e)
          (if _calibrating_accel e || acal_running e
           then rotate (_accel_orientation e i) v
           else
             let a :=
               (tcal_correct_accel i t (caltemp_accel e i)
                  (rotate (_accel_orientation e i) v)
                - _accel_offset e i)%v3 in
             mk (x a * x (_accel_scale e i))%f32
                (y a * y (_accel_scale e i))%f32
                (z a * z (_accel_scale e i))%f32)).
Proof.
  intros Hk. cbv zeta.
  assert (Ht : floats (_publish_temperature i t s) _temperature i = t).
  { unfold _publish_temperature. rewrite Hk. store. }
  unfold _rotate_and_correct_gyro, _rotate_and_correct_accel.
  rewrite Ht. split.
  - destruct (_calibrating_gyro e); reflexivity.
  - destruct (_calibrating_accel e), (acal_running e); reflexivity.
Qed.

End Backend.

(** * Closed instances

    The properties above at concrete inputs: instance 0 of
    [sample_running], one second after boot and running at 1000 Hz, with
    the collaborators of [sample_collaborators]. *)

(** C4 at a window of 1.1 s holding 1000 samples, rate estimate 1000 Hz,
    sensors converging: the estimate becomes 0.8 * 1000 + 0.2 * 909.09. *)
Lemma update_sensor_rate_cases_witness :
  900000 <> 0
  /\ 1000000 < uint32 (micros (sample_env 2000000) - 900000)
  /\ _update_sensor_rate (sample_env 2000000) 999 900000 (of_int 1000)
     = (0, 2000000,
        (f_0_8 * of_int 1000
         + (f_1 - f_0_8)
           * constrain_float (of_int 1000 * f_1e6 / of_int 1100000)
               (of_int 1000 * f_0_5) (of_int 1000 * f_2_0))%f32).
Proof.
  split; [discriminate|]. split; [reflexivity|].
  rewrite (proj2 (proj2 (update_sensor_rate_cases (sample_env 2000000)
                           999 900000 (of_int 1000))));
    [vm_compute; reflexivity | discriminate | reflexivity].
Defined.

(** C10 at instance 0. *)
Lemma fifo_reset_clears_only_the_rate_window_witness :
  ints (notify_gyro_fifo_reset 0 sample_running) _sample_gyro_start_us 0 = 0
  /\ floats
       (update_gyro_sensor_rate (sample_env 1001000) 0
          (notify_gyro_fifo_reset 0 sample_running))
       _gyro_raw_sample_rates 0
     = of_int 1000.
Proof.
  pose proof (fifo_reset_clears_only_the_rate_window
                (sample_env 1001000) 0 sample_running) as [Hg _].
  cbv zeta in Hg.
  destruct Hg as (_ & H0 & _ & _ & _ & _ & _ & _ & Hr & _).
  split; [exact H0|]. rewrite Hr. reflexivity.
Defined.

(** C5 at instance 0: the 5 ms in the accumulators are published. *)
Lemma publish_moves_accumulator_witness :
  has_been_killed 0 sample_running = false
  /\ floats (_publish_gyro 0 vzero sample_running) _delta_angle_dt 0
     = lit 5 1000
  /\ floats (_publish_gyro 0 vzero sample_running) _delta_angle_acc_dt 0
     = f_0
  /\ floats (_publish_accel 0 vzero sample_running) _delta_velocity_dt 0
     = lit 5 1000.
Proof.
  split; [reflexivity|].
  destruct (publish_moves_accumulator 0 vzero vzero sample_running
              eq_refl) as [(_ & Hdt & _ & _ & Hacc) (_ & Hvdt & _)].
  cbv zeta in *. rewrite Hdt, Hacc, Hvdt. repeat split; reflexivity.
Defined.

(** C8 on a backend that has never notified: instance 0 is the primary,
    the stored state says it is not, so the first call notifies [true]. *)
Lemma update_primary_notifies_iff_witness :
  primary_update_due (sample_env 1000) sample_zero
  /\ set_primary_calls (update_primary (sample_env 1000) sample_zero)
     = [true].
Proof.
  assert (Hdue : primary_update_due (sample_env 1000) sample_zero)
    by (left; discriminate).
  split; [exact Hdue|].
  destruct (update_primary_notifies_iff (sample_env 1000) sample_zero)
    as [Hfire _].
  cbv zeta in Hfire. destruct (Hfire Hdue) as (-> & _). reflexivity.
Defined.

(** C6 on [sample_killed]: a gyro sample and an update leave it alone. *)
Lemma killed_instance_is_inert_witness :
  has_been_killed 0 sample_killed = true
  /\ _notify_new_gyro_raw_sample (sample_env 1001000) 0 (mk f_1 f_0 f_0) 0
       sample_killed
     = sample_killed
  /\ update_accel (sample_env 1001000) 0 sample_killed = sample_killed.
Proof.
  split; [reflexivity|].
  destruct (killed_instance_is_inert 0 sample_killed eq_refl)
    as (Hg & _ & _ & _ & _ & _ & _ & Ha & _).
  split; [apply Hg|apply Ha].
Defined.

(** C7 as amended, on a backend whose rate estimate is still zero after
    the call's rate-estimator step. *)
Lemma slow_delta_sample_is_dropped_witness :
  (floats (update_gyro_sensor_rate (sample_env 1000) 0 sample_zero)
     _gyro_raw_sample_rates 0 <? f_40)%f32 = true
  /\ ints (_notify_new_delta_angle (sample_env 1000) 0 (mk f_1 f_0 f_0)
             sample_zero) _gyro_last_sample_us 0
     = 0.
Proof.
  split; [reflexivity|].
  destruct (slow_delta_sample_is_dropped (sample_env 1000) 0
              (mk f_1 f_0 f_0) vzero sample_zero) as [Hg _].
  cbv zeta in Hg.
  destruct (Hg eq_refl) as (_ & _ & _ & _ & _ & _ & _ & -> & _).
  reflexivity.
Defined.

(** C7 as stated fails.  Instance 0 is estimated at 39 Hz, below 40 Hz,
    when the call is made, 1.1 s after the rate window was opened and
    with the sensors converging.  The call's own [_update_sensor_rate]
    step closes the window and raises the estimate to
    0.8 * 39 + 0.2 * 78 = 46.8 Hz before the guard of lines 393 and 638
    reads it, so the sample is not dropped: it is accumulated and
    filtered, the last-sample time is updated and the new-data flag is
    set.  The same for a delta velocity. *)
Lemma slow_rate_at_call_time_is_not_dropped :
  let e := sample_env 2000000 in
  let s := sample_slow in
  let dangle := mk f_0 (lit 1 1000) f_0 in
  let dvel := mk (lit 1 100) f_0 f_0 in
  let raised :=
    (f_0_8 * of_int 39 + (of_int 1 - f_0_8) * (of_int 39 * f_2_0))%f32 in
  let sg := _notify_new_delta_angle e 0 dangle s in
  let sa := _notify_new_delta_velocity e 0 dvel s in
  has_been_killed 0 s = false
  /\ sensors_converging e = true
  /\ (floats s _gyro_raw_sample_rates 0 <? f_40)%f32 = true
  /\ (floats s _accel_raw_sample_rates 0 <? f_40)%f32 = true
  /\ floats (update_gyro_sensor_rate e 0 s) _gyro_raw_sample_rates 0
     = raised
  /\ floats (update_accel_sensor_rate e 0 s) _accel_raw_sample_rates 0
     = raised
  /\ (raised <? f_40)%f32 = false
  /\ (ints s _gyro_last_sample_us 0 = 1990000
      /\ ints sg _gyro_last_sample_us 0 = 2000000)
  /\ (flags s _new_gyro_data 0 = false /\ flags sg _new_gyro_data 0 = true)
  /\ (floats s _delta_angle_acc_dt 0 = f_0
      /\ floats sg _delta_angle_acc_dt 0 = (f_0 + f_1 / raised)%f32
      /\ floats sg _delta_angle_acc_dt 0 <> f_0)
  /\ vecs sg _delta_angle_acc 0 <> vecs s _delta_angle_acc 0
  /\ vecs sg _gyro_filtered 0 <> vecs s _gyro_filtered 0
  /\ (ints s _accel_last_sample_us 0 = 1990000
      /\ ints sa _accel_last_sample_us 0 = 2000000)
  /\ (flags s _new_accel_data 0 = false
      /\ flags sa _new_accel_data 0 = true)
  /\ (floats s _delta_velocity_acc_dt 0 = f_0
      /\ floats sa _delta_velocity_acc_dt 0 = (f_0 + f_1 / raised)%f32
      /\ floats sa _delta_velocity_acc_dt 0 <> f_0)
  /\ vecs sa _delta_velocity_acc 0 <> vecs s _delta_velocity_acc 0
  /\ vecs sa _accel_filtered 0 <> vecs s _accel_filtered 0.
Proof.
  cbv zeta.
  repeat split; try (vm_compute; reflexivity); vm_compute; discriminate.
Qed.

(** C1 as stated fails.  A FIFO accel sample arrives 200 ms after the
    previous one; its own [dt] is 1/1000 s, it is accepted, and afterwards
    the accumulated [dt] is zero, not that [dt]. *)
Lemma stale_sample_dt_is_not_its_own_dt :
  let e := sample_env 1200000 in
  let accel := mk f_1 f_0 f_0 in
  let s' := _notify_new_accel_raw_sample e 0 accel 0 false sample_running in
  has_been_killed 0 sample_running = false
  /\ stale_gap (micros64_lock e) (ints sample_running _accel_last_sample_us 0)
     = true
  /\ snd (accel_raw_sample e 0 accel 0 sample_running)
     = Some {| as_accel := accel; as_dt := lit 1 1000;
               as_last_sample_us := 1000000 |}
  /\ floats s' _delta_velocity_acc_dt 0 = f_0
  /\ floats s' _delta_velocity_acc_dt 0 <> lit 1 1000.
Proof.
  cbv zeta. repeat split; try (vm_compute; reflexivity).
  vm_compute. discriminate.
Qed.

(** C1 as amended, at that sample and at a gyro sample of the same
    instant. *)
Lemma stale_sample_restarts_accumulator_witness :
  let e := sample_env 1200000 in
  has_been_killed 0 sample_running = false
  /\ stale_gap (micros64_lock e) (ints sample_running _gyro_last_sample_us 0)
     = true
  /\ floats (_notify_new_gyro_raw_sample e 0 (mk f_0 f_1 f_0) 0
               sample_running) _delta_angle_acc_dt 0
     = f_0
  /\ floats (_notify_new_accel_raw_sample e 0 (mk f_1 f_0 f_0) 0 false
               sample_running) _delta_velocity_acc_dt 0
     = f_0
  /\ vecs (_notify_new_accel_raw_sample e 0 (mk f_1 f_0 f_0) 0 false
             sample_running) _delta_velocity_acc 0
     = vzero.
Proof.
  cbv zeta.
  destruct (stale_sample_restarts_accumulator (sample_env 1200000) 0
              sample_running eq_refl) as (Hg & Ha & _).
  split; [reflexivity|]. split; [reflexivity|].
  split.
  - refine (proj1 (Hg (mk f_0 f_1 f_0) 0
                     (fst (gyro_raw_sample (sample_env 1200000) 0
                             (mk f_0 f_1 f_0) 0 sample_running))
                     {| gs_gyro := mk f_0 f_1 f_0; gs_dt := lit 1 1000;
                        gs_delta_angle := mk (lit 1 2000) (lit 1 2000) f_0;
                        gs_delta_coning :=
                          coning_correction
                            (vecs sample_running _delta_angle_acc 0)
                            (vecs sample_running _last_delta_angle 0)
                            (mk (lit 1 2000) (lit 1 2000) f_0);
                        gs_last_sample_us := 1000000 |} _ _)).
    + vm_compute. reflexivity.
    + reflexivity.
  - destruct (Ha (mk f_1 f_0 f_0) 0 false
                (fst (accel_raw_sample (sample_env 1200000) 0
                        (mk f_1 f_0 f_0) 0 sample_running))
                {| as_accel := mk f_1 f_0 f_0; as_dt := lit 1 1000;
                   as_last_sample_us := 1000000 |}) as [Hdt Hacc].
    + vm_compute. reflexivity.
    + reflexivity.
    + split; [exact Hdt|]. cbv zeta in Hacc. rewrite Hacc.
      vm_compute. reflexivity.
Defined.

(** C3 as stated fails.  For a raw gyro sample that arrives 200 ms after
    the previous one, the accumulator afterwards holds zero plus the coning
    term that was computed before the reset, and no trapezoidal delta: it
    is neither the old accumulator nor the zeroed one plus the trapezoidal
    delta and the coning term, whether these are formed with the sample's
    own [dt] and the old accumulator or with the zeroed [dt] and
    accumulator. *)
Lemma stale_gyro_sample_adds_no_trapezoidal_delta :
  let e := sample_env 1200000 in
  let s := sample_running in
  let gyro := mk f_0 f_1 f_0 in
  let added (acc : Vector3f) (dt : float) :=
    let delta := ((gyro + vecs s _last_raw_gyro 0) * f_0_5 * dt)%v3 in
    let coning :=
      (vcross (acc + vecs s _last_delta_angle 0 * f_sixth) delta
       * f_0_5)%v3 in
    (delta + coning)%v3 in
  let old := vecs s _delta_angle_acc 0 in
  let s' := _notify_new_gyro_raw_sample e 0 gyro 0 s in
  has_been_killed 0 s = false
  /\ option_map gs_dt (snd (gyro_raw_sample e 0 gyro 0 s))
     = Some (lit 1 1000)
  /\ stale_gap (micros64_lock e) (ints s _gyro_last_sample_us 0) = true
  /\ vecs s' _delta_angle_acc 0
     = (vzero
        + (vzero
           + coning_correction old (vecs s _last_delta_angle 0)
               (trapezoidal_delta_angle gyro (vecs s _last_raw_gyro 0)
                  (lit 1 1000))))%v3
  /\ vecs s' _delta_angle_acc 0 <> (old + added old (lit 1 1000))%v3
  /\ vecs s' _delta_angle_acc 0 <> (vzero + added old (lit 1 1000))%v3
  /\ vecs s' _delta_angle_acc 0 <> (vzero + added vzero f_0)%v3
  /\ vecs s' _delta_angle_acc 0 <> (old + added vzero f_0)%v3.
Proof.
  cbv zeta. repeat split; try (vm_compute; reflexivity);
    vm_compute; discriminate.
Qed.

(** C3 as amended, at a gyro and an accel sample that arrive 1 ms after
    the previous one. *)
Lemma fresh_sample_delta_witness :
  let e := sample_env 1001000 in
  let s := sample_running in
  has_been_killed 0 s = false
  /\ stale_gap (micros64_lock e) (ints s _gyro_last_sample_us 0) = false
  /\ floats (_notify_new_gyro_raw_sample e 0 (mk f_0 f_1 f_0) 0 s)
       _delta_angle_acc_dt 0
     = (lit 5 1000 + lit 1 1000)%f32
  /\ vecs (_notify_new_accel_raw_sample e 0 (mk f_1 f_0 f_0) 0 false s)
       _delta_velocity_acc 0
     = (vecs s _delta_velocity_acc 0 + mk f_1 f_0 f_0 * lit 1 1000)%v3.
Proof.
  cbv zeta.
  destruct (fresh_sample_delta (sample_env 1001000) 0 sample_running
              eq_refl) as [Hg Ha].
  split; [reflexivity|]. split; [reflexivity|].
  split.
  - destruct (Hg (mk f_0 f_1 f_0) 0
                (fst (gyro_raw_sample (sample_env 1001000) 0
                        (mk f_0 f_1 f_0) 0 sample_running))
                {| gs_gyro := mk f_0 f_1 f_0; gs_dt := lit 1 1000;
                   gs_delta_angle := mk (lit 1 2000) (lit 1 2000) f_0;
                   gs_delta_coning :=
                     coning_correction
                       (vecs sample_running _delta_angle_acc 0)
                       (vecs sample_running _last_delta_angle 0)
                       (mk (lit 1 2000) (lit 1 2000) f_0);
                   gs_last_sample_us := 1000000 |}) as [_ Hdt].
    + vm_compute. reflexivity.
    + reflexivity.
    + cbv zeta in Hdt. rewrite Hdt. vm_compute. reflexivity.
  - destruct (Ha (mk f_1 f_0 f_0) 0 false
                (fst (accel_raw_sample (sample_env 1001000) 0
                        (mk f_1 f_0 f_0) 0 sample_running))
                {| as_accel := mk f_1 f_0 f_0; as_dt := lit 1 1000;
                   as_last_sample_us := 1000000 |}) as [Hacc _].
    + vm_compute. reflexivity.
    + reflexivity.
    + cbv zeta in Hacc. rewrite Hacc. vm_compute. reflexivity.
Defined.


(** C2 fails on the accel path.  The filter hands an infinite component
    through; [_notify_new_accel_raw_sample] resets the filter but stores
    the infinite value as the filtered accel, where the previous value was
    finite, and the next [update_accel] publishes it. *)
Lemma accel_nonfinite_output_is_published :
  let accel := mk (S754_infinity false) f_0 f_0 in
  let s := sample_running in
  let s1 :=
    _notify_new_accel_raw_sample (sample_env 1001000) 0 accel 0 false s in
  let s2 := update_accel (sample_env 1002000) 0 s1 in
  has_been_killed 0 s = false
  /\ vfinite (vecs s _accel_filtered 0) = true
  /\ snd (apply (filters s _accel_filter 0) accel) = accel
  /\ vecs s1 _accel_filtered 0 = accel
  /\ is_inf (vecs s1 _accel_filtered 0) = true
  /\ vecs s2 _accel 0 = accel
  /\ vfinite (vecs s2 _accel 0) = false.
Proof. cbv zeta. repeat split; vm_compute; reflexivity. Qed.

(** The gyro path at the same input keeps the previous filtered value. *)
Lemma gyro_nonfinite_output_is_replaced :
  let gyro := mk (S754_infinity false) f_0 f_0 in
  let s := sample_running in
  let s1 := _notify_new_gyro_raw_sample (sample_env 1001000) 0 gyro 0 s in
  let s2 := update_gyro (sample_env 1002000) 0 s1 in
  vecs s1 _gyro_filtered 0 = vecs s _gyro_filtered 0
  /\ vfinite (vecs s2 _gyro 0) = true.
Proof. cbv zeta. repeat split; vm_compute; reflexivity. Qed.

(** * Closed instances of the further properties *)

(** X1: a gyro sample, an update and an error report for instance 0 leave
    instance 1 alone. *)
Lemma other_instances_untouched_witness :
  let calls : list (Call (Rotation := unit)) :=
    [ Notify_new_gyro_raw_sample (sample_env 1001000) 0 (mk f_0 f_1 f_0) 0;
      Update_gyro (sample_env 1002000) 0;
      Inc_accel_error_count 0 ] in
  forallb (fun c => negb (targets 1 c)) calls = true
  /\ (forall f, vecs (run calls sample_running) f 1
                = vecs sample_running f 1)
  /\ (forall f, ints (run calls sample_running) f 1
                = ints sample_running f 1).
Proof.
  cbv zeta.
  match goal with
  | |- forallb _ ?calls = true /\ _ =>
      assert (H : forallb (fun c => negb (targets 1 c)) calls = true)
        by (vm_compute; reflexivity);
      destruct (other_instances_untouched calls 1 sample_running H)
        as (V & _ & _ & N & _)
  end.
  split; [exact H|]. split; [exact V | exact N].
Defined.

(** X2: on [sample_killed], samples and updates of the killed instance 0
    and traffic of instance 1 leave instance 0 as it was. *)
Lemma killed_instance_stays_frozen_witness :
  let calls : list (Call (Rotation := unit)) :=
    [ Notify_new_gyro_raw_sample (sample_env 1001000) 0 (mk f_0 f_1 f_0) 0;
      Update_accel (sample_env 1002000) 0;
      Inc_gyro_error_count 1;
      Notify_new_accel_raw_sample (sample_env 1003000) 1 (mk f_1 f_0 f_0) 0
        false ] in
  has_been_killed 0 sample_killed = true
  /\ forallb (spares 0) calls = true
  /\ (forall f, vecs (run calls sample_killed) f 0 = vecs sample_killed f 0)
  /\ (forall f, flags (run calls sample_killed) f 0
                = flags sample_killed f 0).
Proof.
  cbv zeta.
  match goal with
  | |- _ /\ forallb _ ?calls = true /\ _ =>
      assert (H : forallb (spares 0) calls = true)
        by (vm_compute; reflexivity);
      destruct (killed_instance_stays_frozen calls 0 sample_killed
                  eq_refl H) as (V & _ & B & _)
  end.
  split; [reflexivity|]. split; [exact H|]. split; [exact V | exact B].
Defined.

(** X3: gyro traffic leaves the accel accumulator alone, accel traffic
    leaves the gyro accumulator and the notches alone. *)
Lemma sensors_do_not_interfere_witness :
  let gyro_calls : list (Call (Rotation := unit)) :=
    [ Notify_new_gyro_raw_sample (sample_env 1001000) 0 (mk f_0 f_1 f_0) 0;
      Update_gyro (sample_env 1002000) 0 ] in
  let accel_calls : list (Call (Rotation := unit)) :=
    [ Notify_new_accel_raw_sample (sample_env 1001000) 0 (mk f_1 f_0 f_0) 0
        false;
      Update_accel (sample_env 1002000) 0 ] in
  forallb (call_for Gyro) gyro_calls = true
  /\ forallb (call_for Accel) accel_calls = true
  /\ vecs (run gyro_calls sample_running) _delta_velocity_acc 0
     = vecs sample_running _delta_velocity_acc 0
  /\ vecs (run accel_calls sample_running) _delta_angle_acc 0
     = vecs sample_running _delta_angle_acc 0
  /\ harmonic_notches (run accel_calls sample_running)
     = harmonic_notches sample_running.
Proof.
  cbv zeta.
  match goal with
  | |- forallb _ ?g = true /\ forallb _ ?a = true /\ _ =>
      assert (Hg : forallb (call_for Gyro) g = true)
        by (vm_compute; reflexivity);
      assert (Ha : forallb (call_for Accel) a = true)
        by (vm_compute; reflexivity);
      destruct (sensors_do_not_interfere g sample_running) as [Sg _];
      destruct (sensors_do_not_interfere a sample_running) as [_ Sa];
      destruct (Sg Hg) as (Vg & _);
      destruct (Sa Ha) as (Va & _ & _ & _ & _ & Na & _)
  end.
  split; [exact Hg|]. split; [exact Ha|].
  split; [apply Vg; reflexivity|]. split; [apply Va; reflexivity|].
  exact Na.
Defined.

(** X4: two gyro error reports on a counter at its largest value wrap it
    to 1; one accel report counts 1. *)
Lemma error_counters_count_reports_witness :
  let s := set_int _gyro_error_count 0 (2 ^ 32 - 1) sample_zero in
  let calls : list (Call (Rotation := unit)) :=
    [ Inc_gyro_error_count 0; Inc_accel_error_count 0;
      Inc_gyro_error_count 1; Inc_gyro_error_count 0 ] in
  0 <= ints s _gyro_error_count 0 < 2 ^ 32
  /\ 0 <= ints s _accel_error_count 0 < 2 ^ 32
  /\ ints (run calls s) _gyro_error_count 0 = 1
  /\ ints (run calls s) _accel_error_count 0 = 1.
Proof.
  cbv zeta.
  assert (Hg : 0 <= ints (set_int _gyro_error_count 0 (2 ^ 32 - 1)
                            (sample_zero)) _gyro_error_count 0 < 2 ^ 32)
    by (vm_compute; split; [discriminate | reflexivity]).
  assert (Ha : 0 <= ints (set_int _gyro_error_count 0 (2 ^ 32 - 1)
                            (sample_zero)) _accel_error_count 0 < 2 ^ 32)
    by (vm_compute; split; [discriminate | reflexivity]).
  split; [exact Hg|]. split; [exact Ha|].
  match goal with
  | |- ints (run ?calls ?s) _ _ = _ /\ _ =>
      destruct (error_counters_count_reports calls 0 s Hg Ha) as [-> ->]
  end.
  split; vm_compute; reflexivity.
Defined.

(** X5: the rate window of [sample_running] stays well formed over a
    FIFO reset and two samples. *)
Lemma rate_window_stays_well_formed_witness :
  let calls : list (Call (Rotation := unit)) :=
    [ Notify_gyro_fifo_reset 0;
      Notify_new_gyro_raw_sample (sample_env 1001000) 0 (mk f_0 f_1 f_0) 0;
      Notify_new_accel_raw_sample (sample_env 2001000) 0 (mk f_1 f_0 f_0) 0
        false ] in
  rate_window_ok sample_running 0
  /\ rate_window_ok (run calls sample_running) 0.
Proof.
  cbv zeta.
  assert (H : rate_window_ok sample_running 0).
  { unfold rate_window_ok. vm_compute.
    repeat split; try discriminate; intros; discriminate. }
  split; [exact H|].
  match goal with
  | |- rate_window_ok (run ?calls _) _ =>
      exact (proj1 (rate_window_stays_well_formed calls 0 sample_running) H)
  end.
Defined.

(** X6: after one gyro sample on [sample_running], the first update
    publishes and the second changes no array. *)
Lemma update_publishes_new_data_once_witness :
  let s :=
    _notify_new_gyro_raw_sample (sample_env 1001000) 0 (mk f_0 f_1 f_0) 0
      sample_running in
  let s1 := update_gyro (sample_env 1002000) 0 s in
  let s2 := update_gyro (sample_env 1003000) 0 s1 in
  has_been_killed 0 s = false
  /\ flags s _new_gyro_data 0 = true
  /\ vecs s1 _gyro 0 = vecs s _gyro_filtered 0
  /\ flags s1 _new_gyro_data 0 = false
  /\ vecs s2 = vecs s1 /\ floats s2 = floats s1.
Proof.
  cbv zeta.
  set (s := _notify_new_gyro_raw_sample (sample_env 1001000) 0
              (mk f_0 f_1 f_0) 0 sample_running).
  assert (Hk : has_been_killed 0 s = false) by (vm_compute; reflexivity).
  assert (Hn : flags s _new_gyro_data 0 = true)
    by (vm_compute; reflexivity).
  destruct (update_publishes_new_data_once (sample_env 1002000)
              (sample_env 1003000) 0 s Hk) as [G _].
  destruct (G Hn) as (G1 & _ & _ & _ & _ & G6 & G7 & G8 & _).
  split; [exact Hk|]. split; [exact Hn|]. split; [exact G1|].
  split; [exact G6|]. split; [exact G7 | exact G8].
Defined.

(** X7: from drained accumulators, one gyro sample of 1 ms is what the
    next update publishes as the delta-angle time. *)
Lemma published_delta_is_sum_of_contributions_witness :
  let s := _publish_accel 0 vzero (_publish_gyro 0 vzero sample_running) in
  let calls : list (Call (Rotation := unit)) :=
    [ Notify_new_gyro_raw_sample (sample_env 1001000) 0 (mk f_0 f_1 f_0) 0;
      Notify_new_accel_raw_sample (sample_env 1001000) 0 (mk f_1 f_0 f_0) 0
        false ] in
  has_been_killed 0 s = false
  /\ vecs s _delta_angle_acc 0 = vzero
  /\ floats s _delta_angle_acc_dt 0 = f_0
  /\ flags (run calls s) _new_gyro_data 0 = true
  /\ floats (update_gyro (sample_env 1002000) 0 (run calls s))
       _delta_angle_dt 0
     = (f_0 + lit 1 1000)%f32.
Proof.
  cbv zeta.
  set (s := _publish_accel 0 vzero (_publish_gyro 0 vzero sample_running)).
  match goal with
  | |- _ /\ _ /\ _ /\ flags (run ?l _) _ _ = _ /\ _ => set (calls := l)
  end.
  assert (Hk : has_been_killed 0 s = false) by (vm_compute; reflexivity).
  assert (Hv : vecs s _delta_angle_acc 0 = vzero)
    by (vm_compute; reflexivity).
  assert (Ht : floats s _delta_angle_acc_dt 0 = f_0)
    by (vm_compute; reflexivity).
  assert (Hn : flags (run calls s) _new_gyro_data 0 = true)
    by (vm_compute; reflexivity).
  destruct (published_delta_is_sum_of_contributions calls
              (sample_env 1002000) 0 s Hk) as [G _].
  destruct (G Hv Ht Hn) as (_ & G2 & _).
  do 4 (split; [assumption|]).
  rewrite G2. vm_compute. reflexivity.
Defined.

(** X8: an infinite gyro sample followed by an update leaves the gyro
    readings of [sample_running] finite. *)
Lemma gyro_output_never_turns_nonfinite_witness :
  let calls : list (Call (Rotation := unit)) :=
    [ Notify_new_gyro_raw_sample (sample_env 1001000) 0
        (mk (S754_infinity false) f_0 f_0) 0;
      Update_gyro (sample_env 1002000) 0 ] in
  forallb publishes_finite calls = true
  /\ (forall i, vfinite (vecs sample_running _gyro_filtered i) = true
                /\ vfinite (vecs sample_running _gyro i) = true)
  /\ vfinite (vecs (run calls sample_running) _gyro 0) = true.
Proof.
  cbv zeta.
  assert (Hs : forall i,
             vfinite (vecs sample_running _gyro_filtered i) = true
             /\ vfinite (vecs sample_running _gyro i) = true)
    by (intros i; split; vm_compute; reflexivity).
  match goal with
  | |- forallb _ ?calls = true /\ _ =>
      assert (H : forallb publishes_finite calls = true)
        by (vm_compute; reflexivity);
      pose proof (gyro_output_never_turns_nonfinite calls sample_running
                    H Hs 0) as [_ G]
  end.
  split; [exact H|]. split; [exact Hs | exact G].
Defined.

(** X9: gyro samples of instance 0 keep the one notch of [sample_running]. *)
Lemma notch_filters_of_other_instances_kept_witness :
  let calls : list (Call (Rotation := unit)) :=
    [ Notify_new_gyro_raw_sample (sample_env 1001000) 0 (mk f_0 f_1 f_0) 0;
      Notify_new_delta_angle (sample_env 1002000) 0 (mk f_0 f_1 f_0) ] in
  forallb (fun c => negb (retunes_notches c) && negb (targets 1 c)) calls
  = true
  /\ length (harmonic_notches (run calls sample_running)) = 1%nat.
Proof.
  cbv zeta.
  match goal with
  | |- forallb ?p ?calls = true /\ _ =>
      assert (H : forallb p calls = true) by (vm_compute; reflexivity);
      destruct (notch_filters_of_other_instances_kept calls 1
                  sample_running H) as [_ G]
  end.
  split; [exact H|]. rewrite G. reflexivity.
Defined.

(** X10: instance 1 is not the primary of [sample_env]; the notch of
    [sample_zero] is bypassed and the filtered gyro is the sample. *)
Lemma notches_bypassed_off_primary_witness :
  let e := sample_env 1001000 in
  let gyro := mk f_0 f_1 f_0 in
  (1 =? _primary e) = false
  /\ forallb (fun n => negb (params_EnableOnAllIMUs n))
       (harmonic_notches sample_zero) = true
  /\ is_rate_loop_gyro_enabled e 1 = false
  /\ vfinite (snd (apply (filters sample_zero _gyro_filter 1) gyro)) = true
  /\ vecs (apply_gyro_filters e 1 gyro sample_zero) _gyro_filtered 1 = gyro.
Proof.
  cbv zeta.
  assert (Hout : vfinite (snd (apply (filters sample_zero _gyro_filter 1)
                                 (mk f_0 f_1 f_0))) = true)
    by (vm_compute; reflexivity).
  destruct (notches_bypassed_off_primary (sample_env 1001000) 1
              (mk f_0 f_1 f_0) sample_zero eq_refl eq_refl eq_refl Hout)
    as (G & _).
  do 3 (split; [reflexivity|]). split; [exact Hout | exact G].
Defined.

(** X11: with the tap of [sample_env] at phase 0, the value kept for the
    FFT is the sample times the multiplier 1. *)
Lemma fft_tap_by_phase_witness :
  let e := sample_env 1001000 in
  let gyro := mk f_0 f_1 f_0 in
  _fft_window_phase e = 0
  /\ (length (harmonic_notches sample_zero) < 256)%nat
  /\ _post_filter_fft e = false
  /\ vecs (apply_gyro_filters e 0 gyro sample_zero) _last_gyro_for_fft 0
     = (gyro * of_int 1)%v3.
Proof.
  cbv zeta.
  assert (Hl : (length (harmonic_notches sample_zero) < 256)%nat)
    by (cbn; lia).
  split; [reflexivity|]. split; [exact Hl|]. split; [reflexivity|].
  exact (proj1 (fft_tap_by_phase (sample_env 1001000) 0 (mk f_0 f_1 f_0)
                  sample_zero) eq_refl Hl eq_refl).
Defined.

(** X12: once the accel cutoff is cached, [update_accel_filters] is the
    identity; once the vehicle is armed and the gyro cutoff is cached,
    [update_gyro_filters] keeps the filters. *)
Lemma filters_retuned_only_on_change_witness :
  let e := sample_env_armed 1001000 in
  let s := update_gyro_filters e 0 (update_accel_filters e 0 sample_untuned) in
  sensors_converging e = false
  /\ _last_gyro_filter_hz s = _gyro_filter_cutoff e
  /\ _last_accel_filter_hz s = _accel_filter_cutoff e
  /\ filters s _gyro_filter 0 = of_int 20
  /\ filters (update_gyro_filters e 0 s) = filters s
  /\ update_accel_filters e 0 s = s.
Proof.
  cbv zeta.
  set (e := sample_env_armed 1001000).
  set (s := update_gyro_filters e 0 (update_accel_filters e 0 sample_untuned)).
  assert (Hc : sensors_converging e = false) by (vm_compute; reflexivity).
  assert (Hg : _last_gyro_filter_hz s = _gyro_filter_cutoff e)
    by (vm_compute; reflexivity).
  assert (Ha : _last_accel_filter_hz s = _accel_filter_cutoff e)
    by (vm_compute; reflexivity).
  destruct (filters_retuned_only_on_change e 0 s)
    as (_ & _ & G3 & G4 & _).
  split; [exact Hc|]. split; [exact Hg|]. split; [exact Ha|].
  split; [vm_compute; reflexivity|].
  split; [exact (G3 Hc Hg) | exact (G4 Ha)].
Defined.

(** X13: after the update of instance 0 has tuned its accel filter to
    20 Hz, the update of instance 1 leaves the filter of instance 1
    untuned. *)
Lemma cutoff_cache_is_shared_between_instances_witness :
  let e := sample_env_armed 1001000 in
  let s := update_accel_filters e 1 (update_accel_filters e 0 sample_untuned) in
  1 <> 0
  /\ filters s _accel_filter 0 = of_int 20
  /\ filters s _accel_filter 1 = f_0.
Proof.
  cbv zeta.
  assert (H : 1 <> 0) by discriminate.
  split; [exact H|]. split; [vm_compute; reflexivity|].
  rewrite (proj1 (cutoff_cache_is_shared_between_instances
                    (sample_env_armed 1001000) 0 1 sample_untuned H)).
  reflexivity.
Defined.

(** X14: a time-stamped gyro sample is accepted although the rate
    estimate is zero. *)
Lemma timestamped_sample_is_always_accepted_witness :
  let s := set_int _accel_last_sample_us 0 1000000
             (set_int _gyro_last_sample_us 0 1000000 sample_zero) in
  let s' :=
    _notify_new_gyro_raw_sample (sample_env 1000600) 0 (mk f_0 f_1 f_0)
      1000500 s in
  has_been_killed 0 s = false
  /\ 1000500 <> 0
  /\ ints s _gyro_last_sample_us 0 <> 0
  /\ (floats s _gyro_raw_sample_rates 0 <? f_40)%f32 = true
  /\ ints s' _gyro_last_sample_us 0 = 1000500
  /\ flags s' _new_gyro_data 0 = true
  /\ floats s' _delta_angle_acc_dt 0 = (f_0 + of_int 500 * f_1em6)%f32.
Proof.
  cbv zeta.
  set (s := set_int _accel_last_sample_us 0 1000000
              (set_int _gyro_last_sample_us 0 1000000 sample_zero)).
  assert (Hk : has_been_killed 0 s = false) by reflexivity.
  assert (Hs : 1000500 <> 0) by discriminate.
  assert (Hl : ints s _gyro_last_sample_us 0 <> 0)
    by (vm_compute; discriminate).
  destruct (timestamped_sample_is_always_accepted (sample_env 1000600) 0
              (mk f_0 f_1 f_0) vzero 1000500 false s Hk Hs) as [G _].
  destruct (G Hl) as (G1 & G2 & _ & G4).
  split; [exact Hk|]. split; [exact Hs|]. split; [exact Hl|].
  split; [vm_compute; reflexivity|].
  split; [exact G1|]. split; [exact G2|].
  rewrite G4. vm_compute. reflexivity.
Defined.

(** X15: a sample without time stamp on [sample_running], at 1000 Hz, is
    accepted with a time step of 1/1000 s. *)
Lemma untimed_sample_goes_by_rate_witness :
  let e := sample_env 1001000 in
  let s' := _notify_new_gyro_raw_sample e 0 (mk f_0 f_1 f_0) 0
              sample_running in
  has_been_killed 0 sample_running = false
  /\ (floats (update_gyro_sensor_rate e 0 sample_running)
        _gyro_raw_sample_rates 0 <? f_40)%f32 = false
  /\ ints s' _gyro_last_sample_us 0 = 1001000
  /\ flags s' _new_gyro_data 0 = true.
Proof.
  cbv zeta.
  assert (Hr : (floats (update_gyro_sensor_rate (sample_env 1001000) 0
                          sample_running)
                  _gyro_raw_sample_rates 0 <? f_40)%f32 = false)
    by (vm_compute; reflexivity).
  destruct (untimed_sample_goes_by_rate (sample_env 1001000) 0
              (mk f_0 f_1 f_0) vzero false sample_running eq_refl)
    as [[_ G] _].
  destruct (G Hr) as (G1 & G2 & _).
  split; [reflexivity|]. split; [exact Hr|]. split; [exact G1 | exact G2].
Defined.

(** X16: two gyro samples of the killed instance 0 do not reach
    [update_primary], so they notify nobody; the same two samples on the
    live [sample_running] reach it twice and notify once. *)
Lemma primary_notifications_along_run_witness :
  let calls : list (Call (Rotation := unit)) :=
    [ Notify_new_gyro_raw_sample (sample_env 1001000) 0 (mk f_0 f_1 f_0) 0;
      Notify_new_gyro_raw_sample (sample_env 1002000) 0 (mk f_0 f_1 f_0) 0 ]
  in
  heartbeat_calls calls sample_killed = 0%nat
  /\ set_primary_calls (run calls sample_killed)
     = set_primary_calls sample_killed
  /\ heartbeat_calls calls sample_running = 2%nat
  /\ set_primary_calls (run calls sample_running) = [true].
Proof.
  cbv zeta.
  match goal with
  | |- heartbeat_calls ?calls _ = _ /\ _ =>
      assert (H0 : heartbeat_calls calls sample_killed = 0%nat)
        by (vm_compute; reflexivity);
      destruct (primary_notifications_along_run calls sample_killed)
        as (new & H1 & H2 & _)
  end.
  split; [exact H0|]. split.
  - rewrite H1. rewrite H0 in H2. destruct new; [reflexivity|].
    cbn in H2. lia.
  - split; vm_compute; reflexivity.
Defined.

(** X17: 99 ms after a notification, with the same primary, the next
    [update_primary] changes nothing. *)
Lemma primary_heartbeat_is_rate_limited_witness :
  let e := sample_env 1000 in
  let e' := sample_env 100000 in
  let s1 := update_primary e sample_zero in
  _primary e' = _primary e
  /\ uint32 (micros_primary e' - last_primary_update_us s1) <= 200000
  /\ set_primary_calls s1 = [true]
  /\ update_primary e' s1 = s1.
Proof.
  cbv zeta.
  assert (Ht : uint32 (micros_primary (sample_env 100000)
                       - last_primary_update_us
                           (update_primary (sample_env 1000) sample_zero))
               <= 200000)
    by (vm_compute; discriminate).
  split; [reflexivity|]. split; [exact Ht|]. split; [reflexivity|].
  exact (proj2 (primary_heartbeat_is_rate_limited (sample_env 1000)
                  (sample_env 100000) sample_zero eq_refl) Ht).
Defined.

(** X19: with the raw-IMU log bit on, an accel sample is written to the
    logger. *)
Lemma accel_raw_log_sinks_witness :
  should_log_imu_raw sample_log_env = true
  /\ log_accel_raw sample_log_env 0 1001000 (mk f_1 f_0 f_0)
     = [Write_ACC 0 1001000 (mk f_1 f_0 f_0)].
Proof.
  split; [reflexivity|].
  exact (proj1 (accel_raw_log_sinks sample_log_env 0 1001000
                  (mk f_1 f_0 f_0)) eq_refl).
Defined.

(** X20: with the batch sampler logging at sensor rate, the sensor-rate
    notification feeds it and the filter-rate logging does not. *)
Lemma batch_sampler_is_fed_at_one_rate_witness :
  let e := sample_env 1001000 in
  let v := mk f_0 f_1 f_0 in
  _notify_new_gyro_sensor_rate_sample sample_batch_env e 0 v <> []
  /\ existsb is_batch_sample
       (log_gyro_raw sample_batch_env e 0 1001000 v v) = false.
Proof.
  cbv zeta.
  assert (H : _notify_new_gyro_sensor_rate_sample sample_batch_env
                (sample_env 1001000) 0 (mk f_0 f_1 f_0) <> [])
    by (vm_compute; discriminate).
  split; [exact H|].
  exact (proj1 (batch_sampler_is_fed_at_one_rate sample_batch_env
                  (sample_env 1001000) 0 1001000 (mk f_0 f_1 f_0)
                  (mk f_0 f_1 f_0) vzero (mk f_0 f_1 f_0)) H).
Defined.

(** X21: the gyro sample of [sample_running] is logged with the time
    stamp the call has stored. *)
Lemma sample_log_matches_stored_sample_witness :
  let e := sample_env 1001000 in
  let gyro := mk f_0 f_1 f_0 in
  let evs :=
    gyro_sample_log sample_log_env e 0
      (gyro_raw_sample e 0 gyro 0 sample_running) sample_running in
  evs <> []
  /\ evs = [Write_GYR 0 1001000 gyro]
  /\ flags (_notify_new_gyro_raw_sample e 0 gyro 0 sample_running)
       _new_gyro_data 0 = true.
Proof.
  cbv zeta.
  assert (H : gyro_sample_log sample_log_env (sample_env 1001000) 0
                (gyro_raw_sample (sample_env 1001000) 0 (mk f_0 f_1 f_0) 0
                   sample_running) sample_running <> [])
    by (vm_compute; discriminate).
  destruct (sample_log_matches_stored_sample sample_log_env
              (sample_env 1001000) 0 (mk f_0 f_1 f_0) vzero 0 false
              sample_running) as [(_ & _ & G) _].
  destruct (G H) as [G1 _].
  split; [exact H|]. split; [vm_compute; reflexivity | exact G1].
Defined.

(** X22: an infinite gyro sample goes through the stateless filter as it
    is, is thrown away, and the filtered gyro keeps its value. *)
Lemma gyro_filter_output_is_checked_witness :
  let e := sample_env 1001000 in
  let gyro := mk (S754_infinity false) f_0 f_0 in
  vfinite (snd (gyro_low_pass e 0 gyro sample_running)) = false
  /\ vecs (apply_gyro_filters e 0 gyro sample_running) _gyro_filtered 0
     = vecs sample_running _gyro_filtered 0.
Proof.
  cbv zeta.
  assert (H : vfinite (snd (gyro_low_pass (sample_env 1001000) 0
                              (mk (S754_infinity false) f_0 f_0)
                              sample_running)) = false)
    by (vm_compute; reflexivity).
  split; [exact H|].
  exact (proj1 (proj2 (gyro_filter_output_is_checked (sample_env 1001000) 0
                         (mk (S754_infinity false) f_0 f_0) sample_running)
                  H)).
Defined.

(** X23: a delta angle on [sample_running], at 1000 Hz, adds 1/1000 s to
    the accumulated time. *)
Lemma delta_sample_integration_witness :
  let e := sample_env 1001000 in
  let s := sample_running in
  has_been_killed 0 s = false
  /\ (floats (update_gyro_sensor_rate e 0 s) _gyro_raw_sample_rates 0
      <? f_40)%f32 = false
  /\ stale_gap (micros64_lock e) (ints s _gyro_last_sample_us 0) = false
  /\ floats (_notify_new_delta_angle e 0 (mk f_0 (lit 1 1000) f_0) s)
       _delta_angle_acc_dt 0
     = (lit 5 1000 + f_1 / of_int 1000)%f32.
Proof.
  cbv zeta.
  assert (Hr : (floats (update_gyro_sensor_rate (sample_env 1001000) 0
                          sample_running)
                  _gyro_raw_sample_rates 0 <? f_40)%f32 = false)
    by (vm_compute; reflexivity).
  assert (Hs : stale_gap (micros64_lock (sample_env 1001000))
                 (ints sample_running _gyro_last_sample_us 0) = false)
    by (vm_compute; reflexivity).
  destruct (delta_sample_integration (sample_env 1001000) 0
              (mk f_0 (lit 1 1000) f_0) vzero sample_running eq_refl)
    as [G _].
  destruct (G Hr Hs) as (_ & G2 & _).
  split; [reflexivity|]. split; [exact Hr|]. split; [exact Hs|].
  rewrite G2. vm_compute. reflexivity.
Defined.

(** X24: with the identity rotation, no offsets and unit scale of
    [sample_env], a value comes back unchanged less the zero offset. *)
Lemma correction_uses_published_temperature_witness :
  let e := sample_env 1001000 in
  let s' := _publish_temperature 0 (of_int 40) sample_running in
  has_been_killed 0 sample_running = false
  /\ floats s' _temperature 0 = of_int 40
  /\ _rotate_and_correct_gyro e 0 s' (mk f_0 f_1 f_0)
     = (mk f_0 f_1 f_0 - vzero)%v3.
Proof.
  cbv zeta.
  destruct (correction_uses_published_temperature (sample_env 1001000) 0
              (of_int 40) (mk f_0 f_1 f_0) sample_running eq_refl)
    as [G _].
  split; [reflexivity|]. split; [vm_compute; reflexivity|].
  rewrite G. reflexivity.
Defined.
